(** * Repositioning helper: hole inference, job pipeline, selection and export

    A shallow embedding of the Python sources

    - [config.py]                (detection thresholds),
    - [processing/export.py]     ([generate_export_json]),
    - [handlers.py]              (the [/progress], [/api/toggle], [/api/export]
                                  and [/delete] branches of [UploadHandler.do_GET]),
    - [geometry/extraction.py]   (the three extractors, [calculate_hole_score],
                                  [combine_and_group]),
    - [geometry/utils.py]        ([sample_edge_points]),
    - [geometry/mesh.py]         ([extract_mesh_from_shape], [load_step_shape]),
    - [processing/pipeline.py]   ([process_step_file_async]).

    Numbers.  A finite binary64 value is a rational, and Python [float]
    values are modelled by rationals ([Q]); infinities and not-a-number have
    no counterpart.  In the export, whose outputs are decimals, the
    arithmetic is binary64 as in the program: [Binary64] writes out
    rounding to nearest, ties to even, and [Py.round] is [round] on a float.
    In the geometry (scores, medians, axes, distances) [+], [-], [*], [/],
    [abs], [max], [min] and the comparisons are taken without rounding
    error.  Python [int] is [Z] (or [nat] for lengths).  Dictionaries used
    as records become records; dictionaries used as maps become [gmap];
    Python sets become [gset].

    Outside the repository.  [numpy.median], [numpy.average], [list.sort]
    and [sklearn.cluster.DBSCAN] with [min_samples=1] are written out in
    [Lib] from their documented behaviour.  [numpy]'s square root, the
    circle fitter of [geometry/circle_fitting.py] (singular values and least
    squares), the CAD kernel (OCP) and the file system appear as parameters
    of the sections that use them. *)

From Stdlib Require Import QArith Qpower Qround Qabs Lqa ZArith Lia Sorting.Sorted Floats.
From stdpp Require Import gmap strings list fin_maps pretty.

(** ** Python numerics *)

Module Py.

(** [max(a, b)]: the first argument unless the second is strictly larger. *)
Definition max (a b : Q) : Q := if Qlt_le_dec a b then b else a.

(** [min(a, b)]: the first argument unless the second is strictly smaller. *)
Definition min (a b : Q) : Q := if Qlt_le_dec b a then b else a.

(** [a <= b] and [a < b] as tests. *)
Definition leb (a b : Q) : bool := if Qlt_le_dec b a then false else true.
Definition ltb (a b : Q) : bool := if Qlt_le_dec a b then true else false.

(** Nearest integer to [n / d] ([d > 0]), halves going to the even
    neighbour. *)
Definition div_half_even (n : Z) (d : positive) : Z :=
  let q := (n / Z.pos d)%Z in
  let r := (n mod Z.pos d)%Z in
  match (2 * r ?= Z.pos d)%Z with
  | Lt => q
  | Gt => (q + 1)%Z
  | Eq => if Z.even q then q else (q + 1)%Z
  end.

(** [round(x, ndigits)] for [ndigits >= 0]: the multiple of [10^-ndigits]
    nearest to [x], halves to even, in lowest terms. *)
Definition round (x : Q) (ndigits : nat) : Q :=
  let scale := Pos.of_nat (10 ^ ndigits) in
  Qred (div_half_even (Qnum x * Z.pos scale) (Qden x) # scale).

(** [enumerate(l, start)]. *)
Fixpoint enumerate {A} (start : nat) (l : list A) : list (nat * A) :=
  match l with
  | [] => []
  | x :: l' => (start, x) :: enumerate (S start) l'
  end.

End Py.

(** ** Binary64 arithmetic *)

Module Binary64.
Local Open Scope Q_scope.

(** The exact value of a finite binary64 number. *)
Definition Q_of_float (f : float) : option Q :=
  match Prim2SF f with
  | S754_zero _ => Some 0%Q
  | S754_finite s m e =>
      let mag := match e with
                 | Z0 => inject_Z (Z.pos m)
                 | Zpos p => inject_Z (Z.pos m * 2 ^ Z.pos p)
                 | Zneg p => Z.pos m # (2 ^ p)
                 end in
      Some (if s then Qopp mag else mag)
  | _ => None
  end.

(** The binary64 number [f] is finite and [round(f, ndigits)] is the
    decimal [q]. *)
Definition rounds_to (f : float) (ndigits : nat) (q : Q) : Prop :=
  ∃ x, Q_of_float f = Some x ∧ (Py.round x ndigits == q)%Q.

(** The exponent of the last place of [x]: the [e] with
    [2^52 <= |x| / 2^e < 2^53], and [-1074] throughout the subnormal
    range. *)
Definition last_place (x : Q) : Z :=
  let e0 := (Z.log2 (Z.abs (Qnum x)) - Z.log2 (Z.pos (Qden x)) - 52)%Z in
  let e := if Qlt_le_dec (Qabs x * 2 ^ (- e0)) (2 ^ 52) then (e0 - 1)%Z else e0 in
  Z.max e (-1074).

(** Rounding to the nearest binary64 number, halves to the even
    significand: the multiple of [2^e] nearest to [x], [e] the exponent of
    the last place.  Beyond the largest finite number the machine gives an
    infinity, which has no counterpart here. *)
Definition round_nearest_even (x : Q) : Q :=
  let e := last_place x in
  let y := x * 2 ^ (- e) in
  Qred (inject_Z (Py.div_half_even (Qnum y) (Qden y)) * 2 ^ e).

(** [a * b], [a + b] and [a - b] on floats: the exact result, rounded. *)
Definition mul (a b : Q) : Q := round_nearest_even (a * b).
Definition add (a b : Q) : Q := round_nearest_even (a + b).
Definition sub (a b : Q) : Q := round_nearest_even (a - b).

(** A decimal literal of the source, such as [0.7]. *)
Definition literal (q : Q) : Q := round_nearest_even q.

(** The machine's result [f], when it is finite, has the value [q]. *)
Definition agrees (f : float) (q : Q) : bool :=
  match Q_of_float f with
  | Some x => Qeq_bool x q
  | None => true
  end.

End Binary64.

(** ** config.py *)

Module Config.
Definition RADIUS_MIN : Q := 15 # 10.
Definition RADIUS_MAX : Q := 20.
Definition CIRCLE_GROUPING_DISTANCE : Q := 4.
Definition MIN_VERTICAL_ALIGNMENT : Q := 15 # 100.
Definition MAX_CANDIDATES : nat := 800.
Definition MIN_SCORE_THRESHOLD : Q := 20.
Definition Z_TOLERANCE : Q := 12.
Definition ARC_MIN_SPAN_RAD : Q := 1.
End Config.

(** ** Data model *)

(** A 3D point or direction, [[x, y, z]]. *)
Record Vec3 := mkVec3 { vx : Q; vy : Q; vz : Q }.

(** The dictionaries appended to [holes] by [combine_and_group]. *)
Record Hole := mkHole {
  id : Z;
  center : Vec3;
  radius : Q;
  num_circles : nat;
  z_depth : Q;
  vertical_alignment : Q;
  score : Q;
  sources : gset string
}.

Definition set_id (i : Z) (h : Hole) : Hole :=
  mkHole i (center h) (radius h) (num_circles h) (z_depth h)
         (vertical_alignment h) (score h) (sources h).

(** ** processing/export.py *)

Module ExportJson.

Record Point := mkPoint { x : Q; y : Q; z : Q }.


(** One entry of ["repositionPointDataArray"]. *)
Record Entry := mkEntry {
  HoleID : string;
  Shape : Z;
  group : Z;
  e_radius : Q;
  e_num_circles : nat;
  e_score : Q;
  point1 : Point;
  point2 : Point;
  point3 : Point;
  point4 : Point
}.

(** The body of the [for i, h in enumerate(selected, start=1)] loop.  The
    centre and the radius are Python floats ([tolist()], [float(...)]), and
    the score is taken as one: [r * 0.7] and the four sums and differences
    are binary64 operations, and [round] then yields the float nearest to a
    decimal, which [json.dump] writes with the digits of that decimal.  (On
    a numpy scalar [round] is numpy's, which scales by 100, rounds to an
    integer and divides; it can differ in the last digit when the score sits
    within a rounding error of a half.) *)
Definition entry_of (i : nat) (h : Hole) : Entry :=
  let cx := vx (center h) in
  let cy := vy (center h) in
  let cz := vz (center h) in
  let r := radius h in
  let off := Binary64.mul r (Binary64.literal (7 # 10)) in
  {| HoleID := "BS-" +:+ pretty i;
     Shape := 2;
     group := 0;
     e_radius := Py.round r 4;
     e_num_circles := num_circles h;
     e_score := Py.round (score h) 2;
     point1 := mkPoint (Py.round (Binary64.add cx off) 2) (Py.round (Binary64.add cy off) 2)
                       (Py.round cz 2);
     point2 := mkPoint (Py.round (Binary64.sub cx off) 2) (Py.round (Binary64.add cy off) 2)
                       (Py.round cz 2);
     point3 := mkPoint (Py.round (Binary64.sub cx off) 2) (Py.round (Binary64.sub cy off) 2)
                       (Py.round cz 2);
     point4 := mkPoint (Py.round (Binary64.add cx off) 2) (Py.round (Binary64.sub cy off) 2)
                       (Py.round cz 2) |}.

(** [selected = [h for h in holes if h["id"] in selected_ids]]. *)
Definition selected (holes : list Hole) (selected_ids : gset Z) : list Hole :=
  List.filter (fun h => bool_decide (id h ∈ selected_ids)) holes.

(** [generate_export_json]: the export document (its one key holds the
    list of entries) and the name of the file it is written to. *)
Definition generate_export_json (holes : list Hole) (selected_ids : gset Z)
    (uid : string) : list Entry * string :=
  (List.map (fun ih => entry_of (fst ih) (snd ih))
            (Py.enumerate 1 (selected holes selected_ids)),
   "holes_export_" +:+ uid +:+ ".json").

End ExportJson.

(** ** processing/pipeline.py: the shared stores *)

Record Progress := mkProgress { percent : Z; status : string }.

(** Keys are what [qs.get('uid', [None])[0]] yields: a string or [None]. *)
Record Stores := mkStores {
  PROGRESS : gmap (option string) Progress;
  MESH_FILES : gmap (option string) (option string);
  HOLE_DATA : gmap (option string) (list Hole);
  SELECTED_HOLES : gmap (option string) (gset Z)
}.

Definition empty_stores : Stores := mkStores ∅ ∅ ∅ ∅.

(** The two states agree on every job but [uid]. *)
Definition same_elsewhere (uid : option string) (st st' : Stores) : Prop :=
  ∀ k, k ≠ uid →
    PROGRESS st' !! k = PROGRESS st !! k
    ∧ MESH_FILES st' !! k = MESH_FILES st !! k
    ∧ HOLE_DATA st' !! k = HOLE_DATA st !! k
    ∧ SELECTED_HOLES st' !! k = SELECTED_HOLES st !! k.

(** ** handlers.py: the API branches of [UploadHandler.do_GET] *)

Module Handlers.

Inductive Request :=
| ReqProgress (uid : option string)
| ReqToggle (uid : option string) (id_param : option Z)
| ReqExport (uid : option string)
| ReqDelete (uid : option string).

Inductive Body :=
| BodyText (msg : string)
| BodyError (error : string)
| BodyProgress (p : Progress)
| BodySelected (sel : gset Z)
| BodyExport (count : nat) (file : string)
| BodyDeleted.

Record Response := mkResponse { code : Z; body : Body }.

(** [not uid]: [None] and the empty string are falsy. *)
Definition falsy (uid : option string) : bool :=
  match uid with
  | None => true
  | Some s => bool_decide (s = EmptyString)
  end.

(** [int(qs.get('id', [0])[0])], [0] when absent or not an integer. *)
Definition hole_id_of (id_param : option Z) : Z := default 0%Z id_param.

Definition toggle (st : Stores) (uid : option string) (id_param : option Z)
    : Stores * Response :=
  let hole_id := hole_id_of id_param in
  (* if uid not in SELECTED_HOLES: SELECTED_HOLES[uid] = set() *)
  let sh :=
    match SELECTED_HOLES st !! uid with
    | Some _ => SELECTED_HOLES st
    | None => <[uid := ∅]> (SELECTED_HOLES st)
    end in
  let cur := default ∅ (sh !! uid) in
  if bool_decide (hole_id = 0%Z) then
    (mkStores (PROGRESS st) (MESH_FILES st) (HOLE_DATA st) sh,
     mkResponse 200 (BodySelected cur))
  else
    let new :=
      if bool_decide (hole_id ∈ cur) then cur ∖ {[hole_id]}
      else cur ∪ {[hole_id]} in
    (mkStores (PROGRESS st) (MESH_FILES st) (HOLE_DATA st) (<[uid := new]> sh),
     mkResponse 200 (BodySelected new)).

Definition progress (st : Stores) (uid : option string) : Stores * Response :=
  if falsy uid then (st, mkResponse 404 (BodyError "uid not found"))
  else match PROGRESS st !! uid with
       | None => (st, mkResponse 404 (BodyError "uid not found"))
       | Some p => (st, mkResponse 200 (BodyProgress p))
       end.

Definition export (st : Stores) (uid : option string) : Stores * Response :=
  match uid, HOLE_DATA st !! uid, SELECTED_HOLES st !! uid with
  | Some u, Some holes, Some selected_ids =>
      if falsy uid then (st, mkResponse 404 (BodyError "No data for uid"))
      else
        let '(export_data, filename) :=
          ExportJson.generate_export_json holes selected_ids u in
        (st, mkResponse 200 (BodyExport (length export_data) filename))
  | _, _, _ => (st, mkResponse 404 (BodyError "No data for uid"))
  end.

Definition delete (st : Stores) (uid : option string) : Stores * Response :=
  if falsy uid then (st, mkResponse 400 (BodyText "Missing uid"))
  else (mkStores (base.delete uid (PROGRESS st)) (base.delete uid (MESH_FILES st))
                 (base.delete uid (HOLE_DATA st)) (base.delete uid (SELECTED_HOLES st)),
        mkResponse 200 BodyDeleted).

Definition do_GET (st : Stores) (req : Request) : Stores * Response :=
  match req with
  | ReqProgress uid => progress st uid
  | ReqToggle uid id_param => toggle st uid id_param
  | ReqExport uid => export st uid
  | ReqDelete uid => delete st uid
  end.

End Handlers.

(** The job a request is about. *)
Definition request_uid (req : Handlers.Request) : option string :=
  match req with
  | Handlers.ReqProgress uid | Handlers.ReqToggle uid _
  | Handlers.ReqExport uid | Handlers.ReqDelete uid => uid
  end.

(** ** Library functions used by geometry/extraction.py *)

Module Lib.
Local Open Scope Q_scope.

(** A stable insertion sort: [x] is placed in front of the first element
    that does not come strictly before it, so elements that compare equal
    keep their relative order, as with Python's [list.sort] and [sorted]. *)
Fixpoint insert_by {A} (before : A → A → bool) (x : A) (l : list A) : list A :=
  match l with
  | [] => [x]
  | y :: l' => if before y x then y :: insert_by before x l' else x :: y :: l'
  end.

Fixpoint sort_by {A} (before : A → A → bool) (l : list A) : list A :=
  match l with
  | [] => []
  | x :: l' => insert_by before x (sort_by before l')
  end.

(** [l.sort(key=key, reverse=True)]. *)
Definition sort_desc {A} (key : A → Q) (l : list A) : list A :=
  sort_by (fun a b => Py.ltb (key b) (key a)) l.

(** [sorted(l)] on numbers. *)
Definition sort_asc (l : list Q) : list Q := sort_by Py.ltb l.

(** [sorted(set(labels))]. *)
Definition sorted_set (labels : list nat) : list nat :=
  sort_by Nat.ltb (remove_dups labels).

(** [max(l)] and [min(l)] for a non-empty list ([0] stands for the
    [ValueError] of the empty list, which no caller below can trigger). *)
Definition max_list (l : list Q) : Q :=
  match l with
  | [] => 0
  | a :: l' => fold_left Py.max l' a
  end.

Definition min_list (l : list Q) : Q :=
  match l with
  | [] => 0
  | a :: l' => fold_left Py.min l' a
  end.

Definition sum (l : list Q) : Q := fold_left Qplus l 0.

(** [numpy.median] of a one-dimensional array. *)
Definition median (l : list Q) : Q :=
  let s := sort_asc l in
  let n := length s in
  if Nat.even n then (nth (n / 2 - 1)%nat s 0 + nth (n / 2)%nat s 0) / 2
  else nth (n / 2)%nat s 0.

(** [numpy.median(centers, axis=0)]. *)
Definition median3 (l : list Vec3) : Vec3 :=
  mkVec3 (median (List.map vx l)) (median (List.map vy l)) (median (List.map vz l)).

Definition dot (ws xs : list Q) : Q :=
  sum (List.map (fun wx => fst wx * snd wx) (combine ws xs)).

(** [numpy.average(axes, axis=0, weights=weights)]. *)
Definition average3 (axes : list Vec3) (weights : list Q) : Vec3 :=
  let sw := sum weights in
  mkVec3 (dot weights (List.map vx axes) / sw)
         (dot weights (List.map vy axes) / sw)
         (dot weights (List.map vz axes) / sw).

Definition norm2 (v : Vec3) : Q := vx v * vx v + vy v * vy v + vz v * vz v.

Definition dist2 (p q : Vec3) : Q :=
  (vx p - vx q) * (vx p - vx q) + (vy p - vy q) * (vy p - vy q)
  + (vz p - vz q) * (vz p - vz q).

(** Two samples are neighbours when their Euclidean distance is at most
    [eps]; for [eps >= 0] that is [dist2 <= eps * eps]. *)
Definition within (eps : Q) (p q : Vec3) : bool :=
  Py.leb (dist2 p q) (eps * eps).

(** [sklearn.cluster.DBSCAN(eps, min_samples=1)]: every sample is a core
    sample (its neighbourhood holds itself), so there is no noise label and
    the clusters are the connected components of the neighbour graph.
    Samples are visited in index order; an unlabelled one opens the next
    cluster, which is grown until no unlabelled sample has a neighbour in
    it. *)
Definition near_cluster (eps : Q) (pts : list Vec3) (labels : list (option nat))
    (lbl : nat) (p : Vec3) : bool :=
  existsb (fun ql => match snd ql with
                     | Some l => Nat.eqb l lbl && within eps (fst ql) p
                     | None => false
                     end)
          (combine pts labels).

Definition expand (eps : Q) (pts : list Vec3) (lbl : nat)
    (labels : list (option nat)) : list (option nat) :=
  List.map (fun pl => match snd pl with
                      | Some l => Some l
                      | None => if near_cluster eps pts labels lbl (fst pl)
                                then Some lbl else None
                      end)
           (combine pts labels).

Fixpoint flood (rounds : nat) (eps : Q) (pts : list Vec3) (lbl : nat)
    (labels : list (option nat)) : list (option nat) :=
  match rounds with
  | O => labels
  | S r => flood r eps pts lbl (expand eps pts lbl labels)
  end.

Fixpoint scan (todo : list nat) (eps : Q) (pts : list Vec3) (lbl : nat)
    (labels : list (option nat)) : list (option nat) :=
  match todo with
  | [] => labels
  | i :: todo' =>
      match labels !! i with
      | Some None =>
          scan todo' eps pts (S lbl)
               (flood (length pts) eps pts lbl (<[i := Some lbl]> labels))
      | _ => scan todo' eps pts lbl labels
      end
  end.

(** [DBSCAN(eps=eps, min_samples=1).fit(features).labels_]. *)
Definition DBSCAN_labels (eps : Q) (features : list Vec3) : list nat :=
  List.map (default O)
    (scan (seq 0 (length features)) eps features 0%nat
          (replicate (length features) None)).

End Lib.

(** ** geometry/extraction.py *)

(** A candidate circle: the dictionaries built by the three extractors. *)
Module Circle.
Record t := mk {
  source : string;
  center : Vec3;
  radius : Q;
  axis : option Vec3;
  arc_span : option Q
}.
End Circle.

Module Extraction.
Import Config.
Local Open Scope Q_scope.

Definition calculate_hole_score (group : list Circle.t)
    (representative : option Circle.t) (avg_radius alignment : Q) : Q :=
  let score := 0 in
  let ideal := 55 # 10 in
  let penalty := 15 # 10 in
  let score := score + Py.max 0 (25 - Qabs (avg_radius - ideal) * penalty) in
  let score :=
    if Py.leb MIN_VERTICAL_ALIGNMENT alignment
    then score + (alignment - MIN_VERTICAL_ALIGNMENT) / (1 - MIN_VERTICAL_ALIGNMENT) * 15
    else score in
  let n := length group in
  let score :=
    if (4 <=? n)%nat then score + 40
    else if (n =? 3)%nat then score + 32
    else if (n =? 2)%nat then score + 24
    else score + 15 in
  let sources : gset string := list_to_set (List.map Circle.source group) in
  let score :=
    if bool_decide ("cylindrical_face" ∈ sources) then score + 15 else score in
  let score :=
    if bool_decide ("analytic_edge" ∈ sources) then score + 10 else score in
  let score :=
    if bool_decide ("fitted_edge" ∈ sources)
    then score + (if (2 <=? n)%nat then 5 else 3) else score in
  Py.max 0 (Py.min 100 score).

(** [RADIUS_MIN <= c['radius'] <= RADIUS_MAX]. *)
Definition in_window (c : Circle.t) : bool :=
  Py.leb RADIUS_MIN (Circle.radius c) && Py.leb (Circle.radius c) RADIUS_MAX.

Definition is_analytic (g : Circle.t) : bool :=
  bool_decide (Circle.source g = "analytic_edge")
  || bool_decide (Circle.source g = "cylindrical_face").

Definition weight (g : Circle.t) : Q :=
  if bool_decide (Circle.source g = "cylindrical_face") then 3
  else if bool_decide (Circle.source g = "analytic_edge") then 2
  else 1.

(** The row of [features] built from one centre. *)
Definition feature (c : Vec3) : Vec3 :=
  let z_scale := Z_TOLERANCE / CIRCLE_GROUPING_DISTANCE in
  mkVec3 (vx c) (vy c) (vz c / z_scale).

(** [[filtered[i] for i in np.where(labels == lbl)[0]]]. *)
Definition group_of (labels : list nat) (filtered : list Circle.t) (lbl : nat)
    : list Circle.t :=
  List.map snd (List.filter (fun lc => Nat.eqb (fst lc) lbl) (combine labels filtered)).

(** [group] as the rest of the loop body sees it: [group.sort(...)] has
    reordered it, highest centre first, when it has no analytic member. *)
Definition reordered (group : list Circle.t) : list Circle.t :=
  match List.filter is_analytic group with
  | [] => Lib.sort_desc (fun g => vz (Circle.center g)) group
  | _ => group
  end.

Section WithSqrt.

(** [numpy]'s square root, behind [numpy.linalg.norm]. *)
Variable np_sqrt : Q → Q.

Definition norm (v : Vec3) : Q := np_sqrt (Lib.norm2 v).

(** The fused, normalised axis of a group. *)
Definition fused_axis (group : list Circle.t) : Vec3 :=
  let axes := List.map (fun g => default (mkVec3 0 0 1) (Circle.axis g)) group in
  let weights := List.map weight group in
  let avg_axis := Lib.average3 axes weights in
  let d := norm avg_axis + (1 # 10000000000) in
  mkVec3 (vx avg_axis / d) (vy avg_axis / d) (vz avg_axis / d).

(** One iteration of [for lbl in unique_labels]: the hole appended to
    [holes], or [None] where the loop body reaches [continue]. *)
Definition hole_of_group (group0 : list Circle.t) (n_holes : nat) : option Hole :=
  let analytic := List.filter is_analytic group0 in
  let key := fun g => vz (Circle.center g) in
  (* group.sort(...) reorders the group itself when no analytic member exists *)
  let group := match analytic with [] => Lib.sort_desc key group0 | _ => group0 end in
  let best := match analytic with
              | [] => head group
              | _ => head (Lib.sort_desc key analytic)
              end in
  let hole_center := Lib.median3 (List.map Circle.center group) in
  let avg_radius := Lib.median (List.map Circle.radius group) in
  let avg_axis := fused_axis group in
  let alignment := Qabs (vz avg_axis) in
  if Py.ltb alignment MIN_VERTICAL_ALIGNMENT then None
  else
    let z_vals := List.map key group in
    let z_depth := Lib.max_list z_vals - Lib.min_list z_vals in
    Some {| id := (Z.of_nat n_holes + 1)%Z;
            center := hole_center;
            radius := avg_radius;
            num_circles := length group;
            z_depth := z_depth;
            vertical_alignment := alignment;
            score := calculate_hole_score group best avg_radius alignment;
            sources := list_to_set (List.map Circle.source group) |}.

(** The radius pre-filter. *)
Definition filtered (all_circles : list Circle.t) : list Circle.t :=
  List.filter in_window all_circles.

Definition labels_of (filtered : list Circle.t) : list nat :=
  Lib.DBSCAN_labels CIRCLE_GROUPING_DISTANCE
    (List.map (fun c => feature (Circle.center c)) filtered).

(** The [group] of every cluster, in the order the loop visits them. *)
Definition groups (all_circles : list Circle.t) : list (list Circle.t) :=
  let fl := filtered all_circles in
  let labels := labels_of fl in
  List.map (group_of labels fl) (Lib.sorted_set labels).

(** [holes] when the [for lbl in unique_labels] loop ends: ids count the
    holes in the order their clusters were discovered. *)
Definition discovered (all_circles : list Circle.t) : list Hole :=
  fold_left (fun holes group =>
               match hole_of_group group (length holes) with
               | Some h => holes ++ [h]
               | None => holes
               end)
            (groups all_circles) [].

(** Sorted, thresholded and truncated, before the ids are rewritten. *)
Definition ranked (all_circles : list Circle.t) : list Hole :=
  take MAX_CANDIDATES
    (List.filter (fun h => Py.leb MIN_SCORE_THRESHOLD (score h))
       (Lib.sort_desc score (discovered all_circles))).

(** [for i, h in enumerate(holes, 1): h['id'] = i]. *)
Definition renumber (holes : list Hole) : list Hole :=
  List.map (fun ih => set_id (Z.of_nat (fst ih)) (snd ih)) (Py.enumerate 1 holes).

Definition combine_and_group (all_circles : list Circle.t) : list Hole :=
  match all_circles with
  | [] => []
  | _ =>
      match filtered all_circles with
      | [] => []
      | _ => renumber (ranked all_circles)
      end
  end.

End WithSqrt.

End Extraction.

(** ** Calls that may raise *)

(** The outcome of a call: a value, or an exception with its message
    ([str(e)]). *)
Inductive result (A : Type) :=
| Ok (a : A)
| Raise (msg : string).
Arguments Ok {A} a.
Arguments Raise {A} msg.

(** ** geometry/utils.py *)

Module Utils.
Local Open Scope Q_scope.

(** What the kernel answers for one edge.  Every call may raise. *)
Record Curve := mkCurve {
  FirstParameter : result (option Q);
  LastParameter : result (option Q);
  Value : Q → result Vec3
}.

Record Edge := mkEdge {
  (** [BRepAdaptor_Curve(edge)] *)
  BRepAdaptor_Curve : result Curve;
  (** [BRepMesh_IncrementalMesh(edge, 0.08, False, 0.5, True)] *)
  BRepMesh_IncrementalMesh : result unit;
  (** [BRep_Tool.Location_s(edge)], with its [Transformation()] *)
  Location_s : result (result (Vec3 → result Vec3));
  (** [BRep_Tool.Polygon3D_s(edge, location)]: [None] when the edge has no
      polygon; otherwise [NbNodes()] and the nodes [Nodes().Value(i)] *)
  Polygon3D_s : result (option (result (list (result Vec3))))
}.

(** [numpy.linspace(f, l, n)]: [ValueError] for a negative [n]. *)
Definition linspace (f l : Q) (n : Z) : result (list Q) :=
  if (n <? 0)%Z then Raise "Number of samples must be non-negative."
  else
    let k := Z.to_nat n in
    Ok (List.map (fun i => f + inject_Z (Z.of_nat i) * ((l - f) / inject_Z (n - 1)))
                 (seq 0 k)).

(** The inner [for t in ...] loop: an evaluation that raises is skipped. *)
Definition evaluate (adaptor : Curve) (ts : list Q) : list Vec3 :=
  omap (fun t => match Value adaptor t with Ok p => Some p | Raise _ => None end) ts.

(** The first [try] block.  The boolean tells whether it reached
    [return pts]; otherwise control falls through to the fallback with the
    points appended so far. *)
Definition parametric (edge : Edge) (n_samples : Z) : list Vec3 * bool :=
  match BRepAdaptor_Curve edge with
  | Raise _ => ([], false)
  | Ok adaptor =>
      match FirstParameter adaptor with
      | Raise _ => ([], false)
      | Ok f =>
          match LastParameter adaptor with
          | Raise _ => ([], false)
          | Ok l =>
              match f, l with
              | Some f, Some l =>
                  if Py.ltb (1 # 10000000) (Qabs (l - f)) then
                    match linspace f l n_samples with
                    | Raise _ => ([], false)
                    | Ok ts =>
                        let pts := evaluate adaptor ts in
                        (pts, (4 <=? length pts)%nat)
                    end
                  else ([], false)
              | _, _ => ([], false)
              end
          end
      end
  end.

(** The nodes appended by the second loop: it stops at the first call
    that raises, and the points appended before that stay in [pts]. *)
Fixpoint transformed (transform : Vec3 → result Vec3) (nodes : list (result Vec3))
    : list Vec3 :=
  match nodes with
  | [] => []
  | Raise _ :: _ => []
  | Ok pnt :: nodes' =>
      match transform pnt with
      | Raise _ => []
      | Ok p => p :: transformed transform nodes'
      end
  end.

(** The second [try] block, started with the points [pts] left by the
    first.  Both [return pts] statements that can follow return the same
    list. *)
Definition fallback (edge : Edge) (pts : list Vec3) : list Vec3 :=
  match BRepMesh_IncrementalMesh edge, Location_s edge, Polygon3D_s edge with
  | Ok _, Ok location, Ok (Some poly) =>
      match location, poly with
      | Ok transform, Ok nodes => pts ++ transformed transform nodes
      | _, _ => pts
      end
  | _, _, _ => pts
  end.

Definition sample_edge_points (edge : Edge) (n_samples : Z) : list Vec3 :=
  let '(pts, returned) := parametric edge n_samples in
  if returned then pts else fallback edge pts.

(** The number of nodes of the edge's polygon ([0] when it has none). *)
Definition polygon_nodes (edge : Edge) : nat :=
  match Polygon3D_s edge with
  | Ok (Some (Ok nodes)) => length nodes
  | _ => O
  end.

End Utils.

(** ** geometry/mesh.py *)

Module Mesh.

(** The triangulation the kernel holds for one face: the nodes [Node(i)],
    already moved by the face's transformation, and the triangles
    [Triangle(i).Get()] with their 1-based node numbers. *)
Record Triangulation := mkTriangulation {
  nodes : list Vec3;
  triangles : list (Z * Z * Z)
}.

(** [BRepMesh_IncrementalMesh(shape, quality)] followed by the scan of the
    faces: the triangulation of each face ([None] where the kernel has
    none), unless a kernel call raises. *)
Definition Kernel : Type := result (list (option Triangulation)).

(** [l[i]] for a list: negative indices count from the end; [None] is
    [IndexError]. *)
Definition index {A} (l : list A) (i : Z) : option A :=
  if (0 <=? i)%Z then l !! Z.to_nat i
  else if (- Z.of_nat (length l) <=? i)%Z then l !! Z.to_nat (Z.of_nat (length l) + i)
  else None.

(** The [while exp.More()] loop: [raw_vertices] and [raw_faces]. *)
Definition collect (faces : list (option Triangulation))
    : list Vec3 * list (Z * Z * Z) :=
  fold_left
    (fun acc tri =>
       match tri with
       | None => acc
       | Some t =>
           let base_idx := Z.of_nat (length (fst acc)) in
           (fst acc ++ nodes t,
            snd acc ++ List.map (fun abc =>
                                   match abc with
                                   | (a, b, c) =>
                                       ((base_idx + (a - 1))%Z, (base_idx + (b - 1))%Z,
                                        (base_idx + (c - 1))%Z)
                                   end) (triangles t))
       end)
    faces ([], []).

(** Equality of the coordinate tuples used as dictionary keys. *)
Definition vec_eqb (u v : Vec3) : bool :=
  Qeq_bool (vx u) (vx v) && Qeq_bool (vy u) (vy v) && Qeq_bool (vz u) (vz v).

(** [vert_map[v]]; [None] is [KeyError]. *)
Definition vert_lookup (vert_map : list (Vec3 * nat)) (v : Vec3) : option nat :=
  snd <$> List.find (fun kv => vec_eqb (fst kv) v) vert_map.

(** The deduplication loop, on the state [(vert_map, vertices, new_index)]. *)
Definition dedup_step (st : list (Vec3 * nat) * list Vec3 * nat) (v : Vec3)
    : list (Vec3 * nat) * list Vec3 * nat :=
  match st with
  | (vert_map, vertices, new_index) =>
      match vert_lookup vert_map v with
      | Some _ => st
      | None => (vert_map ++ [(v, new_index)], vertices ++ [v], S new_index)
      end
  end.

Definition dedup (raw_vertices : list Vec3) : list (Vec3 * nat) * list Vec3 * nat :=
  fold_left dedup_step raw_vertices ([], [], O).

Inductive lookup_error := IndexError | KeyError.

(** [vert_map[raw_vertices[i]]]. *)
Definition new_index_of (vert_map : list (Vec3 * nat)) (raw_vertices : list Vec3)
    (i : Z) : lookup_error + nat :=
  match index raw_vertices i with
  | None => inl IndexError
  | Some v =>
      match vert_lookup vert_map v with
      | None => inl KeyError
      | Some k => inr k
      end
  end.

(** The remapping loop: a [KeyError] skips the face, an [IndexError]
    leaves the loop (and lands in the outer [except]). *)
Fixpoint remap (vert_map : list (Vec3 * nat)) (raw_vertices : list Vec3)
    (raw_faces : list (Z * Z * Z)) : option (list (nat * nat * nat)) :=
  match raw_faces with
  | [] => Some []
  | (a, b, c) :: raw_faces' =>
      let entry :=
        match new_index_of vert_map raw_vertices a with
        | inl e => inl e
        | inr ka =>
            match new_index_of vert_map raw_vertices b with
            | inl e => inl e
            | inr kb =>
                match new_index_of vert_map raw_vertices c with
                | inl e => inl e
                | inr kc => inr (ka, kb, kc)
                end
            end
        end in
      match entry with
      | inl IndexError => None
      | inl KeyError => remap vert_map raw_vertices raw_faces'
      | inr f => cons f <$> remap vert_map raw_vertices raw_faces'
      end
  end.

(** [extract_mesh_from_shape]: every exception ends in [return [], []]. *)
Definition extract_mesh_from_shape (kernel : Kernel)
    : list Vec3 * list (nat * nat * nat) :=
  match kernel with
  | Raise _ => ([], [])
  | Ok faces =>
      match collect faces with
      | ([], _) | (_, []) => ([], [])
      | (raw_vertices, raw_faces) =>
          match dedup raw_vertices with
          | (vert_map, vertices, _) =>
              match remap vert_map raw_vertices raw_faces with
              | None => ([], [])
              | Some faces => (vertices, faces)
              end
          end
      end
  end.

(** What the deduplication loop keeps true: the counter is the number of
    vertices, and every entry of the map points at its own key. *)
Definition dedup_inv (st : list (Vec3 * nat) * list Vec3 * nat) : Prop :=
  match st with
  | (vert_map, vertices, new_index) =>
      new_index = length vertices
      ∧ (∀ v k, (v, k) ∈ vert_map → vertices !! k = Some v)
      ∧ (∀ i j u v, (i < j)%nat → vertices !! i = Some u → vertices !! j = Some v →
           vec_eqb u v = false)
      ∧ (∀ v, v ∈ vertices → ∃ k, (v, k) ∈ vert_map)
  end.

(** The kernel numbers the corners of every triangle of [t] within the
    nodes of [t], from 1. *)
Definition well_numbered (t : Triangulation) : Prop :=
  ∀ a b c, (a, b, c) ∈ triangles t →
    let n := Z.of_nat (length (nodes t)) in
    (1 <= a <= n ∧ 1 <= b <= n ∧ 1 <= c <= n)%Z.

(** The three indices of a raw face lie within [n] raw vertices. *)
Definition in_range (n : nat) (f : Z * Z * Z) : Prop :=
  match f with
  | (a, b, c) =>
      (0 <= a < Z.of_nat n ∧ 0 <= b < Z.of_nat n ∧ 0 <= c < Z.of_nat n)%Z
  end.

(** The vertex [k] of the mesh has the coordinates of the raw vertex
    [i]. *)
Definition same_corner (vertices raw_vertices : list Vec3) (i : Z) (k : nat) : Prop :=
  ∃ u v, index raw_vertices i = Some v ∧ vertices !! k = Some u
         ∧ vec_eqb u v = true.

(** The face of the mesh is the raw face, corner by corner. *)
Definition same_face (vertices raw_vertices : list Vec3)
    (raw : Z * Z * Z) (face : nat * nat * nat) : Prop :=
  match raw, face with
  | (ra, rb, rc), (a, b, c) =>
      same_corner vertices raw_vertices ra a
      ∧ same_corner vertices raw_vertices rb b
      ∧ same_corner vertices raw_vertices rc c
  end.

End Mesh.

(** ** processing/pipeline.py *)

Module Pipeline.

(** Computations over the shared stores that may raise. *)
Definition M (A : Type) : Type := Stores → result A * Stores.

Definition ret {A} (a : A) : M A := fun st => (Ok a, st).

Definition bind {A B} (m : M A) (k : A → M B) : M B :=
  fun st => match m st with
            | (Ok a, st') => k a st'
            | (Raise e, st') => (Raise e, st')
            end.

(** A call that does not touch the stores. *)
Definition call {A} (r : result A) : M A := fun st => (r, st).

(** [try: body except Exception as e: handler(e)]. *)
Definition try_except {A} (body : M A) (handler : string → M A) : M A :=
  fun st => match body st with
            | (Ok a, st') => (Ok a, st')
            | (Raise e, st') => handler e st'
            end.

#[export] Instance M_ret : MRet M := @ret.
#[export] Instance M_bind : MBind M := fun A B k m => bind m k.

Definition set_PROGRESS (uid : string) (p : Progress) : M unit :=
  fun st => (Ok tt, mkStores (<[Some uid := p]> (PROGRESS st)) (MESH_FILES st)
                             (HOLE_DATA st) (SELECTED_HOLES st)).

Definition set_MESH_FILES (uid : string) (path : option string) : M unit :=
  fun st => (Ok tt, mkStores (PROGRESS st) (<[Some uid := path]> (MESH_FILES st))
                             (HOLE_DATA st) (SELECTED_HOLES st)).

Definition set_HOLE_DATA (uid : string) (holes : list Hole) : M unit :=
  fun st => (Ok tt, mkStores (PROGRESS st) (MESH_FILES st)
                             (<[Some uid := holes]> (HOLE_DATA st)) (SELECTED_HOLES st)).

Definition set_SELECTED_HOLES (uid : string) (sel : gset Z) : M unit :=
  fun st => (Ok tt, mkStores (PROGRESS st) (MESH_FILES st) (HOLE_DATA st)
                             (<[Some uid := sel]> (SELECTED_HOLES st))).

(** A computation that leaves every job but [uid] as it was. *)
Definition frames {A} (uid : string) (m : M A) : Prop :=
  ∀ st, same_elsewhere (Some uid) st (snd (m st)).

Section Job.

(** The functions imported from [geometry], the kernel behind them and the
    file system: each call either returns or raises. *)
Variable Shape : Type.
Variable load_step_shape : string → result Shape.
Variable extract_analytic_circular_edges : Shape → result (list Circle.t).
Variable extract_cylindrical_faces : Shape → result (list Circle.t).
Variable extract_fitted_circles_from_edges : Shape → result (list Circle.t).
Variable combine_and_group : list Circle.t → result (list Hole).
Variable extract_mesh_from_shape :
  Shape → Q → result (list Vec3 * list (nat * nat * nat)).
(** [with open(path, 'w') as f: json.dump(..., f)] *)
Variable dump_mesh : string → list Vec3 * list (nat * nat * nat) → result unit.
Variable dump_holes : string → list Hole → result unit.
Variable WEB_ROOT : string.

(** [os.path.join(WEB_ROOT, name)]. *)
Definition join (name : string) : string := WEB_ROOT +:+ "/" +:+ name.

(** The body of the [try] block; [true] is the early [return]. *)
Definition job_body (uid step_path : string) (quality : Q) : M unit :=
  set_PROGRESS uid (mkProgress 5 "Loading STEP file") ;;
  shape ← call (load_step_shape step_path);
  set_PROGRESS uid (mkProgress 15 "Detecting holes") ;;
  analytic ← call (extract_analytic_circular_edges shape);
  cyls ← call (extract_cylindrical_faces shape);
  fitted ← call (extract_fitted_circles_from_edges shape);
  let all_circles := analytic ++ cyls ++ fitted in
  holes ← call (combine_and_group all_circles);
  set_PROGRESS uid
    (mkProgress 40 ("Found " +:+ pretty (length holes) +:+ " holes, triangulating mesh")) ;;
  mesh ← call (extract_mesh_from_shape shape quality);
  let '(vertices, faces) := mesh in
  match vertices, faces with
  | [], _ | _, [] =>
      set_PROGRESS uid (mkProgress 100 "No mesh produced") ;;
      set_MESH_FILES uid None ;;
      set_HOLE_DATA uid holes ;;
      set_SELECTED_HOLES uid ∅
  | _, _ =>
      set_PROGRESS uid (mkProgress 75 "Saving data") ;;
      let mesh_path := join ("mesh_" +:+ uid +:+ ".json") in
      call (dump_mesh mesh_path (vertices, faces)) ;;
      let hole_path := join ("holes_" +:+ uid +:+ ".json") in
      call (dump_holes hole_path holes) ;;
      set_MESH_FILES uid (Some mesh_path) ;;
      set_HOLE_DATA uid holes ;;
      set_SELECTED_HOLES uid ∅ ;;
      set_PROGRESS uid
        (mkProgress 100 ("Done - " +:+ pretty (length holes) +:+ " holes detected"))
  end.

(** The [except Exception as e] block. *)
Definition on_error (uid : string) (e : string) : M unit :=
  set_PROGRESS uid (mkProgress 100 ("Error: " +:+ e)) ;;
  set_MESH_FILES uid None ;;
  set_HOLE_DATA uid [] ;;
  set_SELECTED_HOLES uid ∅.

Definition process_step_file_async (uid step_path : string) (quality : Q) : M unit :=
  try_except (job_body uid step_path quality) (on_error uid).

(** An exception [e] is raised inside the [try] block: by the loader, by
    one of the three extractors, by the clusterer, by the mesh extractor, or
    while the mesh and the holes are saved. *)
Inductive raises (uid step_path : string) (quality : Q) (e : string) : Prop :=
| raises_load :
    load_step_shape step_path = Raise e → raises uid step_path quality e
| raises_extract (shape : Shape) :
    load_step_shape step_path = Ok shape →
    (extract_analytic_circular_edges shape = Raise e
     ∨ (∃ analytic, extract_analytic_circular_edges shape = Ok analytic
          ∧ (extract_cylindrical_faces shape = Raise e
             ∨ (∃ cyls, extract_cylindrical_faces shape = Ok cyls
                  ∧ extract_fitted_circles_from_edges shape = Raise e)))) →
    raises uid step_path quality e
| raises_cluster (shape : Shape) (analytic cyls fitted : list Circle.t) :
    load_step_shape step_path = Ok shape →
    extract_analytic_circular_edges shape = Ok analytic →
    extract_cylindrical_faces shape = Ok cyls →
    extract_fitted_circles_from_edges shape = Ok fitted →
    combine_and_group (analytic ++ cyls ++ fitted) = Raise e →
    raises uid step_path quality e
| raises_mesh (shape : Shape) (analytic cyls fitted : list Circle.t) (holes : list Hole) :
    load_step_shape step_path = Ok shape →
    extract_analytic_circular_edges shape = Ok analytic →
    extract_cylindrical_faces shape = Ok cyls →
    extract_fitted_circles_from_edges shape = Ok fitted →
    combine_and_group (analytic ++ cyls ++ fitted) = Ok holes →
    (extract_mesh_from_shape shape quality = Raise e
     ∨ (∃ v vertices f faces,
          extract_mesh_from_shape shape quality = Ok (v :: vertices, f :: faces)
          ∧ (dump_mesh (join ("mesh_" +:+ uid +:+ ".json")) (v :: vertices, f :: faces)
               = Raise e
             ∨ (dump_mesh (join ("mesh_" +:+ uid +:+ ".json")) (v :: vertices, f :: faces)
                  = Ok tt
                ∧ dump_holes (join ("holes_" +:+ uid +:+ ".json")) holes = Raise e)))) →
    raises uid step_path quality e.

End Job.

End Pipeline.

(** ** geometry/extraction.py: the candidate extractors *)

Module Extractors.
Import Config.
Local Open Scope Q_scope.

Inductive GeomAbs_CurveType := GeomAbs_Circle | GeomAbs_OtherCurve.
Inductive GeomAbs_SurfaceType := GeomAbs_Cylinder | GeomAbs_OtherSurface.

(** What the kernel gives for a circle ([Location()], [Axis().Direction()],
    [Radius()]) and for a cylinder ([Axis().Location()],
    [Axis().Direction()], [Radius()]). *)
Record Geometry := mkGeometry { Location : Vec3; Direction : Vec3; Radius : Q }.

(** One element met by [TopExp_Explorer(shape, TopAbs_EDGE)]: the type of
    its curve adaptor, the circle behind it, and the edge as the sampler
    sees it.  Each call may raise. *)
Record EdgeElement := mkEdgeElement {
  GetType : result GeomAbs_CurveType;
  Circle : result Geometry;
  sampled : Utils.Edge
}.

(** One element met by [TopExp_Explorer(shape, TopAbs_FACE)]. *)
Record FaceElement := mkFaceElement {
  SurfaceType : result GeomAbs_SurfaceType;
  Cylinder : result Geometry
}.

(** One pass of the [while exp.More()] loop of
    [extract_analytic_circular_edges]; the bare [except] turns every
    exception into "no candidate". *)
Definition analytic_step (circles : list Circle.t) (e : EdgeElement) : list Circle.t :=
  match GetType e with
  | Ok GeomAbs_Circle =>
      match Circle e with
      | Ok c =>
          let center := Location c in
          let axis := Direction c in
          let radius := Radius c in
          if Py.leb RADIUS_MIN radius && Py.leb radius RADIUS_MAX then
            let alignment := Qabs (vz axis) in
            if Py.leb MIN_VERTICAL_ALIGNMENT alignment then
              circles ++ [Circle.mk "analytic_edge" center radius (Some axis) None]
            else circles
          else circles
      | Raise _ => circles
      end
  | _ => circles
  end.

Definition extract_analytic_circular_edges (edges : list EdgeElement) : list Circle.t :=
  fold_left analytic_step edges [].

(** One pass of the loop of [extract_cylindrical_faces]. *)
Definition cylinder_step (cylinders : list Circle.t) (f : FaceElement) : list Circle.t :=
  match SurfaceType f with
  | Ok GeomAbs_Cylinder =>
      match Cylinder f with
      | Ok cyl =>
          let axis := Direction cyl in
          let loc := Location cyl in
          let radius := Radius cyl in
          if Py.leb RADIUS_MIN radius && Py.leb radius RADIUS_MAX then
            let alignment := Qabs (vz axis) in
            if Py.leb MIN_VERTICAL_ALIGNMENT alignment then
              cylinders ++ [Circle.mk "cylindrical_face" loc radius (Some axis) None]
            else cylinders
          else cylinders
      | Raise _ => cylinders
      end
  | _ => cylinders
  end.

Definition extract_cylindrical_faces (faces : list FaceElement) : list Circle.t :=
  fold_left cylinder_step faces [].

(** A successful fit: [(center3d, normal, radius, span)]. *)
Record Fit := mkFit { center3d : Vec3; normal : Vec3; fit_radius : Q; span : Q }.

Section WithFitter.

(** [fit_circle_3d(points, min_points)] of geometry/circle_fitting.py:
    a fit, [None], or an exception. *)
Variable fit_circle_3d : list Vec3 → nat → result (option Fit).

(** One pass of the loop of [extract_fitted_circles_from_edges]. *)
Definition fitted_step (fitted : list Circle.t) (e : EdgeElement) : list Circle.t :=
  match GetType e with
  | Raise _ => fitted
  | Ok GeomAbs_Circle => fitted
  | Ok GeomAbs_OtherCurve =>
      let pts := Utils.sample_edge_points (sampled e) 120 in
      if (length pts <? 4)%nat then fitted
      else
        match fit_circle_3d pts 4 with
        | Raise _ => fitted
        | Ok None => fitted
        | Ok (Some fit) =>
            let radius := fit_radius fit in
            if negb (Py.leb RADIUS_MIN radius && Py.leb radius RADIUS_MAX) then fitted
            else if Py.ltb (span fit) ARC_MIN_SPAN_RAD then fitted
            else fitted ++ [Circle.mk "fitted_edge" (center3d fit) radius
                                      (Some (normal fit)) (Some (span fit))]
        end
  end.

Definition extract_fitted_circles_from_edges (edges : list EdgeElement) : list Circle.t :=
  fold_left fitted_step edges [].

End WithFitter.

(** A candidate as the analytic-edge and the cylinder extractor emit it:
    tagged with its source, the radius inside the window, an axis that
    passed the alignment test, no arc span. *)
Definition exact_candidate (tag : string) (c : Circle.t) : Prop :=
  Circle.source c = tag
  ∧ RADIUS_MIN <= Circle.radius c ∧ Circle.radius c <= RADIUS_MAX
  ∧ (∃ axis, Circle.axis c = Some axis ∧ MIN_VERTICAL_ALIGNMENT <= Qabs (vz axis))
  ∧ Circle.arc_span c = None.

(** A candidate as the fitted extractor emits it: the radius inside the
    window, an arc span of at least [ARC_MIN_SPAN_RAD], and an axis that no
    alignment test has seen. *)
Definition fitted_candidate (c : Circle.t) : Prop :=
  Circle.source c = "fitted_edge"
  ∧ RADIUS_MIN <= Circle.radius c ∧ Circle.radius c <= RADIUS_MAX
  ∧ (∃ axis, Circle.axis c = Some axis)
  ∧ (∃ s, Circle.arc_span c = Some s ∧ ARC_MIN_SPAN_RAD <= s).

End Extractors.

(** ** geometry/mesh.py: [load_step_shape], and the shape the kernel hands out *)

Module Step.

(** A loaded shape, as far as the program looks at it: what the edge and
    face explorers yield (or the exception they raise) and what the mesher
    answers at a given quality. *)
Record Shape := mkShape {
  edges : result (list Extractors.EdgeElement);
  faces : result (list Extractors.FaceElement);
  triangulation : Q → Mesh.Kernel
}.

(** [STEPControl_Reader]: the status of [ReadFile(filepath)] and what
    [TransferRoots()] followed by [OneShape()] gives, unless [ReadFile]
    itself raises. *)
Definition Reader : Type := string → result (Z * result Shape).

Definition load_step_shape (reader : Reader) (filepath : string) : result Shape :=
  match reader filepath with
  | Raise e => Raise e
  | Ok (status, shape) =>
      if negb (status =? 1)%Z then Raise "Failed to read STEP file"
      else shape
  end.

(** The three extractors on a shape: an explorer that raises makes the
    extractor raise. *)
Definition on_elements {A B} (f : list A → B) (r : result (list A)) : result B :=
  match r with
  | Ok l => Ok (f l)
  | Raise e => Raise e
  end.

End Step.

(** ** The job as the server runs it *)

Module App.

Section WithKernel.

Variable np_sqrt : Q → Q.
Variable fit_circle_3d : list Vec3 → nat → result (option Extractors.Fit).
Variable reader : Step.Reader.
Variable dump_mesh : string → list Vec3 * list (nat * nat * nat) → result unit.
Variable dump_holes : string → list Hole → result unit.
Variable WEB_ROOT : string.

(** [process_step_file_async] with the functions it imports. *)
Definition process_step_file_async (uid step_path : string) (quality : Q)
    : Pipeline.M unit :=
  Pipeline.process_step_file_async Step.Shape
    (Step.load_step_shape reader)
    (fun shape =>
       Step.on_elements Extractors.extract_analytic_circular_edges (Step.edges shape))
    (fun shape =>
       Step.on_elements Extractors.extract_cylindrical_faces (Step.faces shape))
    (fun shape =>
       Step.on_elements (Extractors.extract_fitted_circles_from_edges fit_circle_3d)
                        (Step.edges shape))
    (fun all_circles => Ok (Extraction.combine_and_group np_sqrt all_circles))
    (fun shape quality => Ok (Mesh.extract_mesh_from_shape (Step.triangulation shape quality)))
    dump_mesh dump_holes WEB_ROOT uid step_path quality.

(** [all_circles]: what the three extractors find on the edges and faces
    of a shape, in the order the job concatenates them. *)
Definition candidates (es : list Extractors.EdgeElement)
    (fs : list Extractors.FaceElement) : list Circle.t :=
  Extractors.extract_analytic_circular_edges es
  ++ Extractors.extract_cylindrical_faces fs
  ++ Extractors.extract_fitted_circles_from_edges fit_circle_3d es.

(** [holes]: the aggregate of the candidates. *)
Definition detected (es : list Extractors.EdgeElement)
    (fs : list Extractors.FaceElement) : list Hole :=
  Extraction.combine_and_group np_sqrt (candidates es fs).

(** The exception [e] reaches the [except] block of the job: the loader
    raises it (an unreadable file included), the edge or the face explorer
    raises it, or writing the mesh or the holes raises it.  Nothing else
    does: an element on which a kernel call raises is skipped by the
    extractors, and the mesh extractor catches whatever is raised inside
    it. *)
Inductive fails (uid step_path : string) (quality : Q) (e : string) : Prop :=
| fails_load :
    Step.load_step_shape reader step_path = Raise e → fails uid step_path quality e
| fails_explore (shape : Step.Shape) :
    Step.load_step_shape reader step_path = Ok shape →
    (Step.edges shape = Raise e
     ∨ (∃ es, Step.edges shape = Ok es ∧ Step.faces shape = Raise e)) →
    fails uid step_path quality e
| fails_save (shape : Step.Shape) (es : list Extractors.EdgeElement)
    (fs : list Extractors.FaceElement) (v : Vec3) (vertices : list Vec3)
    (f : nat * nat * nat) (faces : list (nat * nat * nat)) :
    Step.load_step_shape reader step_path = Ok shape →
    Step.edges shape = Ok es → Step.faces shape = Ok fs →
    Mesh.extract_mesh_from_shape (Step.triangulation shape quality)
      = (v :: vertices, f :: faces) →
    (dump_mesh (Pipeline.join WEB_ROOT ("mesh_" +:+ uid +:+ ".json"))
               (v :: vertices, f :: faces) = Raise e
     ∨ (dump_mesh (Pipeline.join WEB_ROOT ("mesh_" +:+ uid +:+ ".json"))
                  (v :: vertices, f :: faces) = Ok tt
        ∧ dump_holes (Pipeline.join WEB_ROOT ("holes_" +:+ uid +:+ ".json"))
                     (detected es fs) = Raise e)) →
    fails uid step_path quality e.

End WithKernel.

End App.

(** ** What the specification promises, where it differs from the code *)

Module Claimed.

(** The ids selected after a sequence of toggle requests, in the order in
    which they were added (a removed id loses its place). *)
Definition selection_order (toggles : list Z) : list Z :=
  fold_left (fun order i =>
               if bool_decide (i = 0%Z) then order
               else if bool_decide (i ∈ order) then List.filter (fun j => negb (Z.eqb j i)) order
               else order ++ [i])
            toggles [].

(** The export document with one entry per selected id, in selection
    order, labelled from 1 in that order. *)
Definition export_in_selection_order (holes : list Hole) (order : list Z)
    : list ExportJson.Entry :=
  List.map (fun ih => ExportJson.entry_of (fst ih) (snd ih))
    (Py.enumerate 1
       (omap (fun i => List.find (fun h => Z.eqb (id h) i) holes) order)).

(** The terminal state promised after an exception inside a job: an error
    status at 100 percent, no holes and no mesh reference. *)
Definition error_state (uid : string) (st : Stores) : Prop :=
  (∃ e, PROGRESS st !! Some uid = Some (mkProgress 100 ("Error: " +:+ e)))
  ∧ HOLE_DATA st !! Some uid = Some []
  ∧ MESH_FILES st !! Some uid = Some None.

End Claimed.

(** The stores after a sequence of toggle requests for one uid. *)
Definition toggle_all (st : Stores) (uid : option string) (ids : list Z) : Stores :=
  fold_left (fun st i => fst (Handlers.toggle st uid (Some i))) ids st.

(** The order of [ranked]: a higher score first, and among equal scores
    the hole discovered first. *)
Definition before_in_rank (h1 h2 : Hole) : Prop :=
  (score h2 < score h1)%Q ∨ ((score h1 == score h2)%Q ∧ (id h1 < id h2)%Z).

(** A rational square root to run the aggregator with: for [q = n / d]
    the root rounded down to a multiple of [1 / (d * 10^9)]. *)
Definition sqrt_floor (q : Q) : Q :=
  Z.sqrt (Qnum q * Z.pos (Qden q) * 10 ^ 18) # (Qden q * 10 ^ 9).

(** [f] is a square root up to the absolute error [delta]: on a
    non-negative [q] the true root lies between [f q - delta] and
    [f q + delta]. *)
Definition sqrt_upto (delta : Q) (f : Q → Q) : Prop :=
  ∀ q : Q, (0 <= q)%Q →
    (0 <= f q)%Q
    ∧ (q <= (f q + delta) * (f q + delta))%Q
    ∧ ((delta <= f q)%Q → ((f q - delta) * (f q - delta) <= q)%Q).

(** The words of the two-agreeing-sources scenario. *)
Module Scenario.
Local Open Scope Q_scope.

(** A radius of approximately 6.0. *)
Definition radius_about_6 (r : Q) : Prop := Qabs (r - 6) <= 1 # 2.

(** An axis of approximately (0, 0, 1). *)
Definition axis_about_up (v : Vec3) : Prop :=
  Qabs (vx v) <= 1 # 10 ∧ Qabs (vy v) <= 1 # 10 ∧ Qabs (vz v - 1) <= 1 # 10.

(** Two centres at a Euclidean distance of at most
    [CIRCLE_GROUPING_DISTANCE]. *)
Definition within_grouping_distance (p q : Vec3) : Prop :=
  Lib.dist2 p q <= Config.CIRCLE_GROUPING_DISTANCE * Config.CIRCLE_GROUPING_DISTANCE.

End Scenario.

(** ** Decimal rounding and tolerance, as the properties state them *)




(** * Properties *)

(** ** Export *)

Section ExportFacts.
Import ExportJson.

Lemma enumerate_length {A} (l : list A) (k : nat) :
  length (Py.enumerate k l) = length l.
Proof. revert k. induction l as [|a l IH]; intros k; simpl; [done|]. by rewrite IH. Qed.

Lemma enumerate_lookup {A} (l : list A) (k i : nat) (a : A) :
  l !! i = Some a → Py.enumerate k l !! i = Some ((k + i)%nat, a).
Proof.
  revert k i. induction l as [|b l IH]; intros k i; [done|].
  destruct i as [|i]; simpl.
  - intros [= ->]. by rewrite Nat.add_0_r.
  - intros H. rewrite (IH (S k) i H). f_equal. f_equal. lia.
Qed.

Lemma export_lookup (holes : list Hole) (sel : gset Z) (uid : string) (i : nat) (h : Hole) :
  selected holes sel !! i = Some h →
  fst (generate_export_json holes sel uid) !! i = Some (entry_of (S i) h).
Proof.
  intros H. unfold generate_export_json. simpl.
  rewrite list_lookup_fmap.
  by rewrite (enumerate_lookup _ 1 i h H).
Qed.

Lemma selected_ext (holes : list Hole) (s1 s2 : gset Z) :
  (∀ h, h ∈ holes → (id h ∈ s1 ↔ id h ∈ s2)) →
  selected holes s1 = selected holes s2.
Proof.
  unfold selected. induction holes as [|h l IH]; intros H; [done|].
  simpl. rewrite IH.
  - assert (Hh : id h ∈ s1 ↔ id h ∈ s2) by (apply H; left).
    by rewrite (bool_decide_ext _ _ Hh).
  - intros h' Hin. apply H. by right.
Qed.

Lemma selected_sublist (holes : list Hole) (sel : gset Z) :
  selected holes sel `sublist_of` holes.
Proof.
  unfold selected. induction holes as [|h l IH]; simpl; [done|].
  destruct (bool_decide _); by constructor.
Qed.

Lemma elem_of_selected (holes : list Hole) (sel : gset Z) (h : Hole) :
  h ∈ selected holes sel ↔ h ∈ holes ∧ id h ∈ sel.
Proof.
  unfold selected. rewrite list_elem_of_In, filter_In, <- list_elem_of_In.
  by rewrite bool_decide_eq_true.
Qed.

End ExportFacts.

(** ** Rounding: decimal places and binary64 *)

Section FloatFacts.
Local Open Scope Q_scope.

















End FloatFacts.

(** ** Accuracy of the export arithmetic *)

Section ExportAccuracy.
Local Open Scope Q_scope.








End ExportAccuracy.

(** ** Export *)

Section ExportSchema.
Import ExportJson.
Local Open Scope Q_scope.




End ExportSchema.


(** C4 as stated fails: with holes 1 and 2 stored in that order and
    selected in the order 2 then 1, the export lists hole 1 first. *)
Lemma export_order_counterexample :
  let h1 := mkHole 1 (mkVec3 0 0 0) 5 1 0 1 50 {["analytic_edge"]} in
  let h2 := mkHole 2 (mkVec3 9 9 0) 6 1 0 1 60 {["analytic_edge"]} in
  let st0 := mkStores ∅ ∅ {[Some "job" := [h1; h2]]} {[Some "job" := ∅]} in
  let st := toggle_all st0 (Some "job") [2%Z; 1%Z] in
  ∃ sel, SELECTED_HOLES st !! Some "job" = Some sel
    ∧ Claimed.selection_order [2%Z; 1%Z] = [2%Z; 1%Z]
    ∧ fst (ExportJson.generate_export_json [h1; h2] sel "job")
        = [ExportJson.entry_of 1 h1; ExportJson.entry_of 2 h2]
    ∧ fst (ExportJson.generate_export_json [h1; h2] sel "job")
        ≠ Claimed.export_in_selection_order [h1; h2] (Claimed.selection_order [2%Z; 1%Z]).
Proof.
  intros h1 h2 st0 st.
  exists ({[2%Z]} ∪ {[1%Z]} : gset Z). split; [|split; [|split]].
  - vm_compute. reflexivity.
  - reflexivity.
  - vm_compute. reflexivity.
  - vm_compute. intros H. discriminate H.
Qed.

(** C4, amended.  The exported entries follow the stored hole list: they
    are the entries of the stored holes whose id is selected, in stored
    order and labelled from 1 in that order, whatever the order in which the
    ids were selected. *)
Theorem export_in_stored_order (holes : list Hole) (selected_ids : gset Z) (uid : string) :
  ∃ hs : list Hole,
    hs `sublist_of` holes
    ∧ (∀ h, h ∈ hs ↔ h ∈ holes ∧ id h ∈ selected_ids)
    ∧ fst (ExportJson.generate_export_json holes selected_ids uid)
        = imap (fun i h => ExportJson.entry_of (S i) h) hs.
Proof.
  exists (ExportJson.selected holes selected_ids). split; [|split].
  - apply selected_sublist.
  - apply elem_of_selected.
  - apply list_eq. intros i. rewrite list_lookup_imap.
    destruct (ExportJson.selected holes selected_ids !! i) as [h|] eqn:Hi; simpl.
    + by apply (export_lookup holes selected_ids uid).
    + apply lookup_ge_None. apply lookup_ge_None in Hi.
      unfold ExportJson.generate_export_json. simpl.
      by rewrite length_map, enumerate_length.
Qed.

(** ** Selection *)

(** C9 as stated fails: a toggle for a uid that no store knows is answered
    with status 200, not 404, and leaves a selection set for that uid. *)
Lemma toggle_unknown_uid_counterexample :
  let r := Handlers.do_GET empty_stores (Handlers.ReqToggle (Some "nojob") (Some 3%Z)) in
  Handlers.code (snd r) = 200%Z
  ∧ Handlers.code (snd r) ≠ 404%Z
  ∧ Handlers.body (snd r) = Handlers.BodySelected {[3%Z]}
  ∧ SELECTED_HOLES (fst r) !! Some "nojob" = Some {[3%Z]}
  ∧ SELECTED_HOLES (fst r) !! Some "nojob" ≠ None.
Proof.
  vm_compute. repeat split; discriminate.
Qed.

(** C9, amended.  A toggle request for a uid without selection state never
    fails: it is answered with status 200 and the new selection, and it
    creates the selection set of that uid, empty for the sentinel id 0 and
    holding the toggled id otherwise; the other stores stay as they were. *)
Theorem toggle_unknown_uid (st : Stores) (uid : option string) (id_param : option Z) :
  SELECTED_HOLES st !! uid = None →
  let r := Handlers.do_GET st (Handlers.ReqToggle uid id_param) in
  let hole_id := Handlers.hole_id_of id_param in
  let sel : gset Z := if bool_decide (hole_id = 0%Z) then ∅ else {[hole_id]} in
  snd r = Handlers.mkResponse 200 (Handlers.BodySelected sel)
  ∧ SELECTED_HOLES (fst r) !! uid = Some sel
  ∧ (∀ u, u ≠ uid → SELECTED_HOLES (fst r) !! u = SELECTED_HOLES st !! u)
  ∧ PROGRESS (fst r) = PROGRESS st
  ∧ MESH_FILES (fst r) = MESH_FILES st
  ∧ HOLE_DATA (fst r) = HOLE_DATA st.
Proof.
  intros Hnone r hole_id sel. unfold r, sel, hole_id. simpl.
  unfold Handlers.toggle. rewrite Hnone. rewrite lookup_insert_eq. simpl.
  destruct (bool_decide (Handlers.hole_id_of id_param = 0%Z)) eqn:Hz; simpl.
  - rewrite lookup_insert_eq. repeat split; try done.
    intros u Hu. by rewrite lookup_insert_ne.
  - rewrite bool_decide_eq_false_2 by set_solver.
    rewrite lookup_insert_eq, (left_id_L ∅ (∪)). repeat split; try done.
    intros u Hu. by rewrite !lookup_insert_ne.
Qed.

Lemma toggle_unknown_uid_witness :
  let r := Handlers.do_GET empty_stores (Handlers.ReqToggle (Some "nojob") (Some 3%Z)) in
  snd r = Handlers.mkResponse 200 (Handlers.BodySelected {[3%Z]})
  ∧ SELECTED_HOLES (fst r) !! Some "nojob" = Some {[3%Z]}.
Proof.
  destruct (toggle_unknown_uid empty_stores (Some "nojob") (Some 3%Z)) as (H1 & H2 & _).
  - reflexivity.
  - split; [exact H1 | exact H2].
Defined.

(** C10.  Members of the selection set that are the id of no stored hole
    do not show in the export: two selection sets that agree on the ids of
    the stored holes give the same document, and toggling an id that no
    stored hole carries changes the selection set but neither the document
    nor the handler's answer, which stays a success. *)
Theorem export_ignores_foreign_ids (holes : list Hole) (uid : string) :
  (∀ s1 s2 : gset Z,
     (∀ h, h ∈ holes → (id h ∈ s1 ↔ id h ∈ s2)) →
     ExportJson.generate_export_json holes s1 uid
       = ExportJson.generate_export_json holes s2 uid)
  ∧ (∀ (st : Stores) (sel : gset Z) (i : Z),
       uid ≠ EmptyString →
       HOLE_DATA st !! Some uid = Some holes →
       SELECTED_HOLES st !! Some uid = Some sel →
       i ≠ 0%Z → (∀ h, h ∈ holes → id h ≠ i) →
       let st' := fst (Handlers.do_GET st (Handlers.ReqToggle (Some uid) (Some i))) in
       ∃ sel', SELECTED_HOLES st' !! Some uid = Some sel'
         ∧ sel' ≠ sel
         ∧ HOLE_DATA st' !! Some uid = Some holes
         ∧ ExportJson.generate_export_json holes sel' uid
             = ExportJson.generate_export_json holes sel uid
         ∧ snd (Handlers.do_GET st' (Handlers.ReqExport (Some uid)))
             = snd (Handlers.do_GET st (Handlers.ReqExport (Some uid)))
         ∧ Handlers.code (snd (Handlers.do_GET st' (Handlers.ReqExport (Some uid)))) = 200%Z).
Proof.
  assert (Hext : ∀ s1 s2 : gset Z,
     (∀ h, h ∈ holes → (id h ∈ s1 ↔ id h ∈ s2)) →
     ExportJson.generate_export_json holes s1 uid
       = ExportJson.generate_export_json holes s2 uid).
  { intros s1 s2 H. unfold ExportJson.generate_export_json.
    by rewrite (selected_ext holes s1 s2 H). }
  split; [exact Hext|].
  intros st sel i Hu Hh Hs Hi Hfresh st'.
  set (sel' := if bool_decide (i ∈ sel) then sel ∖ {[i]} else sel ∪ {[i]}).
  assert (Hst' : SELECTED_HOLES st' !! Some uid = Some sel').
  { unfold st'. simpl. unfold Handlers.toggle. rewrite Hs. simpl. rewrite Hs. simpl.
    rewrite bool_decide_eq_false_2 by done. simpl. by rewrite lookup_insert_eq. }
  assert (Hh' : HOLE_DATA st' !! Some uid = Some holes).
  { unfold st'. simpl. unfold Handlers.toggle. rewrite Hs. simpl.
    by rewrite bool_decide_eq_false_2 by done. }
  assert (Hagree : ∀ h, h ∈ holes → (id h ∈ sel' ↔ id h ∈ sel)).
  { intros h Hin. specialize (Hfresh h Hin). unfold sel'.
    destruct (bool_decide (i ∈ sel)); set_solver. }
  assert (Hdoc := Hext sel' sel Hagree).
  exists sel'. split; [exact Hst'|]. split; [|split; [exact Hh'|split; [exact Hdoc|]]].
  - unfold sel'. destruct (bool_decide (i ∈ sel)) eqn:Hin.
    + apply bool_decide_eq_true in Hin. set_solver.
    + apply bool_decide_eq_false in Hin. set_solver.
  - unfold Handlers.do_GET, Handlers.export. rewrite Hh', Hst', Hh, Hs.
    unfold Handlers.falsy. rewrite bool_decide_eq_false_2 by done. rewrite Hdoc.
    by destruct (ExportJson.generate_export_json holes sel uid).
Qed.

Lemma export_ignores_foreign_ids_witness :
  let h1 := mkHole 1 (mkVec3 0 0 0) 5 1 0 1 50 {["analytic_edge"]} in
  ExportJson.generate_export_json [h1] {[1%Z; 7%Z]} "job"
    = ExportJson.generate_export_json [h1] {[1%Z]} "job".
Proof.
  intros h1.
  apply (proj1 (export_ignores_foreign_ids [h1] "job")).
  intros h Hin. apply list_elem_of_singleton in Hin. subst h. simpl.
  split; intros _; set_solver.
Defined.

(** ** Scorer *)

Section ScoreFacts.
Local Open Scope Q_scope.

Lemma py_max_ge_l (a b : Q) : a <= Py.max a b.
Proof. unfold Py.max. destruct (Qlt_le_dec a b); lra. Qed.

Lemma py_max_ge_r (a b : Q) : b <= Py.max a b.
Proof. unfold Py.max. destruct (Qlt_le_dec a b); lra. Qed.

Lemma py_max_lub (a b c : Q) : a <= c → b <= c → Py.max a b <= c.
Proof. unfold Py.max. destruct (Qlt_le_dec a b); lra. Qed.

Lemma py_min_le_l (a b : Q) : Py.min a b <= a.
Proof. unfold Py.min. destruct (Qlt_le_dec b a); lra. Qed.

Lemma py_clamp_id (s : Q) : 0 <= s → s <= 100 → Py.max 0 (Py.min 100 s) == s.
Proof.
  intros H0 H1. unfold Py.max, Py.min.
  destruct (Qlt_le_dec s 100); destruct (Qlt_le_dec 0 _); lra.
Qed.

Lemma py_leb_true (a b : Q) : Py.leb a b = true ↔ a <= b.
Proof. unfold Py.leb. destruct (Qlt_le_dec b a); split; intros; try done; lra. Qed.

Lemma py_leb_false (a b : Q) : Py.leb a b = false ↔ b < a.
Proof. unfold Py.leb. destruct (Qlt_le_dec b a); split; intros; try done; lra. Qed.

Lemma py_ltb_true (a b : Q) : Py.ltb a b = true ↔ a < b.
Proof. unfold Py.ltb. destruct (Qlt_le_dec a b); split; intros; try done; lra. Qed.

Lemma py_ltb_false (a b : Q) : Py.ltb a b = false ↔ b <= a.
Proof. unfold Py.ltb. destruct (Qlt_le_dec a b); split; intros; try done; lra. Qed.

Lemma py_clamp_bounds (s : Q) :
  0 <= Py.max 0 (Py.min 100 s) ∧ Py.max 0 (Py.min 100 s) <= 100.
Proof.
  split; [apply py_max_ge_l|].
  apply py_max_lub; [lra|apply py_min_le_l].
Qed.

End ScoreFacts.

(** C6.  Whatever the group, the average radius and the alignment, the
    score lies between 0 and 100. *)
Theorem score_bounds (group : list Circle.t) (representative : option Circle.t)
    (avg_radius alignment : Q) :
  (0 <= Extraction.calculate_hole_score group representative avg_radius alignment
   ∧ Extraction.calculate_hole_score group representative avg_radius alignment <= 100)%Q.
Proof.
  unfold Extraction.calculate_hole_score.
  set (total := if bool_decide ("fitted_edge" ∈ _) then _ else _).
  split.
  - apply py_max_ge_l.
  - apply py_max_lub; [lra|]. apply py_min_le_l.
Qed.

(** ** Curve sampler *)

Section SamplerFacts.
Import Utils.

Lemma evaluate_length (adaptor : Curve) (ts : list Q) :
  length (evaluate adaptor ts) ≤ length ts.
Proof.
  unfold evaluate, omap. induction ts as [|t ts IH]; simpl; [lia|].
  destruct (Value adaptor t); simpl; lia.
Qed.

Lemma linspace_length (f l : Q) (n : Z) (ts : list Q) :
  linspace f l n = Ok ts → length ts = Z.to_nat n.
Proof.
  unfold linspace. destruct (n <? 0)%Z; [done|].
  intros [= <-]. by rewrite length_map, length_seq.
Qed.

Lemma transformed_length (transform : Vec3 → result Vec3) (nodes : list (result Vec3)) :
  length (transformed transform nodes) ≤ length nodes.
Proof.
  induction nodes as [|[p|e] nodes IH]; simpl; [lia| |lia].
  destruct (transform p); simpl; lia.
Qed.

Lemma parametric_length (edge : Edge) (n_samples : Z) :
  length (fst (parametric edge n_samples)) ≤ Z.to_nat n_samples
  ∧ (snd (parametric edge n_samples) = true → 4 ≤ length (fst (parametric edge n_samples)))
  ∧ (snd (parametric edge n_samples) = false → length (fst (parametric edge n_samples)) ≤ 3).
Proof.
  unfold parametric.
  destruct (BRepAdaptor_Curve edge) as [ad|]; [|simpl; lia].
  destruct (FirstParameter ad) as [[f|]|]; try (simpl; lia);
    destruct (LastParameter ad) as [[l|]|]; try (simpl; lia).
  destruct (Py.ltb _ _); [|simpl; lia].
  destruct (linspace f l n_samples) as [ts|] eqn:Hts; [|simpl; lia].
  apply linspace_length in Hts. cbn [fst snd].
  pose proof (evaluate_length ad ts) as Hle.
  split; [lia|]. split; intros H.
  - by apply Nat.leb_le in H.
  - apply Nat.leb_gt in H. lia.
Qed.

Lemma fallback_length (edge : Edge) (pts : list Vec3) :
  length (fallback edge pts) ≤ length pts + polygon_nodes edge.
Proof.
  unfold fallback, polygon_nodes.
  destruct (BRepMesh_IncrementalMesh edge); [|lia].
  destruct (Location_s edge) as [loc|]; [|lia].
  destruct (Polygon3D_s edge) as [[poly|]|]; try lia.
  destruct loc as [tr|]; destruct poly as [nodes|]; try lia.
  rewrite length_app. pose proof (transformed_length tr nodes). lia.
Qed.

End SamplerFacts.

(** C8 as stated fails: when the parametric domain is degenerate the
    sampler returns the polygon's vertices, here five of them for
    [n_samples = 4]. *)
Lemma sampler_length_counterexample :
  let curve := Utils.mkCurve (Ok (Some 0%Q)) (Ok (Some 0%Q)) (fun t => Ok (mkVec3 t 0 0)) in
  let nodes := List.map (fun i => Ok (mkVec3 (inject_Z i) 0 0)) [0; 1; 2; 3; 4]%Z in
  let edge := Utils.mkEdge (Ok curve) (Ok tt) (Ok (Ok (fun p => Ok p)))
                           (Ok (Some (Ok nodes))) in
  length (Utils.sample_edge_points edge 4) = 5
  ∧ ¬ (0 ≤ Z.of_nat (length (Utils.sample_edge_points edge 4)) ≤ 4)%Z.
Proof.
  vm_compute. split; [reflexivity|]. intros [_ H]. by apply H.
Qed.

(** C8, amended.  The sampler always returns a list.  When the parametric
    pass collects at least four points it returns them, between 4 and
    [n_samples] of them.  Otherwise it returns the at most three points of
    that pass followed by transformed vertices of the edge's polygon, so the
    length is bounded by [n_samples] only when the edge has no polygon; in
    general it is at most [min(3, n_samples)] plus the polygon's node
    count. *)
Theorem sampler_length (edge : Utils.Edge) (n_samples : Z) :
  let pts := Utils.sample_edge_points edge n_samples in
  let n := Z.to_nat n_samples in
  (snd (Utils.parametric edge n_samples) = true →
     pts = fst (Utils.parametric edge n_samples) ∧ 4 ≤ length pts ≤ n)
  ∧ (snd (Utils.parametric edge n_samples) = false →
     pts = Utils.fallback edge (fst (Utils.parametric edge n_samples))
     ∧ length pts ≤ Nat.min 3 n + Utils.polygon_nodes edge)
  ∧ length pts ≤ Nat.max n (Nat.min 3 n + Utils.polygon_nodes edge)
  ∧ (Utils.polygon_nodes edge = 0 → length pts ≤ n).
Proof.
  intros pts n. subst pts n. unfold Utils.sample_edge_points.
  destruct (parametric_length edge n_samples) as (Hn & Ht & Hf).
  destruct (Utils.parametric edge n_samples) as [p0 returned]. cbn [fst snd] in *.
  pose proof (fallback_length edge p0) as Hfb.
  destruct returned.
  - specialize (Ht eq_refl). clear Hf.
    split; [intros _; split; [done|lia]|].
    split; [intros [=]|]. split; [lia|intros _; lia].
  - specialize (Hf eq_refl). clear Ht.
    split; [intros [=]|].
    split; [intros _; split; [done|lia]|]. split; [lia|intros Hz; lia].
Qed.

Lemma sampler_length_witness :
  let curve := Utils.mkCurve (Ok (Some 0%Q)) (Ok (Some 1%Q)) (fun t => Ok (mkVec3 t 0 0)) in
  let edge := Utils.mkEdge (Ok curve) (Raise "no mesh") (Raise "no location")
                           (Raise "no polygon") in
  4 ≤ length (Utils.sample_edge_points edge 6) ≤ 6.
Proof.
  intros curve edge.
  destruct (sampler_length edge 6) as (H & _).
  apply H. reflexivity.
Defined.

(** ** Job pipeline *)

Section JobFacts.
Import Pipeline.

Variable Shape : Type.
Variable load_step_shape : string → result Shape.
Variable extract_analytic_circular_edges : Shape → result (list Circle.t).
Variable extract_cylindrical_faces : Shape → result (list Circle.t).
Variable extract_fitted_circles_from_edges : Shape → result (list Circle.t).
Variable combine_and_group : list Circle.t → result (list Hole).
Variable extract_mesh_from_shape :
  Shape → Q → result (list Vec3 * list (nat * nat * nat)).
Variable dump_mesh : string → list Vec3 * list (nat * nat * nat) → result unit.
Variable dump_holes : string → list Hole → result unit.
Variable WEB_ROOT : string.

Let body := job_body Shape load_step_shape extract_analytic_circular_edges
  extract_cylindrical_faces extract_fitted_circles_from_edges combine_and_group
  extract_mesh_from_shape dump_mesh dump_holes WEB_ROOT.

Let Raises := raises Shape load_step_shape extract_analytic_circular_edges
  extract_cylindrical_faces extract_fitted_circles_from_edges combine_and_group
  extract_mesh_from_shape dump_mesh dump_holes WEB_ROOT.

Ltac run_step :=
  match goal with
  | |- context [match ?r with Ok _ => _ | Raise _ => _ end] =>
      let H := fresh "Hstep" in destruct r eqn:H; cbn -[pretty String.append]
  end.

Ltac unfold_job :=
  unfold body, job_body, on_error, try_except, mbind, M_bind, bind, call,
    set_PROGRESS, set_MESH_FILES, set_HOLE_DATA, set_SELECTED_HOLES;
  cbn -[pretty String.append].

(** A raised exception leaves the [try] block with that exception. *)
Lemma raises_body (uid step_path : string) (quality : Q) (e : string) (st : Stores) :
  Raises uid step_path quality e → ∃ st1, body uid step_path quality st = (Raise e, st1).
Proof.
  intros HR. destruct HR as [Hl | shape Hl He | shape a c f Hl Ha Hc Hf Hg
                            | shape a c f holes Hl Ha Hc Hf Hg Hm]; unfold_job.
  - rewrite Hl. eauto.
  - rewrite Hl. cbn -[pretty String.append].
    destruct He as [Ha | (a & Ha & [Hc | (c & Hc & Hf)])].
    + rewrite Ha. eauto.
    + rewrite Ha. cbn. rewrite Hc. eauto.
    + rewrite Ha. cbn. rewrite Hc. cbn. rewrite Hf. eauto.
  - rewrite Hl. cbn. rewrite Ha. cbn. rewrite Hc. cbn. rewrite Hf. cbn.
    rewrite Hg. eauto.
  - rewrite Hl. cbn. rewrite Ha. cbn. rewrite Hc. cbn. rewrite Hf. cbn.
    rewrite Hg. cbn -[pretty String.append].
    destruct Hm as [Hm | (v & vs & t & ts & Hm & [Hd | [Hd Hh]])].
    + rewrite Hm. eauto.
    + rewrite Hm. cbn -[pretty String.append]. fold (join WEB_ROOT). rewrite Hd. eauto.
    + rewrite Hm. cbn -[pretty String.append]. fold (join WEB_ROOT). rewrite Hd.
      cbn -[pretty String.append]. rewrite Hh. eauto.
Qed.

(** Conversely, the [try] block raises only what one of its calls raises. *)
Lemma body_raises (uid step_path : string) (quality : Q) (e : string) (st st1 : Stores) :
  body uid step_path quality st = (Raise e, st1) → Raises uid step_path quality e.
Proof.
  unfold_job.
  destruct (load_step_shape step_path) as [shape|] eqn:Hl; cbn -[pretty String.append];
    [|intros [= -> _]; by apply raises_load].
  destruct (extract_analytic_circular_edges shape) as [a|] eqn:Ha;
    cbn -[pretty String.append];
    [|intros [= -> _]; apply (raises_extract _ _ _ _ _ _ _ _ _ _ _ _ _ _ shape Hl); by left].
  destruct (extract_cylindrical_faces shape) as [c|] eqn:Hc; cbn -[pretty String.append];
    [|intros [= -> _]; apply (raises_extract _ _ _ _ _ _ _ _ _ _ _ _ _ _ shape Hl);
      right; exists a; split; [done|by left]].
  destruct (extract_fitted_circles_from_edges shape) as [f|] eqn:Hf;
    cbn -[pretty String.append];
    [|intros [= -> _]; apply (raises_extract _ _ _ _ _ _ _ _ _ _ _ _ _ _ shape Hl);
      right; exists a; split; [done|right; exists c; by split]].
  destruct (combine_and_group (a ++ c ++ f)) as [holes|] eqn:Hg;
    cbn -[pretty String.append];
    [|intros [= -> _]; by apply (raises_cluster _ _ _ _ _ _ _ _ _ _ _ _ _ _ shape a c f)].
  destruct (extract_mesh_from_shape shape quality) as [[vertices faces]|] eqn:Hm;
    cbn -[pretty String.append];
    [|intros [= -> _];
      apply (raises_mesh _ _ _ _ _ _ _ _ _ _ _ _ _ _ shape a c f holes); auto].
  destruct vertices as [|v vertices]; [|destruct faces as [|t faces]];
    cbn -[pretty String.append]; try discriminate.
  fold (join WEB_ROOT).
  destruct (dump_mesh _ _) as [[]|] eqn:Hd; cbn -[pretty String.append].
  - destruct (dump_holes _ _) as [[]|] eqn:Hh; cbn -[pretty String.append];
      [discriminate|].
    intros [= -> _].
    apply (raises_mesh _ _ _ _ _ _ _ _ _ _ _ _ _ _ shape a c f holes); auto.
    right. exists v, vertices, t, faces. split; [done|]. right. by split.
  - intros [= -> _].
    apply (raises_mesh _ _ _ _ _ _ _ _ _ _ _ _ _ _ shape a c f holes); auto.
    right. exists v, vertices, t, faces. split; [done|]. by left.
Qed.

(** When the [try] block ends normally it has set the percentage to 100. *)
Lemma body_done (uid step_path : string) (quality : Q) (st st1 : Stores) :
  body uid step_path quality st = (Ok tt, st1) →
  ∃ s, PROGRESS st1 !! Some uid = Some (mkProgress 100 s).
Proof.
  unfold_job.
  destruct (load_step_shape step_path) as [shape|]; cbn -[pretty String.append];
    [|discriminate].
  destruct (extract_analytic_circular_edges shape) as [a|]; cbn -[pretty String.append];
    [|discriminate].
  destruct (extract_cylindrical_faces shape) as [c|]; cbn -[pretty String.append];
    [|discriminate].
  destruct (extract_fitted_circles_from_edges shape) as [f|]; cbn -[pretty String.append];
    [|discriminate].
  destruct (combine_and_group (a ++ c ++ f)) as [holes|]; cbn -[pretty String.append];
    [|discriminate].
  destruct (extract_mesh_from_shape shape quality) as [[vertices faces]|];
    cbn -[pretty String.append]; [|discriminate].
  destruct vertices as [|v vertices]; [|destruct faces as [|t faces]];
    cbn -[pretty String.append].
  - intros [= <-]. cbn. rewrite lookup_insert_eq. eauto.
  - intros [= <-]. cbn. rewrite lookup_insert_eq. eauto.
  - repeat run_step; try discriminate.
    intros [= <-]. cbn -[pretty String.append]. rewrite lookup_insert_eq. eauto.
Qed.

(** When the [try] block ends normally its last status is one of the two
    success messages. *)
Lemma body_done_status (uid step_path : string) (quality : Q) (st st1 : Stores) :
  body uid step_path quality st = (Ok tt, st1) →
  ∃ s, PROGRESS st1 !! Some uid = Some (mkProgress 100 s)
    ∧ (s = "No mesh produced"
       ∨ ∃ n : nat, s = "Done - " +:+ pretty n +:+ " holes detected").
Proof.
  unfold_job.
  destruct (load_step_shape step_path) as [shape|]; cbn -[pretty String.append];
    [|discriminate].
  destruct (extract_analytic_circular_edges shape) as [a|]; cbn -[pretty String.append];
    [|discriminate].
  destruct (extract_cylindrical_faces shape) as [c|]; cbn -[pretty String.append];
    [|discriminate].
  destruct (extract_fitted_circles_from_edges shape) as [f|]; cbn -[pretty String.append];
    [|discriminate].
  destruct (combine_and_group (a ++ c ++ f)) as [holes|]; cbn -[pretty String.append];
    [|discriminate].
  destruct (extract_mesh_from_shape shape quality) as [[vertices faces]|];
    cbn -[pretty String.append]; [|discriminate].
  destruct vertices as [|v vertices]; [|destruct faces as [|t faces]];
    cbn -[pretty String.append].
  - intros [= <-]. cbn. rewrite lookup_insert_eq. eauto.
  - intros [= <-]. cbn. rewrite lookup_insert_eq. eauto.
  - repeat run_step; try discriminate.
    intros [= <-]. cbn -[pretty String.append]. rewrite lookup_insert_eq. eauto.
Qed.

(** Whatever the callees are: the worker returns, it ends with the
    percentage at 100, and an exception raised by a call of the [try] block
    ends in the state the [except] block writes. *)
Lemma job_boundary (uid step_path : string) (quality : Q) (st : Stores) :
  let r := process_step_file_async Shape load_step_shape
             extract_analytic_circular_edges extract_cylindrical_faces
             extract_fitted_circles_from_edges combine_and_group
             extract_mesh_from_shape dump_mesh dump_holes WEB_ROOT
             uid step_path quality st in
  fst r = Ok tt
  ∧ (∃ s, PROGRESS (snd r) !! Some uid = Some (mkProgress 100 s))
  ∧ (∀ e, Raises uid step_path quality e →
       PROGRESS (snd r) !! Some uid = Some (mkProgress 100 ("Error: " +:+ e))
       ∧ HOLE_DATA (snd r) !! Some uid = Some []
       ∧ MESH_FILES (snd r) !! Some uid = Some None
       ∧ SELECTED_HOLES (snd r) !! Some uid = Some ∅).
Proof.
  intros r. subst r. unfold process_step_file_async. fold body.
  unfold try_except.
  split; [|split].
  - destruct (body uid step_path quality st) as [[[]|e] st1] eqn:Hb; done.
  - destruct (body uid step_path quality st) as [[[]|e] st1] eqn:Hb.
    + cbn [snd]. by apply (body_done uid step_path quality st).
    + unfold on_error, mbind, M_bind, bind, set_PROGRESS, set_MESH_FILES,
        set_HOLE_DATA, set_SELECTED_HOLES. cbn -[String.append].
      rewrite lookup_insert_eq. eauto.
  - intros e HR. destruct (raises_body uid step_path quality e st HR) as [st1 Hb].
    rewrite Hb.
    unfold on_error, mbind, M_bind, bind, set_PROGRESS, set_MESH_FILES,
      set_HOLE_DATA, set_SELECTED_HOLES. cbn -[String.append].
    by rewrite !lookup_insert_eq.
Qed.

End JobFacts.

(** ** The job as the server runs it *)

Section AppFacts.

Variable np_sqrt : Q → Q.
Variable fit_circle_3d : list Vec3 → nat → result (option Extractors.Fit).
Variable reader : Step.Reader.
Variable dump_mesh : string → list Vec3 * list (nat * nat * nat) → result unit.
Variable dump_holes : string → list Hole → result unit.
Variable WEB_ROOT : string.

Let job := App.process_step_file_async np_sqrt fit_circle_3d reader dump_mesh dump_holes
             WEB_ROOT.
Let Fails := App.fails np_sqrt fit_circle_3d reader dump_mesh dump_holes WEB_ROOT.
Let detected := App.detected np_sqrt fit_circle_3d.

(** What reaches the [except] block in the job as the server runs it is
    raised by one of the calls of the [try] block. *)
Lemma fails_raises (uid step_path : string) (quality : Q) (e : string) :
  Fails uid step_path quality e →
  Pipeline.raises Step.Shape (Step.load_step_shape reader)
    (fun shape =>
       Step.on_elements Extractors.extract_analytic_circular_edges (Step.edges shape))
    (fun shape =>
       Step.on_elements Extractors.extract_cylindrical_faces (Step.faces shape))
    (fun shape =>
       Step.on_elements (Extractors.extract_fitted_circles_from_edges fit_circle_3d)
                        (Step.edges shape))
    (fun all_circles => Ok (Extraction.combine_and_group np_sqrt all_circles))
    (fun shape quality => Ok (Mesh.extract_mesh_from_shape (Step.triangulation shape quality)))
    dump_mesh dump_holes WEB_ROOT uid step_path quality e.
Proof.
  intros [Hl | shape Hl He | shape es fs v vs f faces Hl He Hf Hm Hd].
  - by apply Pipeline.raises_load.
  - apply (Pipeline.raises_extract _ _ _ _ _ _ _ _ _ _ _ _ _ _ shape Hl).
    destruct He as [He | (es & He & Hf)].
    + left. by rewrite He.
    + right. eexists. rewrite He. split; [reflexivity|]. left. by rewrite Hf.
  - eapply (Pipeline.raises_mesh _ _ _ _ _ _ _ _ _ _ _ _ _ _ shape); try done.
    + by rewrite He.
    + by rewrite Hf.
    + by rewrite He.
    + right. exists v, vs, f, faces. rewrite Hm. split; [done|]. exact Hd.
Qed.

(** Conversely, the clusterer and the mesh extractor of the program never
    raise, so nothing else reaches the [except] block. *)
Lemma raises_fails (uid step_path : string) (quality : Q) (e : string) :
  Pipeline.raises Step.Shape (Step.load_step_shape reader)
    (fun shape =>
       Step.on_elements Extractors.extract_analytic_circular_edges (Step.edges shape))
    (fun shape =>
       Step.on_elements Extractors.extract_cylindrical_faces (Step.faces shape))
    (fun shape =>
       Step.on_elements (Extractors.extract_fitted_circles_from_edges fit_circle_3d)
                        (Step.edges shape))
    (fun all_circles => Ok (Extraction.combine_and_group np_sqrt all_circles))
    (fun shape quality => Ok (Mesh.extract_mesh_from_shape (Step.triangulation shape quality)))
    dump_mesh dump_holes WEB_ROOT uid step_path quality e →
  Fails uid step_path quality e.
Proof.
  intros [Hl | shape Hl He | shape a c f Hl Ha Hc Hf Hg
         | shape a c f holes Hl Ha Hc Hf Hg Hm].
  - by apply App.fails_load.
  - apply (App.fails_explore _ _ _ _ _ _ _ _ _ _ shape Hl).
    destruct (Step.edges shape) as [es|] eqn:Hes; simpl in He.
    + right. exists es. split; [done|].
      destruct (Step.faces shape) as [fs|]; simpl in He.
      * destruct He as [?|(? & _ & [?|(? & _ & ?)])]; done.
      * destruct He as [?|(? & _ & [H|(? & H & _)])]; [done|by injection H as ->|done].
    + left. destruct He as [H|(? & H & _)]; [by injection H as ->|done].
  - done.
  - destruct (Step.edges shape) as [es|] eqn:Hes; simpl in Ha, Hf; [|done].
    destruct (Step.faces shape) as [fs|] eqn:Hfs; simpl in Hc; [|done].
    injection Ha as <-. injection Hc as <-. injection Hf as <-. injection Hg as <-.
    destruct Hm as [Hm | (v & vs & t & ts & Hm & Hd)]; [done|].
    injection Hm as Hm.
    by apply (App.fails_save _ _ _ _ _ _ _ _ _ _ shape es fs v vs t ts).
Qed.

(** A failure of the mesher stays inside the mesh extractor. *)
Lemma mesh_failure_absorbed (uid step_path : string) (quality : Q) (st : Stores)
    (shape : Step.Shape) (es : list Extractors.EdgeElement)
    (fs : list Extractors.FaceElement) :
  Step.load_step_shape reader step_path = Ok shape →
  Step.edges shape = Ok es → Step.faces shape = Ok fs →
  fst (Mesh.extract_mesh_from_shape (Step.triangulation shape quality)) = []
  ∨ snd (Mesh.extract_mesh_from_shape (Step.triangulation shape quality)) = [] →
  let r := job uid step_path quality st in
  fst r = Ok tt
  ∧ PROGRESS (snd r) !! Some uid = Some (mkProgress 100 "No mesh produced")
  ∧ HOLE_DATA (snd r) !! Some uid = Some (detected es fs)
  ∧ MESH_FILES (snd r) !! Some uid = Some None
  ∧ SELECTED_HOLES (snd r) !! Some uid = Some ∅.
Proof.
  intros Hl He Hf Hm r. subst r.
  unfold job, App.process_step_file_async, Pipeline.process_step_file_async,
    Pipeline.try_except, Pipeline.job_body, mbind, Pipeline.M_bind, Pipeline.bind,
    Pipeline.call, Pipeline.set_PROGRESS, Pipeline.set_MESH_FILES,
    Pipeline.set_HOLE_DATA, Pipeline.set_SELECTED_HOLES.
  rewrite Hl, He, Hf. cbn -[pretty String.append Mesh.extract_mesh_from_shape
    Extraction.combine_and_group Extractors.extract_analytic_circular_edges
    Extractors.extract_cylindrical_faces Extractors.extract_fitted_circles_from_edges].
  destruct (Mesh.extract_mesh_from_shape _) as [vertices faces].
  cbn [fst snd] in Hm.
  assert (Hcase : vertices = [] ∨ (∃ v vs, vertices = v :: vs ∧ faces = [])).
  { destruct Hm as [->| ->]; [by left|]. destruct vertices; [by left|right; eauto]. }
  destruct Hcase as [-> | (v & vs & -> & ->)];
    cbn -[pretty String.append Extraction.combine_and_group
          Extractors.extract_analytic_circular_edges
          Extractors.extract_cylindrical_faces
          Extractors.extract_fitted_circles_from_edges];
    rewrite !lookup_insert_eq; done.
Qed.

(** C3, amended.  The worker never lets an exception escape and always
    ends with the percentage at 100.  An exception raised by the loader (an
    unreadable file included), by the edge or face explorer, or while the
    mesh and the holes are saved ends in the status ["Error: ..."] with an
    empty hole list, no mesh reference and an empty selection, and only
    these do.  A failure inside the mesh step does not: the mesh extractor
    catches it, and the job ends with ["No mesh produced"], no mesh
    reference, and the detected holes kept. *)
Theorem job_error_boundary (uid step_path : string) (quality : Q) (st : Stores) :
  let r := job uid step_path quality st in
  fst r = Ok tt
  ∧ (∃ s, PROGRESS (snd r) !! Some uid = Some (mkProgress 100 s))
  ∧ (∀ e, Fails uid step_path quality e →
       PROGRESS (snd r) !! Some uid = Some (mkProgress 100 ("Error: " +:+ e))
       ∧ HOLE_DATA (snd r) !! Some uid = Some []
       ∧ MESH_FILES (snd r) !! Some uid = Some None
       ∧ SELECTED_HOLES (snd r) !! Some uid = Some ∅)
  ∧ (∀ shape es fs msg,
       Step.load_step_shape reader step_path = Ok shape →
       Step.edges shape = Ok es → Step.faces shape = Ok fs →
       Step.triangulation shape quality = Raise msg →
       PROGRESS (snd r) !! Some uid = Some (mkProgress 100 "No mesh produced")
       ∧ HOLE_DATA (snd r) !! Some uid = Some (detected es fs)
       ∧ MESH_FILES (snd r) !! Some uid = Some None
       ∧ SELECTED_HOLES (snd r) !! Some uid = Some ∅)
  ∧ (∀ e, PROGRESS (snd r) !! Some uid = Some (mkProgress 100 ("Error: " +:+ e)) →
       Fails uid step_path quality e).
Proof.
  intros r.
  destruct (job_boundary Step.Shape (Step.load_step_shape reader)
    (fun shape =>
       Step.on_elements Extractors.extract_analytic_circular_edges (Step.edges shape))
    (fun shape =>
       Step.on_elements Extractors.extract_cylindrical_faces (Step.faces shape))
    (fun shape =>
       Step.on_elements (Extractors.extract_fitted_circles_from_edges fit_circle_3d)
                        (Step.edges shape))
    (fun all_circles => Ok (Extraction.combine_and_group np_sqrt all_circles))
    (fun shape quality => Ok (Mesh.extract_mesh_from_shape (Step.triangulation shape quality)))
    dump_mesh dump_holes WEB_ROOT uid step_path quality st) as (H1 & H2 & H3).
  split; [exact H1|]. split; [exact H2|]. split; [|split].
  - intros e He. apply H3. by apply fails_raises.
  - intros shape es fs msg Hl He Hf Hm.
    destruct (mesh_failure_absorbed uid step_path quality st shape es fs Hl He Hf)
      as (_ & H); [|exact H].
    left. by rewrite Hm.
  - intros e He. apply raises_fails. clear H1 H2 H3. revert He. subst r.
    unfold job, App.process_step_file_async, Pipeline.process_step_file_async,
      Pipeline.try_except.
    match goal with
    | |- context [match ?b with (_, _) => _ end] => destruct b as [[[]|e1] st1] eqn:Hb
    end.
    + apply body_done_status in Hb as (s & Hs & Hform). cbn [snd]. rewrite Hs.
      intros [= ->]. destruct Hform as [H|[n H]]; discriminate H.
    + unfold Pipeline.on_error, mbind, Pipeline.M_bind, Pipeline.bind,
        Pipeline.set_PROGRESS, Pipeline.set_MESH_FILES, Pipeline.set_HOLE_DATA,
        Pipeline.set_SELECTED_HOLES. cbn -[String.append].
      rewrite lookup_insert_eq. intros He. simplify_eq/=.
      eapply body_raises. exact Hb.
Qed.

End AppFacts.

(** C3 as stated fails for the mesh step: a shape with one circular edge
    whose triangulation raises ends with the status ["No mesh produced"]
    and keeps its hole, not in the error state. *)
Lemma job_error_boundary_counterexample :
  let unsampled := Utils.mkEdge (Raise "no curve") (Raise "no mesh") (Raise "no location")
                                (Raise "no polygon") in
  let circle := Extractors.mkGeometry (mkVec3 10 20 5) (mkVec3 0 0 1) 6 in
  let edge := Extractors.mkEdgeElement (Ok Extractors.GeomAbs_Circle) (Ok circle) unsampled in
  let shape := Step.mkShape (Ok [edge]) (Ok []) (fun _ => Raise "triangulation failed") in
  let r := App.process_step_file_async sqrt_floor (fun _ _ => Ok None)
             (fun _ => Ok (1%Z, Ok shape)) (fun _ _ => Ok tt) (fun _ _ => Ok tt)
             "output" "job" "part.step" (3 # 2) empty_stores in
  Step.triangulation shape (3 # 2) = Raise "triangulation failed"
  ∧ fst r = Ok tt
  ∧ PROGRESS (snd r) !! Some "job" = Some (mkProgress 100 "No mesh produced")
  ∧ (List.map (fun h => (id h, num_circles h)) <$> HOLE_DATA (snd r) !! Some "job")
    = Some [(1%Z, 1%nat)]
  ∧ MESH_FILES (snd r) !! Some "job" = Some None
  ∧ ¬ Claimed.error_state "job" (snd r).
Proof.
  intros unsampled circle edge shape r.
  split; [reflexivity|]. split; [reflexivity|]. split; [vm_compute; reflexivity|].
  split; [vm_compute; reflexivity|]. split; [vm_compute; reflexivity|].
  intros (_ & H & _). vm_compute in H. discriminate H.
Qed.

Lemma job_error_boundary_witness :
  let unsampled := Utils.mkEdge (Raise "no curve") (Raise "no mesh") (Raise "no location")
                                (Raise "no polygon") in
  let circle := Extractors.mkGeometry (mkVec3 10 20 5) (mkVec3 0 0 1) 6 in
  let edge := Extractors.mkEdgeElement (Ok Extractors.GeomAbs_Circle) (Ok circle) unsampled in
  let shape := Step.mkShape (Ok [edge]) (Ok []) (fun _ => Raise "triangulation failed") in
  let unreadable : Step.Reader := fun _ => Ok (0%Z, Ok shape) in
  let readable : Step.Reader := fun _ => Ok (1%Z, Ok shape) in
  let job := fun reader =>
    App.process_step_file_async sqrt_floor (fun _ _ => Ok None) reader
      (fun _ _ => Ok tt) (fun _ _ => Ok tt) "output" "job" "part.step" (3 # 2)
      empty_stores in
  (PROGRESS (snd (job unreadable)) !! Some "job"
     = Some (mkProgress 100 "Error: Failed to read STEP file")
   ∧ HOLE_DATA (snd (job unreadable)) !! Some "job" = Some []
   ∧ MESH_FILES (snd (job unreadable)) !! Some "job" = Some None
   ∧ SELECTED_HOLES (snd (job unreadable)) !! Some "job" = Some ∅)
  ∧ (PROGRESS (snd (job readable)) !! Some "job" = Some (mkProgress 100 "No mesh produced")
     ∧ HOLE_DATA (snd (job readable)) !! Some "job"
       = Some (App.detected sqrt_floor (fun _ _ => Ok None) [edge] [])
     ∧ MESH_FILES (snd (job readable)) !! Some "job" = Some None
     ∧ SELECTED_HOLES (snd (job readable)) !! Some "job" = Some ∅).
Proof.
  intros unsampled circle edge shape unreadable readable job. split.
  - destruct (job_error_boundary sqrt_floor (fun _ _ => Ok None) unreadable
                (fun _ _ => Ok tt) (fun _ _ => Ok tt) "output" "job" "part.step" (3 # 2)
                empty_stores) as (_ & _ & H & _).
    apply (H "Failed to read STEP file"). apply App.fails_load. reflexivity.
  - destruct (job_error_boundary sqrt_floor (fun _ _ => Ok None) readable
                (fun _ _ => Ok tt) (fun _ _ => Ok tt) "output" "job" "part.step" (3 # 2)
                empty_stores) as (_ & _ & _ & H & _).
    apply (H shape [edge] [] "triangulation failed"); reflexivity.
Defined.

(** ** Sorting *)

Section SortFacts.
Context {A : Type} (before : A → A → bool).

Lemma insert_by_perm (x : A) (l : list A) : Lib.insert_by before x l ≡ₚ x :: l.
Proof.
  induction l as [|y l IH]; simpl; [done|].
  destruct (before y x); [|done].
  rewrite IH. apply Permutation_swap.
Qed.

Lemma sort_by_perm (l : list A) : Lib.sort_by before l ≡ₚ l.
Proof.
  induction l as [|x l IH]; simpl; [done|].
  by rewrite insert_by_perm, IH.
Qed.

Lemma sort_by_length (l : list A) : length (Lib.sort_by before l) = length l.
Proof. by rewrite sort_by_perm. Qed.

Lemma elem_of_sort_by (l : list A) (x : A) : x ∈ Lib.sort_by before l ↔ x ∈ l.
Proof. by rewrite sort_by_perm. Qed.

Lemma sort_by_singleton (x : A) : Lib.sort_by before [x] = [x].
Proof. reflexivity. Qed.

Variable R : A → A → Prop.
Hypothesis R_trans : ∀ x y z, R x y → R y z → R x z.
Hypothesis before_R : ∀ x y, before y x = true → R y x.

Lemma insert_by_sorted (x : A) (s : list A) :
  StronglySorted R s →
  (∀ y, y ∈ s → before y x = false → R x y) →
  StronglySorted R (Lib.insert_by before x s).
Proof.
  induction s as [|y s IH]; intros Hs Hx; simpl.
  - repeat constructor.
  - apply StronglySorted_inv in Hs as [Hs Hy].
    destruct (before y x) eqn:Hb.
    + constructor.
      * apply IH; [done|]. intros z Hz. apply Hx. by right.
      * rewrite insert_by_perm. constructor; [by apply before_R|done].
    + assert (Rxy : R x y) by (apply Hx; [left|done]).
      constructor; [by constructor|].
      constructor; [done|].
      eapply Forall_impl; [exact Hy|]. intros z Hz. by eapply R_trans.
Qed.

(** A list in which every element is related to each later one that does
    not come strictly before it is sorted by [sort_by]. *)
Lemma sort_by_sorted (l : list A) :
  StronglySorted (fun x y => before y x = false → R x y) l →
  StronglySorted R (Lib.sort_by before l).
Proof.
  induction l as [|x l IH]; intros Hl; simpl; [constructor|].
  apply StronglySorted_inv in Hl as [Hl Hx].
  apply insert_by_sorted; [by apply IH|].
  intros y Hy. rewrite elem_of_sort_by in Hy.
  rewrite Forall_forall in Hx. by apply Hx.
Qed.

End SortFacts.

Lemma StronglySorted_sublist {A} (R : A → A → Prop) (l1 l2 : list A) :
  l1 `sublist_of` l2 → StronglySorted R l2 → StronglySorted R l1.
Proof.
  induction 1 as [|x l1 l2 Hsub IH|x l1 l2 Hsub IH]; intros Hs; [done| |].
  - apply StronglySorted_inv in Hs as [Hs Hx]. constructor; [by apply IH|].
    rewrite Forall_forall in *. intros y Hy. apply Hx.
    by eapply elem_of_sublist.
  - apply StronglySorted_inv in Hs as [Hs _]. by apply IH.
Qed.

Lemma StronglySorted_impl {A} (R1 R2 : A → A → Prop) (l : list A) :
  (∀ x y, R1 x y → R2 x y) → StronglySorted R1 l → StronglySorted R2 l.
Proof.
  intros H. induction 1 as [|x l Hs IH Hx]; constructor; [done|].
  eapply Forall_impl; [exact Hx|]. intros y. apply H.
Qed.

Lemma filter_sublist {A} (f : A → bool) (l : list A) : List.filter f l `sublist_of` l.
Proof.
  induction l as [|x l IH]; simpl; [done|].
  destruct (f x); by constructor.
Qed.

Lemma elem_of_filter_bool {A} (f : A → bool) (l : list A) (x : A) :
  x ∈ List.filter f l ↔ x ∈ l ∧ f x = true.
Proof. by rewrite !list_elem_of_In, filter_In. Qed.

(** ** Aggregator *)

Section AggregatorFacts.
Import Extraction Config.
Local Open Scope Q_scope.

Variable np_sqrt : Q → Q.

Lemma in_window_spec (c : Circle.t) :
  in_window c = true ↔ RADIUS_MIN <= Circle.radius c ∧ Circle.radius c <= RADIUS_MAX.
Proof. unfold in_window. by rewrite andb_true_iff, !py_leb_true. Qed.

Lemma elem_of_group_of (labels : list nat) (fl : list Circle.t) (lbl : nat) (x : Circle.t) :
  x ∈ group_of labels fl lbl → x ∈ fl.
Proof.
  unfold group_of. rewrite list_elem_of_In, in_map_iff.
  intros ([l y] & <- & Hin). apply filter_In in Hin as [Hin _].
  apply in_combine_r in Hin. by apply list_elem_of_In.
Qed.

Lemma groups_members (cs g : list Circle.t) (x : Circle.t) :
  g ∈ groups cs → x ∈ g → x ∈ cs ∧ in_window x = true.
Proof.
  unfold groups. rewrite list_elem_of_In, in_map_iff.
  intros (lbl & <- & _) Hx. apply elem_of_group_of in Hx.
  unfold filtered in Hx. by apply elem_of_filter_bool in Hx.
Qed.

Lemma filtered_drop (c : Circle.t) (l1 l2 : list Circle.t) :
  in_window c = false → filtered (l1 ++ c :: l2) = filtered (l1 ++ l2).
Proof.
  intros Hc. unfold filtered. rewrite !List.filter_app. simpl. by rewrite Hc.
Qed.

Lemma hole_of_group_spec (g : list Circle.t) (n : nat) (h : Hole) :
  hole_of_group np_sqrt g n = Some h →
  id h = (Z.of_nat n + 1)%Z
  ∧ MIN_VERTICAL_ALIGNMENT <= vertical_alignment h
  ∧ 0 <= score h ∧ score h <= 100.
Proof.
  unfold hole_of_group.
  destruct (Py.ltb _ MIN_VERTICAL_ALIGNMENT) eqn:Hlt; [done|].
  intros [= <-]. cbn [id vertical_alignment score].
  apply py_ltb_false in Hlt.
  split; [done|]. split; [done|].
  unfold calculate_hole_score. apply py_clamp_bounds.
Qed.

(** The loop that builds [holes], started from any list. *)
Let loop (gs : list (list Circle.t)) (acc : list Hole) : list Hole :=
  fold_left (fun holes group =>
               match hole_of_group np_sqrt group (length holes) with
               | Some h => holes ++ [h]
               | None => holes
               end) gs acc.

Lemma loop_origin (gs : list (list Circle.t)) (acc : list Hole) (h : Hole) :
  h ∈ loop gs acc →
  h ∈ acc ∨ ∃ g n, g ∈ gs ∧ hole_of_group np_sqrt g n = Some h.
Proof.
  revert acc. induction gs as [|g gs IH]; intros acc; simpl; [by left|].
  intros Hin. apply IH in Hin as [Hin | (g' & n & Hg' & Hh)].
  - destruct (hole_of_group np_sqrt g (length acc)) as [h'|] eqn:Hg; [|by left].
    apply elem_of_app in Hin as [Hin | Hin]; [by left|].
    apply list_elem_of_singleton in Hin as ->.
    right. exists g, (length acc). split; [left|done].
  - right. exists g', n. split; [by right|done].
Qed.

Lemma loop_ids (gs : list (list Circle.t)) (acc : list Hole) :
  List.map id acc = List.map Z.of_nat (seq 1 (length acc)) →
  List.map id (loop gs acc) = List.map Z.of_nat (seq 1 (length (loop gs acc))).
Proof.
  revert acc. induction gs as [|g gs IH]; intros acc Hacc; simpl; [done|].
  apply IH.
  destruct (hole_of_group np_sqrt g (length acc)) as [h|] eqn:Hg; [|done].
  apply hole_of_group_spec in Hg as (Hid & _).
  rewrite length_app, Nat.add_1_r, seq_S, !map_app, Hacc. simpl.
  rewrite Hid. do 2 f_equal. lia.
Qed.

Lemma discovered_origin (cs : list Circle.t) (h : Hole) :
  h ∈ discovered np_sqrt cs →
  ∃ g n, g ∈ groups cs ∧ hole_of_group np_sqrt g n = Some h.
Proof.
  intros Hin. apply loop_origin in Hin as [Hin|Hin]; [|done].
  by apply not_elem_of_nil in Hin.
Qed.

Lemma discovered_ids (cs : list Circle.t) :
  List.map id (discovered np_sqrt cs)
  = List.map Z.of_nat (seq 1 (length (discovered np_sqrt cs))).
Proof. by apply (loop_ids (groups cs) []). Qed.

(** Ids grow along a list numbered [1..n]. *)
Lemma numbered_increasing (l : list Hole) (k : nat) :
  List.map id l = List.map Z.of_nat (seq k (length l)) →
  StronglySorted (fun h1 h2 => (id h1 < id h2)%Z) l.
Proof.
  revert k. induction l as [|h l IH]; intros k; simpl; [constructor|].
  intros [= Hh Hl]. constructor; [by apply (IH (S k))|].
  apply Forall_forall. intros h' Hin.
  assert (Hin' : id h' ∈ List.map Z.of_nat (seq (S k) (length l))).
  { rewrite <- Hl. apply list_elem_of_In, in_map. by apply list_elem_of_In. }
  apply list_elem_of_In, in_map_iff in Hin' as (j & Hj & Hjin).
  apply in_seq in Hjin. lia.
Qed.

Lemma renumber_lookup (l : list Hole) (i : nat) :
  renumber l !! i = set_id (Z.of_nat (S i)) <$> l !! i.
Proof.
  unfold renumber.
  destruct (l !! i) as [h|] eqn:Hi; simpl.
  - change (List.map ?f ?l) with (f <$> l). rewrite list_lookup_fmap.
    by rewrite (enumerate_lookup l 1 i h Hi).
  - apply lookup_ge_None. apply lookup_ge_None in Hi.
    by rewrite length_map, enumerate_length.
Qed.

Lemma renumber_length (l : list Hole) : length (renumber l) = length l.
Proof. unfold renumber. by rewrite length_map, enumerate_length. Qed.

Lemma renumber_ids (l : list Hole) :
  List.map id (renumber l) = List.map Z.of_nat (seq 1 (length l)).
Proof.
  apply list_eq. intros i.
  change (List.map ?f ?l) with (f <$> l). rewrite !list_lookup_fmap, renumber_lookup.
  destruct (l !! i) as [h|] eqn:Hi; simpl.
  - rewrite lookup_seq_lt by (by eapply lookup_lt_Some). done.
  - rewrite lookup_seq_ge by (by apply lookup_ge_None). done.
Qed.

Lemma groups_of_nothing (cs : list Circle.t) : filtered cs = [] → groups cs = [].
Proof. unfold groups. by intros ->. Qed.

Lemma combine_and_group_unfold (cs : list Circle.t) :
  combine_and_group np_sqrt cs = renumber (ranked np_sqrt cs).
Proof.
  unfold combine_and_group.
  destruct cs as [|c cs]; [done|].
  destruct (filtered (c :: cs)) eqn:Hf; [|done].
  unfold ranked, discovered. by rewrite (groups_of_nothing _ Hf).
Qed.

Lemma elem_of_renumber (l : list Hole) (h : Hole) :
  h ∈ renumber l → ∃ h0, h0 ∈ l ∧ h = set_id (id h) h0.
Proof.
  intros Hin. apply list_elem_of_lookup in Hin as [i Hi].
  rewrite renumber_lookup in Hi.
  destruct (l !! i) as [h0|] eqn:Hl; simpl in Hi; [|done].
  injection Hi as <-. exists h0. split; [|done].
  apply list_elem_of_lookup. eauto.
Qed.

Lemma renumber_sorted (R : Hole → Hole → Prop) (l : list Hole) :
  (∀ h1 h2 i j, R h1 h2 → R (set_id i h1) (set_id j h2)) →
  StronglySorted R l → StronglySorted R (renumber l).
Proof.
  intros HR. unfold renumber. generalize 1%nat.
  induction l as [|h l IH]; intros k Hs; simpl; [constructor|].
  apply StronglySorted_inv in Hs as [Hs Hh].
  constructor; [by apply IH|].
  apply Forall_forall. intros h' Hin.
  apply list_elem_of_In, in_map_iff in Hin as ([j h0] & <- & Hin).
  simpl. apply HR. rewrite Forall_forall in Hh. apply Hh.
  clear -Hin. revert Hin. generalize (S k).
  induction l as [|a l IH]; intros n; simpl; [done|].
  intros [[= _ <-]|Hin]; [left|right; by eapply IH].
Qed.

Lemma ranked_sublist (cs : list Circle.t) :
  ranked np_sqrt cs `sublist_of` Lib.sort_desc score (discovered np_sqrt cs).
Proof.
  unfold ranked. etrans; [apply sublist_take|apply filter_sublist].
Qed.

Lemma elem_of_ranked (cs : list Circle.t) (h : Hole) :
  h ∈ ranked np_sqrt cs →
  h ∈ discovered np_sqrt cs ∧ MIN_SCORE_THRESHOLD <= score h.
Proof.
  unfold ranked. intros Hin.
  pose proof (elem_of_sublist _ _ _ Hin (sublist_take _ _)) as Hin'.
  apply elem_of_filter_bool in Hin' as [Hin' Hs].
  apply py_leb_true in Hs. unfold Lib.sort_desc in Hin'.
  by rewrite elem_of_sort_by in Hin'.
Qed.

Lemma ranked_sorted (cs : list Circle.t) :
  StronglySorted before_in_rank (ranked np_sqrt cs).
Proof.
  eapply StronglySorted_sublist; [apply ranked_sublist|].
  unfold Lib.sort_desc. apply sort_by_sorted.
  - unfold before_in_rank. intros x y z [H1|[H1 H1']] [H2|[H2 H2']].
    + left. lra.
    + left. lra.
    + left. lra.
    + right. split; [lra|lia].
  - intros x y Hb. apply py_ltb_true in Hb. by left.
  - eapply StronglySorted_impl; [|apply (numbered_increasing _ 1), discovered_ids].
    intros x y Hid Hb. apply py_ltb_false in Hb. unfold before_in_rank.
    destruct (Qlt_le_dec (score y) (score x)); [by left|].
    right. split; [lra|done].
Qed.

(** C2.  For any candidates the returned holes all have an alignment of
    at least [MIN_VERTICAL_ALIGNMENT] and a score of at least
    [MIN_SCORE_THRESHOLD]; there are at most [MAX_CANDIDATES] of them; their
    ids are 1, 2, ..., N in list order; scores never increase along the list;
    and the list is [ranked], renumbered, in which holes of equal score stand
    in the order their clusters were discovered ([discovered] numbers its
    holes 1, 2, ... in that order). *)
Theorem aggregate_invariants (cs : list Circle.t) :
  let hs := combine_and_group np_sqrt cs in
  Forall (fun h => MIN_VERTICAL_ALIGNMENT <= vertical_alignment h
                   ∧ MIN_SCORE_THRESHOLD <= score h) hs
  ∧ (length hs ≤ MAX_CANDIDATES)%nat
  ∧ List.map id hs = List.map Z.of_nat (seq 1 (length hs))
  ∧ StronglySorted (fun h1 h2 => score h2 <= score h1) hs
  ∧ ∃ rk : list Hole,
      hs = renumber rk
      ∧ (∀ h, h ∈ rk → h ∈ discovered np_sqrt cs)
      ∧ List.map id (discovered np_sqrt cs)
          = List.map Z.of_nat (seq 1 (length (discovered np_sqrt cs)))
      ∧ StronglySorted (fun h1 h2 => score h1 == score h2 → (id h1 < id h2)%Z) rk.
Proof.
  intros hs. subst hs. rewrite combine_and_group_unfold.
  pose proof (ranked_sorted cs) as Hsorted.
  split; [|split; [|split; [|split]]].
  - apply Forall_forall. intros h Hin.
    apply elem_of_renumber in Hin as (h0 & Hin & ->).
    apply elem_of_ranked in Hin as [Hd Hs].
    apply discovered_origin in Hd as (g & n & _ & Hg).
    apply hole_of_group_spec in Hg as (_ & Ha & _). by destruct h0.
  - rewrite renumber_length. unfold ranked. rewrite length_take. lia.
  - rewrite renumber_length. apply renumber_ids.
  - apply renumber_sorted; [by intros [] []|].
    eapply StronglySorted_impl; [|exact Hsorted].
    unfold before_in_rank. intros x y [H|[H _]]; lra.
  - exists (ranked np_sqrt cs). split; [done|]. split; [|split].
    + intros h Hin. by apply elem_of_ranked in Hin as [Hd _].
    + apply discovered_ids.
    + eapply StronglySorted_impl; [|exact Hsorted].
      unfold before_in_rank. intros x y [H|[_ H]] Heq; [lra|done].
Qed.

(** C7.  A candidate whose radius lies outside the window supports no hole:
    every returned hole is built from one group, every member of a group is
    an input candidate inside the window, so the candidate is in no group,
    and the groups and the returned holes are those of the input without
    it. *)
Theorem out_of_window_excluded (c : Circle.t) (l1 l2 : list Circle.t) :
  Circle.radius c < RADIUS_MIN ∨ RADIUS_MAX < Circle.radius c →
  let cs := l1 ++ c :: l2 in
  (∀ h, h ∈ combine_and_group np_sqrt cs →
     ∃ g n h0, g ∈ groups cs
       ∧ hole_of_group np_sqrt g n = Some h0 ∧ h = set_id (id h) h0
       ∧ (c ∉ g)
       ∧ (∀ x, x ∈ g → x ∈ cs
            ∧ RADIUS_MIN <= Circle.radius x ∧ Circle.radius x <= RADIUS_MAX))
  ∧ (∀ g, g ∈ groups cs → c ∉ g)
  ∧ groups cs = groups (l1 ++ l2)
  ∧ combine_and_group np_sqrt cs = combine_and_group np_sqrt (l1 ++ l2).
Proof.
  intros Hout cs.
  assert (Hc : in_window c = false).
  { apply not_true_is_false. rewrite in_window_spec. lra. }
  assert (Hno : ∀ g, g ∈ groups cs → c ∉ g).
  { intros g Hg Hin. destruct (groups_members cs g c Hg Hin) as [_ Hw]. congruence. }
  assert (Hgroups : groups cs = groups (l1 ++ l2)).
  { unfold groups, cs. by rewrite (filtered_drop c l1 l2 Hc). }
  split; [|split; [done|split; [done|]]].
  - intros h Hin. rewrite combine_and_group_unfold in Hin.
    apply elem_of_renumber in Hin as (h0 & Hin & Hh).
    apply elem_of_ranked in Hin as [Hd _].
    apply discovered_origin in Hd as (g & n & Hg & Hh0).
    exists g, n, h0. split; [done|]. split; [done|]. split; [done|].
    split; [by apply Hno|].
    intros x Hx. destruct (groups_members cs g x Hg Hx) as [Hxin Hw].
    apply in_window_spec in Hw. by split.
  - rewrite !combine_and_group_unfold. unfold ranked, discovered.
    by rewrite Hgroups.
Qed.

End AggregatorFacts.

(** ** Two agreeing sources *)

Lemma sqrt_floor_upto : sqrt_upto (1 # 1000000000) sqrt_floor.
Proof.
  intros [n d] Hq. unfold sqrt_floor. cbn [Qnum Qden].
  assert (Hn : (0 <= n)%Z).
  { unfold Qle in Hq. simpl in Hq. lia. }
  set (S := (10 ^ 9)%positive).
  replace (10 ^ 18)%Z with (Z.pos S * Z.pos S)%Z by reflexivity.
  replace (1 # 1000000000) with (1 # S) by reflexivity.
  set (N := (n * Z.pos d * (Z.pos S * Z.pos S))%Z).
  assert (HN : (0 <= N)%Z) by (unfold N; nia).
  pose proof (Z.sqrt_spec N HN) as [Hlo Hhi].
  pose proof (Z.sqrt_nonneg N) as Hr.
  set (r := Z.sqrt N) in *.
  clearbody r. clearbody S.
  set (D := Z.pos d) in *. set (T := Z.pos S) in *.
  assert (HD : (1 <= D)%Z) by (unfold D; lia).
  assert (HT : (1 <= T)%Z) by (unfold T; lia).
  assert (HDT : (0 <= D * T * T)%Z) by nia.
  split; [|split].
  - unfold Qle. simpl. lia.
  - unfold Qle, Qplus, Qmult. cbn [Qnum Qden].
    rewrite !Pos2Z.inj_mul. fold D T.
    assert (H1 : (N <= (r + D) * (r + D))%Z) by nia.
    replace (n * (D * T * T * (D * T * T)))%Z with (N * (D * T * T))%Z
      by (unfold N; ring).
    replace ((r * T + 1 * (D * T)) * (r * T + 1 * (D * T)) * D)%Z
      with ((r + D) * (r + D) * (D * T * T))%Z by ring.
    by apply Z.mul_le_mono_nonneg_r.
  - intros Hd.
    assert (Hd' : (D <= r)%Z).
    { unfold Qle in Hd. cbn [Qnum Qden] in Hd. rewrite Pos2Z.inj_mul in Hd.
      fold D T in Hd. nia. }
    assert (H1 : ((r - D) * (r - D) <= N)%Z) by nia.
    unfold Qle, Qminus, Qplus, Qmult, Qopp. cbn [Qnum Qden].
    rewrite !Pos2Z.inj_mul. fold D T.
    replace (n * (D * T * T * (D * T * T)))%Z with (N * (D * T * T))%Z
      by (unfold N; ring).
    replace ((r * T + - (1) * (D * T)) * (r * T + - (1) * (D * T)) * D)%Z
      with ((r - D) * (r - D) * (D * T * T))%Z by ring.
    by apply Z.mul_le_mono_nonneg_r.
Qed.

Section ScenarioFacts.
Import Extraction Config.
Local Open Scope Q_scope.

Variable np_sqrt : Q → Q.
Hypothesis Hsqrt : sqrt_upto (1 # 1000000000) np_sqrt.

Lemma within_feature (p q : Vec3) :
  Scenario.within_grouping_distance p q →
  Lib.within CIRCLE_GROUPING_DISTANCE (feature p) (feature q) = true.
Proof.
  unfold Scenario.within_grouping_distance, Lib.within, Lib.dist2, feature,
    CIRCLE_GROUPING_DISTANCE, Z_TOLERANCE.
  intros H. apply py_leb_true. cbn [vx vy vz].
  set (dz := vz p - vz q) in *.
  assert (Hz : (vz p / (12 / 4) - vz q / (12 / 4)) == dz / 3).
  { unfold dz. field. }
  rewrite Hz. 
  assert (dz / 3 * (dz / 3) <= dz * dz).
  { assert (E : dz / 3 * (dz / 3) == (1 # 9) * (dz * dz)) by field. rewrite E.
    assert (0 <= dz * dz) by nra. lra. }
  lra.
Qed.

Lemma flood_pair (eps : Q) (p q : Vec3) :
  Lib.within eps p q = true →
  Lib.flood 2 eps [p; q] 0 [Some 0%nat; None] = [Some 0%nat; Some 0%nat].
Proof.
  intros H.
  cbn [Lib.flood Lib.expand combine List.map snd fst Lib.near_cluster existsb].
  rewrite H. reflexivity.
Qed.

Lemma labels_pair (x y : Circle.t) :
  Scenario.within_grouping_distance (Circle.center x) (Circle.center y) →
  labels_of [x; y] = [0%nat; 0%nat].
Proof.
  intros H. apply within_feature in H.
  unfold labels_of, Lib.DBSCAN_labels. cbn [List.map length seq replicate].
  cbn [Lib.scan lookup list_lookup length].
  change (<[0%nat:=Some 0%nat]> [None; None]) with [Some 0%nat; @None nat].
  rewrite (flood_pair _ _ _ H). reflexivity.
Qed.

Lemma groups_pair (x y : Circle.t) :
  in_window x = true → in_window y = true →
  Scenario.within_grouping_distance (Circle.center x) (Circle.center y) →
  groups [x; y] = [[x; y]].
Proof.
  intros Hx Hy H. unfold groups, filtered. cbn [List.filter]. rewrite Hx, Hy.
  rewrite (labels_pair x y H). reflexivity.
Qed.

Lemma radius_about_6_window (c : Circle.t) :
  Scenario.radius_about_6 (Circle.radius c) → in_window c = true.
Proof.
  unfold Scenario.radius_about_6. intros H. apply Qabs_Qle_condition in H.
  apply in_window_spec. unfold RADIUS_MIN, RADIUS_MAX. lra.
Qed.


Lemma fused_pair (x y : Circle.t) (v1 v2 : Vec3) :
  Circle.axis x = Some v1 → Circle.axis y = Some v2 →
  Scenario.axis_about_up v1 → Scenario.axis_about_up v2 →
  (weight x == 2 ∧ weight y == 3) ∨ (weight x == 3 ∧ weight y == 2) →
  MIN_VERTICAL_ALIGNMENT <= Qabs (vz (fused_axis np_sqrt [x; y]))
  ∧ Qabs (vz (fused_axis np_sqrt [x; y])) <= 5 # 4.
Proof.
  intros Hx Hy (Hx1 & Hx2 & Hx3) (Hy1 & Hy2 & Hy3) Hw.
  apply Qabs_Qle_condition in Hx1, Hx2, Hx3, Hy1, Hy2, Hy3.
  unfold fused_axis. cbn [List.map]. rewrite Hx, Hy. cbn [default from_option Datatypes.id].
  unfold Lib.average3, Lib.dot, Lib.sum.
  cbn [List.map combine fold_left fst snd vx vy vz].
  set (w1 := weight x) in *. set (w2 := weight y) in *.
  set (X := (0 + w1 * vx v1 + w2 * vx v2) / (0 + w1 + w2)).
  set (Y := (0 + w1 * vy v1 + w2 * vy v2) / (0 + w1 + w2)).
  set (Z := (0 + w1 * vz v1 + w2 * vz v2) / (0 + w1 + w2)).
  assert (HX : -(1 # 10) <= X ∧ X <= 1 # 10).
  { destruct Hw as [[E1 E2]|[E1 E2]].
    - assert (E : X == (2 # 5) * vx v1 + (3 # 5) * vx v2)
        by (unfold X; rewrite E1, E2; field).
      rewrite E. lra.
    - assert (E : X == (3 # 5) * vx v1 + (2 # 5) * vx v2)
        by (unfold X; rewrite E1, E2; field).
      rewrite E. lra. }
  assert (HY : -(1 # 10) <= Y ∧ Y <= 1 # 10).
  { destruct Hw as [[E1 E2]|[E1 E2]].
    - assert (E : Y == (2 # 5) * vy v1 + (3 # 5) * vy v2)
        by (unfold Y; rewrite E1, E2; field).
      rewrite E. lra.
    - assert (E : Y == (3 # 5) * vy v1 + (2 # 5) * vy v2)
        by (unfold Y; rewrite E1, E2; field).
      rewrite E. lra. }
  assert (HZ : 9 # 10 <= Z ∧ Z <= 11 # 10).
  { destruct Hw as [[E1 E2]|[E1 E2]].
    - assert (E : Z == (2 # 5) * vz v1 + (3 # 5) * vz v2)
        by (unfold Z; rewrite E1, E2; field).
      rewrite E. lra.
    - assert (E : Z == (3 # 5) * vz v1 + (2 # 5) * vz v2)
        by (unfold Z; rewrite E1, E2; field).
      rewrite E. lra. }
  clearbody X Y Z.
  unfold norm, Lib.norm2. cbn [vx vy vz].
  set (n2 := X * X + Y * Y + Z * Z).
  assert (Hn2 : 81 # 100 <= n2 ∧ n2 <= 123 # 100) by (unfold n2; nra).
  destruct (Hsqrt n2) as (Hs0 & Hs1 & Hs2); [lra|].
  set (s := np_sqrt n2) in *. clearbody s. clearbody n2.
  assert (Hs : 89 # 100 <= s ∧ s <= 6 # 5).
  { split.
    - nra.
    - destruct (Qlt_le_dec s (1 # 1000000000)) as [Hlt|Hge]; [lra|].
      specialize (Hs2 Hge). nra. }
  set (d := s + (1 # 10000000000)).
  assert (Hd : 89 # 100 <= d ∧ d <= 13 # 10) by (unfold d; lra).
  clearbody d.
  assert (Hq : 15 # 100 <= Z / d ∧ Z / d <= 5 # 4).
  { split.
    - apply Qle_shift_div_l; [lra|]. nra.
    - apply Qle_shift_div_r; [lra|]. nra. }
  rewrite Qabs_pos by lra. exact Hq.
Qed.


Lemma score_pair (x y : Circle.t) (best : option Circle.t) (r al : Q) :
  (Circle.source x = "analytic_edge" ∧ Circle.source y = "cylindrical_face")
  ∨ (Circle.source x = "cylindrical_face" ∧ Circle.source y = "analytic_edge") →
  MIN_VERTICAL_ALIGNMENT <= al → al <= 5 # 4 →
  calculate_hole_score [x; y] best r al
  == Py.max 0 (25 - Qabs (r - (55 # 10)) * (15 # 10))
     + (al - MIN_VERTICAL_ALIGNMENT) / (1 - MIN_VERTICAL_ALIGNMENT) * 15
     + 24 + 15 + 10.
Proof.
  intros Hsrc Hlo Hhi. unfold calculate_hole_score.
  cbn [length List.map Nat.leb Nat.eqb].
  rewrite (proj2 (py_leb_true _ _) Hlo).
  assert (Hc : bool_decide ("cylindrical_face" ∈
                 (list_to_set [Circle.source x; Circle.source y] : gset string)) = true).
  { apply bool_decide_eq_true. destruct Hsrc as [[-> ->]|[-> ->]]; set_solver. }
  assert (Ha : bool_decide ("analytic_edge" ∈
                 (list_to_set [Circle.source x; Circle.source y] : gset string)) = true).
  { apply bool_decide_eq_true. destruct Hsrc as [[-> ->]|[-> ->]]; set_solver. }
  assert (Hf : bool_decide ("fitted_edge" ∈
                 (list_to_set [Circle.source x; Circle.source y] : gset string)) = false).
  { apply bool_decide_eq_false.
    destruct Hsrc as [[-> ->]|[-> ->]]; set_solver. }
  rewrite Hc, Ha, Hf.
  set (rt := Py.max 0 (25 - Qabs (r - (55 # 10)) * (15 # 10))).
  assert (Hrt : 0 <= rt ∧ rt <= 25).
  { split; [apply py_max_ge_l|]. apply py_max_lub; [lra|].
    pose proof (Qabs_nonneg (r - (55 # 10))). lra. }
  set (at_ := (al - MIN_VERTICAL_ALIGNMENT) / (1 - MIN_VERTICAL_ALIGNMENT) * 15).
  assert (Hat : 0 <= at_ ∧ at_ <= 20).
  { assert (E : at_ == (al - (15 # 100)) * (300 # 17))
      by (unfold at_, MIN_VERTICAL_ALIGNMENT; field).
    rewrite E. unfold MIN_VERTICAL_ALIGNMENT in Hlo. lra. }
  clearbody rt at_.
  rewrite py_clamp_id; lra.
Qed.


Lemma hole_of_group_pair (x y : Circle.t) (n : nat) :
  is_analytic x = true → is_analytic y = true →
  MIN_VERTICAL_ALIGNMENT <= Qabs (vz (fused_axis np_sqrt [x; y])) →
  ∃ h,
    let best := head (Lib.sort_desc (fun g => vz (Circle.center g)) [x; y]) in
    hole_of_group np_sqrt [x; y] n = Some h
    ∧ num_circles h = 2%nat
    ∧ sources h = list_to_set [Circle.source x; Circle.source y]
    ∧ vertical_alignment h = Qabs (vz (fused_axis np_sqrt [x; y]))
    ∧ score h = calculate_hole_score [x; y] best (radius h) (vertical_alignment h).
Proof.
  intros Hx Hy Hal. unfold hole_of_group. cbn [List.filter]. rewrite Hx, Hy.
  cbv beta iota zeta.
  rewrite (proj2 (py_ltb_false _ _) Hal).
  eexists. cbv zeta. split; [reflexivity|].
  split; [reflexivity|]. split; [reflexivity|]. split; reflexivity.
Qed.

Lemma dist2_sym (p q : Vec3) : Lib.dist2 p q == Lib.dist2 q p.
Proof. unfold Lib.dist2. ring. Qed.

Lemma aggregate_pair (x y : Circle.t) (v1 v2 : Vec3) :
  (Circle.source x = "analytic_edge" ∧ Circle.source y = "cylindrical_face")
  ∨ (Circle.source x = "cylindrical_face" ∧ Circle.source y = "analytic_edge") →
  Scenario.within_grouping_distance (Circle.center x) (Circle.center y) →
  Scenario.radius_about_6 (Circle.radius x) → Scenario.radius_about_6 (Circle.radius y) →
  Circle.axis x = Some v1 → Circle.axis y = Some v2 →
  Scenario.axis_about_up v1 → Scenario.axis_about_up v2 →
  ∃ h, combine_and_group np_sqrt [x; y] = [h]
    ∧ id h = 1%Z ∧ num_circles h = 2%nat
    ∧ sources h = {["analytic_edge"; "cylindrical_face"]}
    ∧ score h == Py.max 0 (25 - Qabs (radius h - (55 # 10)) * (15 # 10))
                 + (vertical_alignment h - MIN_VERTICAL_ALIGNMENT)
                   / (1 - MIN_VERTICAL_ALIGNMENT) * 15
                 + 24 + 15 + 10.
Proof.
  intros Hsrc Hd Hrx Hry Hax Hay Hv1 Hv2.
  assert (Hix : is_analytic x = true ∧ is_analytic y = true).
  { unfold is_analytic. destruct Hsrc as [[-> ->]|[-> ->]]; done. }
  destruct Hix as [Hix Hiy].
  assert (Hw : (weight x == 2 ∧ weight y == 3) ∨ (weight x == 3 ∧ weight y == 2)).
  { unfold weight. destruct Hsrc as [[-> ->]|[-> ->]]; [left|right]; done. }
  destruct (fused_pair x y v1 v2 Hax Hay Hv1 Hv2 Hw) as [Hlo Hhi].
  destruct (hole_of_group_pair x y 0 Hix Hiy Hlo) as (h0 & Hh & Hn & Hs & Hva & Hsc).
  set (best := head (Lib.sort_desc (fun g => vz (Circle.center g)) [x; y])) in Hsc.
  assert (Hscore := score_pair x y best (radius h0) (vertical_alignment h0) Hsrc).
  rewrite <- Hsc in Hscore. rewrite Hva in Hscore at 1 2. specialize (Hscore Hlo Hhi).
  assert (Hge : MIN_SCORE_THRESHOLD <= score h0).
  { rewrite Hscore. unfold MIN_SCORE_THRESHOLD.
    pose proof (py_max_ge_l 0 (25 - Qabs (radius h0 - (55 # 10)) * (15 # 10))).
    assert (E : (vertical_alignment h0 - MIN_VERTICAL_ALIGNMENT)
                / (1 - MIN_VERTICAL_ALIGNMENT) * 15
                == (vertical_alignment h0 - (15 # 100)) * (300 # 17))
      by (unfold MIN_VERTICAL_ALIGNMENT; field).
    rewrite E. rewrite Hva. unfold MIN_VERTICAL_ALIGNMENT in Hlo. lra. }
  exists (set_id 1 h0).
  split; [|split; [done|split; [by destruct h0|split]]].
  - rewrite combine_and_group_unfold. unfold ranked, discovered.
    rewrite (groups_pair x y (radius_about_6_window x Hrx) (radius_about_6_window y Hry) Hd).
    cbn [fold_left length]. rewrite Hh. cbn [app].
    unfold Lib.sort_desc. cbn [Lib.sort_by Lib.insert_by List.filter].
    rewrite (proj2 (py_leb_true _ _) Hge). reflexivity.
  - destruct h0; simpl in Hs |- *. rewrite Hs.
    destruct Hsrc as [[-> ->]|[-> ->]]; set_solver.
  - destruct h0; exact Hscore.
Qed.

End ScenarioFacts.

(** C5.  One analytic-edge candidate and one cylindrical-face candidate,
    in either order, with centres within [CIRCLE_GROUPING_DISTANCE], radii
    about 6.0 and axes about (0, 0, 1), fuse into exactly one hole (for any
    square root accurate to [1e-9]): it has id 1, two supporting circles, the
    sources analytic edge and cylindrical face, and its score is the radius
    term plus the alignment term plus 24 for two supporters plus the 15-point
    cylindrical-face bonus plus the 10-point analytic-edge bonus. *)
Theorem two_agreeing_sources (np_sqrt : Q → Q) (a c : Circle.t) (va vc : Vec3)
    (cs : list Circle.t) :
  sqrt_upto (1 # 1000000000) np_sqrt →
  Circle.source a = "analytic_edge" →
  Circle.source c = "cylindrical_face" →
  Scenario.within_grouping_distance (Circle.center a) (Circle.center c) →
  Scenario.radius_about_6 (Circle.radius a) →
  Scenario.radius_about_6 (Circle.radius c) →
  Circle.axis a = Some va → Scenario.axis_about_up va →
  Circle.axis c = Some vc → Scenario.axis_about_up vc →
  cs = [a; c] ∨ cs = [c; a] →
  ∃ h, Extraction.combine_and_group np_sqrt cs = [h]
    ∧ id h = 1%Z
    ∧ num_circles h = 2%nat
    ∧ sources h = {["analytic_edge"; "cylindrical_face"]}
    ∧ (score h == Py.max 0 (25 - Qabs (radius h - (55 # 10)) * (15 # 10))
                  + (vertical_alignment h - Config.MIN_VERTICAL_ALIGNMENT)
                    / (1 - Config.MIN_VERTICAL_ALIGNMENT) * 15
                  + 24 + 15 + 10)%Q.
Proof.
  intros Hsqrt Hsa Hsc Hd Hra Hrc Haa Hva Hac Hvc [-> | ->].
  - apply (aggregate_pair np_sqrt Hsqrt a c va vc); auto.
  - apply (aggregate_pair np_sqrt Hsqrt c a vc va); auto.
    unfold Scenario.within_grouping_distance in *. by rewrite dist2_sym.
Qed.

Lemma two_agreeing_sources_witness :
  let a := Circle.mk "analytic_edge" (mkVec3 10 20 5) 6 (Some (mkVec3 0 0 1)) None in
  let c := Circle.mk "cylindrical_face" (mkVec3 10 20 2) (601 # 100)
                     (Some (mkVec3 0 0 1)) None in
  ∃ h, Extraction.combine_and_group sqrt_floor [a; c] = [h]
    ∧ id h = 1%Z
    ∧ num_circles h = 2%nat
    ∧ sources h = {["analytic_edge"; "cylindrical_face"]}
    ∧ (score h == Py.max 0 (25 - Qabs (radius h - (55 # 10)) * (15 # 10))
                  + (vertical_alignment h - Config.MIN_VERTICAL_ALIGNMENT)
                    / (1 - Config.MIN_VERTICAL_ALIGNMENT) * 15
                  + 24 + 15 + 10)%Q.
Proof.
  intros a c.
  apply (two_agreeing_sources sqrt_floor a c (mkVec3 0 0 1) (mkVec3 0 0 1) [a; c]).
  - exact sqrt_floor_upto.
  - reflexivity.
  - reflexivity.
  - vm_compute. discriminate.
  - vm_compute. discriminate.
  - vm_compute. discriminate.
  - reflexivity.
  - vm_compute. repeat split; discriminate.
  - reflexivity.
  - vm_compute. repeat split; discriminate.
  - left. reflexivity.
Defined.

Lemma out_of_window_excluded_witness :
  let a := Circle.mk "analytic_edge" (mkVec3 10 20 5) 6 (Some (mkVec3 0 0 1)) None in
  let big := Circle.mk "fitted_edge" (mkVec3 10 20 4) 25 (Some (mkVec3 0 0 1)) (Some 3%Q) in
  let c := Circle.mk "cylindrical_face" (mkVec3 10 20 2) 6 (Some (mkVec3 0 0 1)) None in
  Extraction.combine_and_group sqrt_floor [a; big; c]
  = Extraction.combine_and_group sqrt_floor [a; c].
Proof.
  intros a big c.
  apply (out_of_window_excluded sqrt_floor big [a] [c]).
  right. reflexivity.
Defined.

(** ** Further properties of the aggregator and the selection store *)

(** The aggregator returns nothing for no candidates and when the radius
    filter leaves none. *)
Theorem aggregate_nothing (np_sqrt : Q → Q) (cs : list Circle.t) :
  Extraction.filtered cs = [] → Extraction.combine_and_group np_sqrt cs = [].
Proof.
  intros Hf. unfold Extraction.combine_and_group. rewrite Hf. by destruct cs.
Qed.

Lemma aggregate_nothing_witness : Extraction.combine_and_group sqrt_floor [] = [].
Proof. apply (aggregate_nothing sqrt_floor []). reflexivity. Defined.

Lemma reordered_perm (group : list Circle.t) : Extraction.reordered group ≡ₚ group.
Proof.
  unfold Extraction.reordered.
  destruct (List.filter Extraction.is_analytic group); [|reflexivity].
  apply sort_by_perm.
Qed.

Lemma hole_of_group_None (np_sqrt : Q → Q) (group : list Circle.t) (n : nat) :
  Extraction.hole_of_group np_sqrt group n = None
  ↔ (Qabs (vz (Extraction.fused_axis np_sqrt (Extraction.reordered group)))
     < Config.MIN_VERTICAL_ALIGNMENT)%Q.
Proof.
  unfold Extraction.hole_of_group, Extraction.reordered.
  destruct (List.filter Extraction.is_analytic group) as [|a l]; cbv zeta.
  - destruct (Py.ltb _ _) eqn:Hlt.
    + apply py_ltb_true in Hlt. done.
    + apply py_ltb_false in Hlt. split; [done|]. intros H. exfalso. lra.
  - destruct (Py.ltb _ _) eqn:Hlt.
    + apply py_ltb_true in Hlt. done.
    + apply py_ltb_false in Hlt. split; [done|]. intros H. exfalso. lra.
Qed.

(** A cluster whose fused axis has an alignment below
    [MIN_VERTICAL_ALIGNMENT] yields no hole, whatever the sources of its
    members, and every other cluster yields one; the axis is fused over the
    members of the cluster, in the order the loop has left them.  When every
    cluster is misaligned the aggregator returns nothing. *)
Theorem misaligned_group_rejected (np_sqrt : Q → Q) :
  let misaligned := fun group =>
    (Qabs (vz (Extraction.fused_axis np_sqrt (Extraction.reordered group)))
     < Config.MIN_VERTICAL_ALIGNMENT)%Q in
  (∀ group, Extraction.reordered group ≡ₚ group)
  ∧ (∀ group n, misaligned group → Extraction.hole_of_group np_sqrt group n = None)
  ∧ (∀ group n, ¬ misaligned group →
       ∃ h, Extraction.hole_of_group np_sqrt group n = Some h
         ∧ vertical_alignment h
           = Qabs (vz (Extraction.fused_axis np_sqrt (Extraction.reordered group))))
  ∧ (∀ cs, Forall misaligned (Extraction.groups cs) →
       Extraction.combine_and_group np_sqrt cs = []).
Proof.
  intros misaligned. split; [apply reordered_perm|]. split; [|split].
  - intros group n H. by apply hole_of_group_None.
  - intros group n H.
    destruct (Extraction.hole_of_group np_sqrt group n) as [h|] eqn:Hh.
    + exists h. split; [done|]. revert Hh.
      unfold Extraction.hole_of_group, Extraction.reordered.
      destruct (List.filter Extraction.is_analytic group); cbv zeta;
        destruct (Py.ltb _ _); intros [= <-]; reflexivity.
    + apply hole_of_group_None in Hh. by destruct H.
  - intros cs Hall. rewrite combine_and_group_unfold.
    unfold Extraction.ranked, Extraction.discovered.
    assert (H : ∀ acc, fold_left (fun holes group =>
               match Extraction.hole_of_group np_sqrt group (length holes) with
               | Some h => holes ++ [h]
               | None => holes
               end) (Extraction.groups cs) acc = acc).
    { induction Hall as [|g gs Hg _ IH]; intros acc; simpl; [done|].
      rewrite (proj2 (hole_of_group_None np_sqrt g (length acc)) Hg). apply IH. }
    rewrite H. reflexivity.
Qed.

Lemma misaligned_group_rejected_witness :
  let f := Circle.mk "fitted_edge" (mkVec3 0 0 0) 6 (Some (mkVec3 1 0 0)) (Some 2%Q) in
  let g := Circle.mk "fitted_edge" (mkVec3 0 0 0) 6
                     (Some (mkVec3 (8 # 10) 0 (- (6 # 10)))) (Some 2%Q) in
  let c := Circle.mk "cylindrical_face" (mkVec3 0 0 1) 6
                     (Some (mkVec3 (98 # 100) 0 (2 # 10))) None in
  Extraction.hole_of_group sqrt_floor [f] 0 = None
  ∧ Extraction.hole_of_group sqrt_floor [c; g] 0 = None
  ∧ Extraction.combine_and_group sqrt_floor [f] = [].
Proof.
  intros f g c.
  destruct (misaligned_group_rejected sqrt_floor) as (_ & H & _ & Hall).
  split; [|split].
  - apply (H [f] 0%nat). reflexivity.
  - apply (H [c; g] 0%nat). reflexivity.
  - apply (Hall [f]). repeat constructor.
Defined.

Lemma toggle_selected (st : Stores) (uid : option string) (id_param : option Z) :
  let sel := default ∅ (SELECTED_HOLES st !! uid) in
  let i := Handlers.hole_id_of id_param in
  SELECTED_HOLES (fst (Handlers.toggle st uid id_param)) !! uid
  = Some (if bool_decide (i = 0%Z) then sel
          else if bool_decide (i ∈ sel) then sel ∖ {[i]} else sel ∪ {[i]}).
Proof.
  intros sel i. subst sel i. unfold Handlers.toggle.
  destruct (SELECTED_HOLES st !! uid) as [s|] eqn:Hs;
    destruct (bool_decide (Handlers.hole_id_of id_param = 0%Z)); cbn [fst SELECTED_HOLES];
    rewrite ?lookup_insert_eq, ?Hs; done.
Qed.

(** Toggling the same id twice restores the selection; the sentinel id 0
    reads the selection without changing it. *)
Theorem toggle_twice (st : Stores) (uid : option string) (i : Z) :
  let sel := default ∅ (SELECTED_HOLES st !! uid) in
  let st1 := fst (Handlers.toggle st uid (Some i)) in
  let st2 := fst (Handlers.toggle st1 uid (Some i)) in
  SELECTED_HOLES st2 !! uid = Some sel
  ∧ (i = 0%Z → SELECTED_HOLES st1 !! uid = Some sel)
  ∧ (i ≠ 0%Z → SELECTED_HOLES st1 !! uid
               = Some (if bool_decide (i ∈ sel) then sel ∖ {[i]} else sel ∪ {[i]})).
Proof.
  intros sel st1 st2. subst st2.
  rewrite toggle_selected. subst st1. rewrite !toggle_selected. fold sel.
  cbn [Handlers.hole_id_of default from_option Datatypes.id].
  destruct (bool_decide (i = 0%Z)) eqn:Hz.
  - apply bool_decide_eq_true in Hz. by repeat split.
  - apply bool_decide_eq_false in Hz. split; [|split; [done|done]].
    f_equal. destruct (bool_decide (i ∈ sel)) eqn:Hin.
    + apply bool_decide_eq_true in Hin.
      rewrite bool_decide_eq_false_2 by set_solver.
      apply set_eq. intros x. destruct (decide (x = i)); set_solver.
    + apply bool_decide_eq_false in Hin.
      rewrite bool_decide_eq_true_2 by set_solver. set_solver.
Qed.

(** Deleting a job removes its entries from all four stores. *)
Theorem delete_removes (st : Stores) (uid : string) :
  uid ≠ EmptyString →
  let r := Handlers.do_GET st (Handlers.ReqDelete (Some uid)) in
  Handlers.code (snd r) = 200%Z
  ∧ PROGRESS (fst r) !! Some uid = None
  ∧ MESH_FILES (fst r) !! Some uid = None
  ∧ HOLE_DATA (fst r) !! Some uid = None
  ∧ SELECTED_HOLES (fst r) !! Some uid = None.
Proof.
  intros Hu r. subst r. simpl. unfold Handlers.delete, Handlers.falsy.
  rewrite bool_decide_eq_false_2 by done. simpl.
  by rewrite !lookup_delete_eq.
Qed.

(** ** Successful jobs *)

Section JobSuccess.
Import Pipeline.

Variable Shape : Type.
Variable load_step_shape : string → result Shape.
Variable extract_analytic_circular_edges : Shape → result (list Circle.t).
Variable extract_cylindrical_faces : Shape → result (list Circle.t).
Variable extract_fitted_circles_from_edges : Shape → result (list Circle.t).
Variable combine_and_group : list Circle.t → result (list Hole).
Variable extract_mesh_from_shape :
  Shape → Q → result (list Vec3 * list (nat * nat * nat)).
Variable dump_mesh : string → list Vec3 * list (nat * nat * nat) → result unit.
Variable dump_holes : string → list Hole → result unit.
Variable WEB_ROOT : string.

(** A job in which no call raises ends at 100 percent with its holes
    stored and an empty selection: with the status ["No mesh produced"] and
    no mesh reference when the mesh has no vertices or no faces, and with
    ["Done - N holes detected"] and the path of the saved mesh otherwise. *)
Theorem job_success (uid step_path : string) (quality : Q) (st : Stores)
    (shape : Shape) (analytic cyls fitted : list Circle.t) (holes : list Hole)
    (vertices : list Vec3) (faces : list (nat * nat * nat)) :
  load_step_shape step_path = Ok shape →
  extract_analytic_circular_edges shape = Ok analytic →
  extract_cylindrical_faces shape = Ok cyls →
  extract_fitted_circles_from_edges shape = Ok fitted →
  combine_and_group (analytic ++ cyls ++ fitted) = Ok holes →
  extract_mesh_from_shape shape quality = Ok (vertices, faces) →
  let mesh_path := join WEB_ROOT ("mesh_" +:+ uid +:+ ".json") in
  let hole_path := join WEB_ROOT ("holes_" +:+ uid +:+ ".json") in
  (vertices ≠ [] → faces ≠ [] →
   dump_mesh mesh_path (vertices, faces) = Ok tt ∧ dump_holes hole_path holes = Ok tt) →
  let st' := snd (process_step_file_async Shape load_step_shape
                    extract_analytic_circular_edges extract_cylindrical_faces
                    extract_fitted_circles_from_edges combine_and_group
                    extract_mesh_from_shape dump_mesh dump_holes WEB_ROOT
                    uid step_path quality st) in
  HOLE_DATA st' !! Some uid = Some holes
  ∧ SELECTED_HOLES st' !! Some uid = Some ∅
  ∧ (vertices = [] ∨ faces = [] →
       PROGRESS st' !! Some uid = Some (mkProgress 100 "No mesh produced")
       ∧ MESH_FILES st' !! Some uid = Some None)
  ∧ (vertices ≠ [] → faces ≠ [] →
       PROGRESS st' !! Some uid
         = Some (mkProgress 100 ("Done - " +:+ pretty (length holes) +:+ " holes detected"))
       ∧ MESH_FILES st' !! Some uid = Some (Some mesh_path)).
Proof.
  intros Hl Ha Hc Hf Hg Hm mesh_path hole_path Hdump st'. subst st'.
  unfold process_step_file_async, try_except, job_body, mbind, M_bind, bind, call,
    set_PROGRESS, set_MESH_FILES, set_HOLE_DATA, set_SELECTED_HOLES.
  cbn -[pretty String.append].
  rewrite Hl. cbn -[pretty String.append]. rewrite Ha. cbn -[pretty String.append].
  rewrite Hc. cbn -[pretty String.append]. rewrite Hf. cbn -[pretty String.append].
  rewrite Hg. cbn -[pretty String.append]. rewrite Hm. cbn -[pretty String.append].
  destruct vertices as [|v vertices]; [|destruct faces as [|t faces]];
    cbn -[pretty String.append].
  - rewrite !lookup_insert_eq. repeat split; first [done | naive_solver].
  - rewrite !lookup_insert_eq. repeat split; first [done | naive_solver].
  - destruct Hdump as [Hd1 Hd2]; [done|done|].
    fold (join WEB_ROOT). fold mesh_path hole_path.
    rewrite Hd1. cbn -[pretty String.append]. rewrite Hd2. cbn -[pretty String.append].
    rewrite !lookup_insert_eq. repeat split; first [done | naive_solver].
Qed.

End JobSuccess.

(** ** Mesh extraction *)

Section MeshFacts.
Import Mesh.

Lemma vert_lookup_Some (vert_map : list (Vec3 * nat)) (v : Vec3) (k : nat) :
  vert_lookup vert_map v = Some k →
  ∃ u, (u, k) ∈ vert_map ∧ vec_eqb u v = true.
Proof.
  unfold vert_lookup. destruct (List.find _ vert_map) as [[u k']|] eqn:Hf; [|done].
  intros [= <-]. apply find_some in Hf as [Hin Heq].
  exists u. split; [by apply list_elem_of_In|done].
Qed.

Lemma vert_lookup_None (vert_map : list (Vec3 * nat)) (v u : Vec3) (k : nat) :
  vert_lookup vert_map v = None → (u, k) ∈ vert_map → vec_eqb u v = false.
Proof.
  unfold vert_lookup. destruct (List.find _ vert_map) as [?|] eqn:Hf; [done|].
  intros _ Hin. apply list_elem_of_In in Hin.
  by apply (find_none _ _ Hf (u, k)).
Qed.

Lemma dedup_step_inv st v : dedup_inv st → dedup_inv (dedup_step st v).
Proof.
  destruct st as [[vm vs] n]. intros (Hn & Hmap & Hdist & Hcov).
  unfold dedup_step. destruct (vert_lookup vm v) as [k|] eqn:Hl; [done|].
  split; [|split; [|split]].
  - rewrite length_app. simpl. lia.
  - intros u k Hin. apply elem_of_app in Hin as [Hin|Hin].
    + apply lookup_app_l_Some. by apply Hmap.
    + apply list_elem_of_singleton in Hin. simplify_eq.
      rewrite lookup_app_r by lia. by rewrite Nat.sub_diag.
  - intros i j u w Hij Hi Hj.
    destruct (decide (j < length vs)%nat) as [Hlt|Hge].
    + rewrite lookup_app_l in Hi, Hj by lia. exact (Hdist i j u w Hij Hi Hj).
    + assert (j = length vs) as ->.
      { apply lookup_lt_Some in Hj. rewrite length_app in Hj. simpl in Hj. lia. }
      rewrite lookup_app_r in Hj by lia. rewrite Nat.sub_diag in Hj.
      injection Hj as <-.
      rewrite lookup_app_l in Hi by lia.
      destruct (Hcov u) as [k Hk]; [by eapply list_elem_of_lookup_2|].
      by eapply vert_lookup_None.
  - intros u Hin. apply elem_of_app in Hin as [Hin|Hin].
    + destruct (Hcov u Hin) as [k Hk]. exists k. apply elem_of_app. by left.
    + apply list_elem_of_singleton in Hin as ->. exists n.
      apply elem_of_app. right. by apply list_elem_of_singleton.
Qed.

Lemma dedup_inv_fold (raw : list Vec3) st :
  dedup_inv st → dedup_inv (fold_left dedup_step raw st).
Proof.
  revert st. induction raw as [|v raw IH]; intros st Hst; simpl; [done|].
  by apply IH, dedup_step_inv.
Qed.

Lemma dedup_ok (raw : list Vec3) : dedup_inv (dedup raw).
Proof.
  apply dedup_inv_fold. repeat split; try done.
  - intros v k Hin. by apply not_elem_of_nil in Hin.
  - intros v Hin. by apply not_elem_of_nil in Hin.
Qed.

Lemma new_index_of_spec vm vs n raw (i : Z) (k : nat) :
  dedup_inv (vm, vs, n) →
  new_index_of vm raw i = inr k →
  ∃ u v, index raw i = Some v ∧ vs !! k = Some u ∧ vec_eqb u v = true.
Proof.
  intros (_ & Hmap & _) H. unfold new_index_of in H.
  destruct (index raw i) as [v|]; [|done].
  destruct (vert_lookup vm v) as [k'|] eqn:Hl; [|done].
  injection H as ->. apply vert_lookup_Some in Hl as (u & Hin & Heq).
  exists u, v. split; [done|]. split; [by apply Hmap|done].
Qed.

Lemma remap_spec vm vs n raw (raw_faces : list (Z * Z * Z)) (faces : list (nat * nat * nat)) :
  dedup_inv (vm, vs, n) →
  remap vm raw raw_faces = Some faces →
  ∀ a b c, (a, b, c) ∈ faces →
    ∃ ra rb rc, (ra, rb, rc) ∈ raw_faces
      ∧ new_index_of vm raw ra = inr a
      ∧ new_index_of vm raw rb = inr b
      ∧ new_index_of vm raw rc = inr c.
Proof.
  intros Hinv. revert faces.
  induction raw_faces as [|[[ra rb] rc] rf IH]; intros faces; simpl.
  - intros [= <-] a b c Hin. by apply not_elem_of_nil in Hin.
  - destruct (new_index_of vm raw ra) as [[]|ka] eqn:Ha; [done| |].
    { intros Hr a b c Hin. destruct (IH faces Hr a b c Hin) as (x & y & z & Hin' & H').
      exists x, y, z. split; [by right|done]. }
    destruct (new_index_of vm raw rb) as [[]|kb] eqn:Hb; [done| |].
    { intros Hr a b c Hin. destruct (IH faces Hr a b c Hin) as (x & y & z & Hin' & H').
      exists x, y, z. split; [by right|done]. }
    destruct (new_index_of vm raw rc) as [[]|kc] eqn:Hc; [done| |].
    { intros Hr a b c Hin. destruct (IH faces Hr a b c Hin) as (x & y & z & Hin' & H').
      exists x, y, z. split; [by right|done]. }
    destruct (remap vm raw rf) as [fs|]; [|done]. simpl.
    intros [= <-] a b c Hin. apply elem_of_cons in Hin as [[= -> -> ->]|Hin].
    + exists ra, rb, rc. split; [left|done].
    + destruct (IH fs eq_refl a b c Hin) as (x & y & z & Hin' & H').
      exists x, y, z. split; [by right|done].
Qed.

Ltac empty_mesh :=
  cbn [fst snd]; split;
  [intros ? ? ? Hin; by apply not_elem_of_nil in Hin | intros ? ? ? ? ? H; done].

(** Every face of the extracted mesh indexes into its vertices at all
    three corners, and no two vertices have the same coordinates. *)
Theorem mesh_well_formed (kernel : Kernel) :
  let vertices := fst (extract_mesh_from_shape kernel) in
  let faces := snd (extract_mesh_from_shape kernel) in
  (∀ a b c, (a, b, c) ∈ faces →
     (a < length vertices ∧ b < length vertices ∧ c < length vertices)%nat)
  ∧ (∀ i j u v, (i < j)%nat → vertices !! i = Some u → vertices !! j = Some v →
       vec_eqb u v = false).
Proof.
  intros vertices faces. subst vertices faces. unfold extract_mesh_from_shape.
  destruct kernel as [fs|]; [|empty_mesh].
  destruct (collect fs) as [raw_vertices raw_faces].
  destruct raw_vertices as [|v0 raw_vertices]; [empty_mesh|].
  destruct raw_faces as [|f0 raw_faces]; [empty_mesh|].
  pose proof (dedup_ok (v0 :: raw_vertices)) as Hinv.
  destruct (dedup (v0 :: raw_vertices)) as [[vm vs] n].
  destruct (remap vm (v0 :: raw_vertices) (f0 :: raw_faces)) as [faces|] eqn:Hr;
    [|empty_mesh].
  cbn [fst snd]. split.
  - intros a b c Hin.
    destruct (remap_spec _ _ _ _ _ _ Hinv Hr a b c Hin) as (ra & rb & rc & _ & Ha & Hb & Hc).
    apply (new_index_of_spec _ _ _ _ _ _ Hinv) in Ha as (? & ? & _ & Ha & _).
    apply (new_index_of_spec _ _ _ _ _ _ Hinv) in Hb as (? & ? & _ & Hb & _).
    apply (new_index_of_spec _ _ _ _ _ _ Hinv) in Hc as (? & ? & _ & Hc & _).
    apply lookup_lt_Some in Ha, Hb, Hc. done.
  - by destruct Hinv as (_ & _ & Hdist & _).
Qed.

End MeshFacts.

(** ** No triangle is lost *)

Section MeshFaces.
Import Mesh.

Lemma vec_eqb_refl (v : Vec3) : vec_eqb v v = true.
Proof.
  unfold vec_eqb. rewrite !(proj2 (Qeq_bool_iff _ _)); [done|reflexivity..].
Qed.

Lemma vec_eqb_sym (u v : Vec3) : vec_eqb u v = true → vec_eqb v u = true.
Proof.
  unfold vec_eqb. rewrite !andb_true_iff, !Qeq_bool_iff.
  intros [[H1 H2] H3]. repeat split; by symmetry.
Qed.

Lemma vec_eqb_trans (u v w : Vec3) :
  vec_eqb u v = true → vec_eqb v w = true → vec_eqb u w = true.
Proof.
  unfold vec_eqb. rewrite !andb_true_iff, !Qeq_bool_iff.
  intros [[H1 H2] H3] [[H4 H5] H6]. repeat split; etrans; eauto.
Qed.

Lemma vert_lookup_app (vm : list (Vec3 * nat)) (v u : Vec3) (n : nat) :
  vert_lookup (vm ++ [(v, n)]) u =
    match vert_lookup vm u with
    | Some k => Some k
    | None => if vec_eqb v u then Some n else None
    end.
Proof.
  unfold vert_lookup. induction vm as [|[w k] vm IH]; simpl.
  - by destruct (vec_eqb v u).
  - destruct (vec_eqb w u); [done|]. apply IH.
Qed.

Lemma dedup_step_keeps st v u :
  vert_lookup (st.1.1) u ≠ None → vert_lookup ((dedup_step st v).1.1) u ≠ None.
Proof.
  destruct st as [[vm vs] n]. unfold dedup_step. simpl.
  destruct (vert_lookup vm v) eqn:E; simpl; [done|].
  rewrite vert_lookup_app. by destruct (vert_lookup vm u).
Qed.

Lemma dedup_step_adds st v : vert_lookup ((dedup_step st v).1.1) v ≠ None.
Proof.
  destruct st as [[vm vs] n]. unfold dedup_step. simpl.
  destruct (vert_lookup vm v) eqn:E; simpl; [by rewrite E|].
  rewrite vert_lookup_app, E, vec_eqb_refl. done.
Qed.

Lemma dedup_fold_keeps raw st u :
  vert_lookup (st.1.1) u ≠ None →
  vert_lookup ((fold_left dedup_step raw st).1.1) u ≠ None.
Proof.
  revert st. induction raw as [|v raw IH]; intros st H; simpl; [done|].
  by apply IH, dedup_step_keeps.
Qed.

Lemma dedup_fold_covers raw st v :
  v ∈ raw → vert_lookup ((fold_left dedup_step raw st).1.1) v ≠ None.
Proof.
  revert st. induction raw as [|w raw IH]; intros st Hin; simpl.
  - by apply not_elem_of_nil in Hin.
  - apply elem_of_cons in Hin as [->|Hin].
    + apply dedup_fold_keeps, dedup_step_adds.
    + by apply IH.
Qed.

Lemma dedup_fold_from raw st v :
  v ∈ (fold_left dedup_step raw st).1.2 → v ∈ st.1.2 ∨ v ∈ raw.
Proof.
  revert st. induction raw as [|w raw IH]; intros st Hin; simpl in *; [by left|].
  apply IH in Hin as [Hin|Hin]; [|right; by right].
  destruct st as [[vm vs] n]. unfold dedup_step in Hin. simpl in *.
  destruct (vert_lookup vm w); simpl in Hin; [by left|].
  apply elem_of_app in Hin as [Hin|Hin]; [by left|].
  apply list_elem_of_singleton in Hin as ->. right. by left.
Qed.

(** No lookup of the remapping loop fails when the raw index is in range. *)
Lemma new_index_of_total (raw : list Vec3) (i : Z) :
  (0 <= i < Z.of_nat (length raw))%Z →
  ∃ k, new_index_of (dedup raw).1.1 raw i = inr k.
Proof.
  intros Hi. unfold new_index_of, index.
  rewrite (proj2 (Z.leb_le 0 i)) by lia.
  destruct (lookup_lt_is_Some_2 raw (Z.to_nat i)) as [v Hv]; [lia|].
  rewrite Hv.
  pose proof (dedup_fold_covers raw ([], [], O) v (list_elem_of_lookup_2 _ _ _ Hv)) as Hc.
  fold (dedup raw) in Hc.
  destruct (vert_lookup (dedup raw).1.1 v) as [k|]; [by exists k|done].
Qed.

Lemma remap_total (raw : list Vec3) (raw_faces : list (Z * Z * Z)) :
  Forall (in_range (length raw)) raw_faces →
  ∃ faces, remap (dedup raw).1.1 raw raw_faces = Some faces
    ∧ Forall2 (same_face (dedup raw).1.2 raw) raw_faces faces.
Proof.
  pose proof (dedup_ok raw) as Hinv.
  destruct (dedup raw) as [[vm vs] n] eqn:Hd.
  induction 1 as [|[[ra rb] rc] rf (Ha & Hb & Hc) _ (faces & Hr & Hall)]; simpl.
  - exists []. split; [done|constructor].
  - destruct (new_index_of_total raw ra Ha) as [ka Hka].
    destruct (new_index_of_total raw rb Hb) as [kb Hkb].
    destruct (new_index_of_total raw rc Hc) as [kc Hkc].
    rewrite Hd in Hka, Hkb, Hkc. simpl in Hka, Hkb, Hkc.
    rewrite Hka, Hkb, Hkc. simpl in Hr. rewrite Hr. simpl.
    exists ((ka, kb, kc) :: faces). split; [done|].
    constructor; [|done]. simpl.
    split; [|split]; eapply new_index_of_spec; eauto.
Qed.

Lemma collect_in_range (fs : list (option Triangulation)) :
  Forall (from_option well_numbered True) fs →
  Forall (in_range (length (collect fs).1)) (collect fs).2.
Proof.
  intros Hwn. unfold collect.
  set (step := fun (acc : list Vec3 * list (Z * Z * Z)) (tri : option Triangulation) => _).
  assert (H : ∀ acc, Forall (in_range (length acc.1)) acc.2 →
            Forall (in_range (length (fold_left step fs acc).1)) (fold_left step fs acc).2).
  { induction Hwn as [|t fs Ht _ IH]; intros acc Hacc; simpl; [done|].
    apply IH. destruct t as [t|]; simpl; [|done].
    rewrite length_app. apply Forall_app. split.
    - eapply Forall_impl; [exact Hacc|]. intros [[a b] c]. simpl. lia.
    - apply Forall_forall. intros f Hf.
      apply list_elem_of_In, in_map_iff in Hf as ([[a b] c] & <- & Hin).
      apply list_elem_of_In, Ht in Hin. simpl in *. lia. }
  apply (H ([], [])). simpl. constructor.
Qed.

(** When the kernel numbers the corners of its triangles within the nodes
    of their face, no triangle is lost: there is one output face per raw
    triangle, in the same order, each corner pointing at a vertex with the
    coordinates of the raw corner; and the vertices are the raw vertices
    with repetitions removed. *)
Theorem mesh_faces_preserved (fs : list (option Triangulation)) :
  Forall (from_option well_numbered True) fs →
  (collect fs).2 ≠ [] →
  let raw_vertices := (collect fs).1 in
  let raw_faces := (collect fs).2 in
  let vertices := (extract_mesh_from_shape (Ok fs)).1 in
  let faces := (extract_mesh_from_shape (Ok fs)).2 in
  Forall2 (same_face vertices raw_vertices) raw_faces faces
  ∧ (∀ v, v ∈ vertices → v ∈ raw_vertices)
  ∧ (∀ v, v ∈ raw_vertices → ∃ u, u ∈ vertices ∧ vec_eqb u v = true)
  ∧ (∀ i j k k' u v,
       same_corner vertices raw_vertices i k → same_corner vertices raw_vertices j k' →
       index raw_vertices i = Some u → index raw_vertices j = Some v →
       vec_eqb u v = true → k = k').
Proof.
  intros Hwn Hne. pose proof (collect_in_range fs Hwn) as Hr.
  unfold extract_mesh_from_shape.
  destruct (collect fs) as [raw_vertices raw_faces]. simpl in *.
  destruct raw_faces as [|f0 raw_faces]; [done|].
  destruct raw_vertices as [|v0 raw_vertices].
  { apply Forall_cons in Hr as [Hf _]. destruct f0 as [[a b] c]. simpl in Hf. lia. }
  destruct (remap_total _ _ Hr) as (faces & Hm & Hall).
  pose proof (dedup_fold_covers (v0 :: raw_vertices) ([], [], O)) as Hcov.
  pose proof (dedup_fold_from (v0 :: raw_vertices) ([], [], O)) as Hfrom.
  pose proof (dedup_ok (v0 :: raw_vertices)) as Hinv.
  fold (dedup (v0 :: raw_vertices)) in Hcov, Hfrom.
  destruct (dedup (v0 :: raw_vertices)) as [[vm vs] n].
  cbn [fst snd] in Hm, Hall, Hcov, Hfrom.
  rewrite Hm. cbn [fst snd]. split; [done|]. split; [|split].
  - intros v Hv. destruct (Hfrom v Hv) as [H|H]; [by apply not_elem_of_nil in H|done].
  - intros v Hv. specialize (Hcov v Hv).
    destruct (vert_lookup vm v) as [k|] eqn:Hl; [|done].
    apply vert_lookup_Some in Hl as (u & Hin & Heq).
    destruct Hinv as (_ & Hmap & _). exists u. split; [|done].
    eapply list_elem_of_lookup_2. by apply Hmap.
  - intros i j k k' u v (a & u' & Hu' & Ha & Hau) (b & v' & Hv' & Hb & Hbv) Hu Hv Huv.
    rewrite Hu in Hu'. rewrite Hv in Hv'. simplify_eq.
    assert (Hab : vec_eqb a b = true).
    { apply vec_eqb_trans with u'; [done|].
      apply vec_eqb_trans with v'; [done|]. by apply vec_eqb_sym. }
    destruct Hinv as (_ & _ & Hdist & _).
    destruct (Nat.lt_trichotomy k k') as [Hlt|[->|Hgt]]; [|done|].
    + by rewrite (Hdist k k' a b Hlt Ha Hb) in Hab.
    + apply vec_eqb_sym in Hab. by rewrite (Hdist k' k b a Hgt Hb Ha) in Hab.
Qed.

End MeshFaces.

Lemma mesh_faces_preserved_witness :
  let A := mkVec3 0 0 0 in
  let B := mkVec3 1 0 0 in
  let C := mkVec3 0 1 0 in
  let D := mkVec3 1 1 0 in
  let face1 := Mesh.mkTriangulation [A; B; C] [(1, 2, 3)%Z] in
  let face2 := Mesh.mkTriangulation [C; D; B] [(1, 2, 3)%Z] in
  let fs := [Some face1; None; Some face2] in
  let mesh := Mesh.extract_mesh_from_shape (Ok fs) in
  Forall2 (Mesh.same_face mesh.1 (Mesh.collect fs).1) (Mesh.collect fs).2 mesh.2.
Proof.
  intros A B C D face1 face2 fs mesh.
  destruct (mesh_faces_preserved fs) as [H _]; [| |exact H].
  - assert (Hwn : ∀ nodes, length nodes = 3%nat →
               Mesh.well_numbered (Mesh.mkTriangulation nodes [(1, 2, 3)%Z])).
    { intros nodes Hn a b c Hin. apply list_elem_of_singleton in Hin.
      simplify_eq. cbn [Mesh.nodes]. rewrite Hn. lia. }
    apply List.Forall_cons; [by apply Hwn|]. apply List.Forall_cons; [exact I|].
    apply List.Forall_cons; [by apply Hwn|]. apply List.Forall_nil.
  - discriminate.
Defined.

(** Two triangles that share an edge, triangulated face by face: the two
    shared corners are stored once, and both faces point at them. *)
Example mesh_dedup_scenario :
  let A := mkVec3 0 0 0 in
  let B := mkVec3 1 0 0 in
  let C := mkVec3 0 1 0 in
  let D := mkVec3 1 1 0 in
  let face1 := Mesh.mkTriangulation [A; B; C] [(1, 2, 3)%Z] in
  let face2 := Mesh.mkTriangulation [C; D; B] [(1, 2, 3)%Z] in
  Mesh.extract_mesh_from_shape (Ok [Some face1; None; Some face2])
  = ([A; B; C; D], [(0, 1, 2); (2, 3, 1)]%nat).
Proof. reflexivity. Qed.

(** ** Worked examples *)

(** [round]: halves go to the even neighbour, on either side of zero. *)
Example round_examples :
  Py.round (5 # 2) 0 = 2%Q ∧ Py.round (7 # 2) 0 = 4%Q
  ∧ Py.round (- (5 # 2)) 0 = (-2)%Q
  ∧ Py.round (14199 # 1000) 2 = (71 # 5)%Q
  ∧ Py.round (600004 # 100000) 4 = 6%Q.
Proof. repeat split. Qed.

(** Samples 0, 1 and 3 chain into one cluster (the third dimension is
    divided by 3 before distances are taken); sample 2 is far away. *)
Example dbscan_example :
  Extraction.labels_of
    [Circle.mk "analytic_edge" (mkVec3 0 0 0) 6 None None;
     Circle.mk "cylindrical_face" (mkVec3 3 0 6) 6 None None;
     Circle.mk "fitted_edge" (mkVec3 30 0 0) 6 None None;
     Circle.mk "fitted_edge" (mkVec3 6 0 0) 6 None None]
  = [0; 0; 1; 0]%nat.
Proof. reflexivity. Qed.

(** Three candidates, two clusters: the pair backed by an analytic edge
    and a cylindrical face ranks first, the lone fitted edge second. *)
Example aggregate_example :
  let a := Circle.mk "analytic_edge" (mkVec3 0 0 0) 6 (Some (mkVec3 0 0 1)) None in
  let c := Circle.mk "cylindrical_face" (mkVec3 1 1 (-3)) 6 (Some (mkVec3 0 0 1)) None in
  let f := Circle.mk "fitted_edge" (mkVec3 30 1 (-3)) (61 # 10)
                     (Some (mkVec3 0 (1 # 10) (9 # 10))) (Some 2%Q) in
  List.map (fun h => (id h, num_circles h, elements (sources h)))
           (Extraction.combine_and_group sqrt_floor [f; a; c])
  = [(1%Z, 2%nat, ["cylindrical_face"; "analytic_edge"]);
     (2%Z, 1%nat, ["fitted_edge"])].
Proof. vm_compute. reflexivity. Qed.

(** The parametric pass on a straight segment: six samples, the fourth
    evaluation failing. *)
Example sampler_example :
  let value := fun t : Q => if Qeq_bool t (3 # 5) then Raise "evaluation failed"
                            else Ok (mkVec3 t 0 0) in
  let curve := Utils.mkCurve (Ok (Some 0%Q)) (Ok (Some 1%Q)) value in
  let edge := Utils.mkEdge (Ok curve) (Raise "no mesh") (Raise "no location")
                           (Raise "no polygon") in
  List.map (fun p => Qred (vx p)) (Utils.sample_edge_points edge 6)
  = [0; 1 # 5; 2 # 5; 4 # 5; 1]%Q.
Proof. vm_compute. reflexivity. Qed.

(** A whole job on the aggregator above: two candidates, one hole, a
    one-triangle mesh. *)
Example job_example :
  let a := Circle.mk "analytic_edge" (mkVec3 10 20 5) 6 (Some (mkVec3 0 0 1)) None in
  let c := Circle.mk "cylindrical_face" (mkVec3 10 20 2) 6 (Some (mkVec3 0 0 1)) None in
  let tri := Mesh.mkTriangulation [mkVec3 0 0 0; mkVec3 1 0 0; mkVec3 0 1 0]
                                  [(1, 2, 3)%Z] in
  let st := snd (Pipeline.process_step_file_async unit
                   (fun _ => Ok tt) (fun _ => Ok [a]) (fun _ => Ok [c]) (fun _ => Ok [])
                   (fun cs => Ok (Extraction.combine_and_group sqrt_floor cs))
                   (fun _ _ => Ok (Mesh.extract_mesh_from_shape (Ok [Some tri])))
                   (fun _ _ => Ok tt) (fun _ _ => Ok tt) "output"
                   "job" "part.stp" (3 # 2) empty_stores) in
  PROGRESS st !! Some "job" = Some (mkProgress 100 "Done - 1 holes detected")
  ∧ MESH_FILES st !! Some "job" = Some (Some "output/mesh_job.json")
  ∧ (List.map id <$> HOLE_DATA st !! Some "job") = Some [1%Z]
  ∧ SELECTED_HOLES st !! Some "job" = Some ∅.
Proof. vm_compute. repeat split. Qed.

(** The export scenario in binary64 arithmetic: [6.0 * 0.7] is
    4.199999999999999 and [10 - 6.0 * 0.7] is 5.800000000000001, and the
    sums and differences still round to the corners of the scenario. *)
Example export_scenario_binary64 :
  let off := (6 * 0x1.6666666666666p-1)%float in
  Binary64.rounds_to (10 + off)%float 2 (142 # 10)
  ∧ Binary64.rounds_to (10 - off)%float 2 (58 # 10)
  ∧ Binary64.rounds_to (20 + off)%float 2 (242 # 10)
  ∧ Binary64.rounds_to (20 - off)%float 2 (158 # 10)
  ∧ Binary64.rounds_to 5%float 2 5
  ∧ Binary64.rounds_to 6%float 4 6.
Proof.
  repeat split; eexists; (split; [vm_compute; reflexivity | reflexivity]).
Qed.

Lemma toggle_twice_witness :
  let st := mkStores ∅ ∅ ∅ {[Some "job" := {[2%Z]}]} in
  let st1 := fst (Handlers.toggle st (Some "job") (Some 5%Z)) in
  let st2 := fst (Handlers.toggle st1 (Some "job") (Some 5%Z)) in
  SELECTED_HOLES st1 !! Some "job" = Some ({[2%Z]} ∪ {[5%Z]})
  ∧ SELECTED_HOLES st2 !! Some "job" = Some {[2%Z]}.
Proof.
  intros st st1 st2.
  destruct (toggle_twice st (Some "job") 5) as (H2 & _ & H1).
  split; [|exact H2].
  apply H1. discriminate.
Defined.

Lemma delete_removes_witness :
  let st := mkStores {[Some "job" := mkProgress 100 "No mesh produced"]}
                     {[Some "job" := None]} {[Some "job" := []]} {[Some "job" := ∅]} in
  let r := Handlers.do_GET st (Handlers.ReqDelete (Some "job")) in
  Handlers.code (snd r) = 200%Z
  ∧ PROGRESS (fst r) !! Some "job" = None
  ∧ MESH_FILES (fst r) !! Some "job" = None
  ∧ HOLE_DATA (fst r) !! Some "job" = None
  ∧ SELECTED_HOLES (fst r) !! Some "job" = None.
Proof.
  intros st r. apply (delete_removes st "job"). discriminate.
Defined.

Lemma job_success_witness :
  let a := Circle.mk "analytic_edge" (mkVec3 10 20 5) 6 (Some (mkVec3 0 0 1)) None in
  let holes := Extraction.combine_and_group sqrt_floor [a] in
  let st := snd (Pipeline.process_step_file_async unit
                   (fun _ => Ok tt) (fun _ => Ok [a]) (fun _ => Ok []) (fun _ => Ok [])
                   (fun cs => Ok (Extraction.combine_and_group sqrt_floor cs))
                   (fun _ _ => Ok ([], [])) (fun _ _ => Ok tt) (fun _ _ => Ok tt)
                   "output" "job" "part.stp" (3 # 2) empty_stores) in
  HOLE_DATA st !! Some "job" = Some holes
  ∧ PROGRESS st !! Some "job" = Some (mkProgress 100 "No mesh produced")
  ∧ MESH_FILES st !! Some "job" = Some None.
Proof.
  intros a holes st.
  destruct (job_success unit
              (fun _ => Ok tt) (fun _ => Ok [a]) (fun _ => Ok []) (fun _ => Ok [])
              (fun cs => Ok (Extraction.combine_and_group sqrt_floor cs))
              (fun _ _ => Ok ([], [])) (fun _ _ => Ok tt) (fun _ _ => Ok tt)
              "output" "job" "part.stp" (3 # 2) empty_stores
              tt [a] [] [] holes [] [])
    as (Hh & _ & Hn & _); try reflexivity.
  - intros H. by destruct H.
  - split; [exact Hh|]. apply Hn. by left.
Defined.

Lemma mesh_well_formed_witness :
  let tri := Mesh.mkTriangulation [mkVec3 0 0 0; mkVec3 1 0 0; mkVec3 0 1 0; mkVec3 1 0 0]
                                  [(1, 2, 3); (3, 4, 1)]%Z in
  let mesh := Mesh.extract_mesh_from_shape (Ok [Some tri]) in
  (2 < length (fst mesh) ∧ 1 < length (fst mesh) ∧ 0 < length (fst mesh))%nat.
Proof.
  intros tri mesh.
  destruct (mesh_well_formed (Ok [Some tri])) as [H _].
  apply (H 2 1 0)%nat. vm_compute. right. left.
Defined.

(** ** The candidate extractors *)

Section ExtractorFacts.
Import Extractors Config.
Local Open Scope Q_scope.

Variable fit_circle_3d : list Vec3 → nat → result (option Fit).

(** What one element adds. *)
Lemma analytic_step_app (circles : list Circle.t) (e : EdgeElement) :
  analytic_step circles e = circles ++ analytic_step [] e.
Proof.
  unfold analytic_step.
  destruct (GetType e) as [[]|]; rewrite ?app_nil_r; try done.
  destruct (Circle e) as [c|]; rewrite ?app_nil_r; try done.
  destruct (_ && _); rewrite ?app_nil_r; try done.
  destruct (Py.leb _ _); rewrite ?app_nil_r; done.
Qed.

Lemma cylinder_step_app (cylinders : list Circle.t) (f : FaceElement) :
  cylinder_step cylinders f = cylinders ++ cylinder_step [] f.
Proof.
  unfold cylinder_step.
  destruct (SurfaceType f) as [[]|]; rewrite ?app_nil_r; try done.
  destruct (Cylinder f) as [c|]; rewrite ?app_nil_r; try done.
  destruct (_ && _); rewrite ?app_nil_r; try done.
  destruct (Py.leb _ _); rewrite ?app_nil_r; done.
Qed.

Lemma fitted_step_app (fitted : list Circle.t) (e : EdgeElement) :
  fitted_step fit_circle_3d fitted e = fitted ++ fitted_step fit_circle_3d [] e.
Proof.
  unfold fitted_step.
  destruct (GetType e) as [[]|]; rewrite ?app_nil_r; try done.
  destruct (_ <? _)%nat; rewrite ?app_nil_r; try done.
  destruct (fit_circle_3d _ _) as [[fit|]|]; rewrite ?app_nil_r; try done.
  destruct (negb _); rewrite ?app_nil_r; try done.
  destruct (Py.ltb _ _); rewrite ?app_nil_r; done.
Qed.

Lemma fold_step_app {A B} (step : list B → A → list B) (l : list A) (acc : list B) :
  (∀ acc a, step acc a = acc ++ step [] a) →
  fold_left step l acc = acc ++ fold_left step l [].
Proof.
  intros Hstep. revert acc. induction l as [|a l IH]; intros acc; simpl.
  - by rewrite app_nil_r.
  - rewrite (IH (step acc a)), (IH (step [] a)), (Hstep acc a). by rewrite app_assoc.
Qed.

Lemma fold_step_concat {A B} (step : list B → A → list B) (l1 l2 : list A) :
  (∀ acc a, step acc a = acc ++ step [] a) →
  fold_left step (l1 ++ l2) [] = fold_left step l1 [] ++ fold_left step l2 [].
Proof. intros Hstep. rewrite fold_left_app. by apply fold_step_app. Qed.

Lemma fold_step_Forall {A B} (step : list B → A → list B) (P : B → Prop) (l : list A) :
  (∀ acc a, step acc a = acc ++ step [] a) →
  (∀ a, Forall P (step [] a)) →
  Forall P (fold_left step l []).
Proof.
  intros Hstep HP. induction l as [|a l IH] using rev_ind; simpl; [constructor|].
  rewrite fold_left_app. simpl. rewrite Hstep. apply Forall_app. by split.
Qed.

Lemma fold_step_length {A B} (step : list B → A → list B) (l : list A) :
  (∀ acc a, step acc a = acc ++ step [] a) →
  (∀ a, (length (step [] a) ≤ 1)%nat) →
  (length (fold_left step l []) ≤ length l)%nat.
Proof.
  intros Hstep H1. induction l as [|a l IH] using rev_ind; simpl; [lia|].
  rewrite fold_left_app. simpl. rewrite Hstep, !length_app. simpl.
  specialize (H1 a). lia.
Qed.

(** Every candidate an extractor emits is tagged with its source and has
    its radius inside the window; those of the analytic-edge and cylinder
    extractors carry an axis that passed the alignment test, those of the
    fitted extractor an arc span of at least [ARC_MIN_SPAN_RAD]. *)
Theorem extractors_output (edges : list EdgeElement) (faces : list FaceElement) :
  Forall (exact_candidate "analytic_edge") (extract_analytic_circular_edges edges)
  ∧ Forall (exact_candidate "cylindrical_face") (extract_cylindrical_faces faces)
  ∧ Forall fitted_candidate (extract_fitted_circles_from_edges fit_circle_3d edges).
Proof.
  split; [|split].
  - apply fold_step_Forall; [apply analytic_step_app|].
    intros e. unfold analytic_step.
    destruct (GetType e) as [[]|]; try constructor.
    destruct (Circle e) as [c|]; try constructor.
    destruct (_ && _) eqn:Hw; try constructor.
    destruct (Py.leb MIN_VERTICAL_ALIGNMENT _) eqn:Ha; constructor; [|constructor].
    apply andb_true_iff in Hw as [Hlo Hhi].
    apply py_leb_true in Hlo, Hhi, Ha. repeat split; try done. eauto.
  - apply fold_step_Forall; [apply cylinder_step_app|].
    intros f. unfold cylinder_step.
    destruct (SurfaceType f) as [[]|]; try constructor.
    destruct (Cylinder f) as [c|]; try constructor.
    destruct (_ && _) eqn:Hw; try constructor.
    destruct (Py.leb MIN_VERTICAL_ALIGNMENT _) eqn:Ha; constructor; [|constructor].
    apply andb_true_iff in Hw as [Hlo Hhi].
    apply py_leb_true in Hlo, Hhi, Ha. repeat split; try done. eauto.
  - apply fold_step_Forall; [apply fitted_step_app|].
    intros e. unfold fitted_step.
    destruct (GetType e) as [[]|]; try constructor.
    destruct (_ <? _)%nat; try constructor.
    destruct (fit_circle_3d _ _) as [[fit|]|]; try constructor.
    destruct (_ && _) eqn:Hw; simpl; try constructor.
    destruct (Py.ltb _ _) eqn:Hs; constructor; [|constructor].
    apply andb_true_iff in Hw as [Hlo Hhi].
    apply py_leb_true in Hlo, Hhi. apply py_ltb_false in Hs.
    repeat split; try done; eauto.
Qed.

(** The scans work element by element: what a list of elements yields is
    what its parts yield, one after the other, an element contributes at most
    one candidate, and an element whose kernel calls raise contributes none
    without stopping the scan. *)
Theorem extractors_elementwise (e1 e2 : list EdgeElement) (f1 f2 : list FaceElement) :
  extract_analytic_circular_edges (e1 ++ e2)
    = extract_analytic_circular_edges e1 ++ extract_analytic_circular_edges e2
  ∧ extract_cylindrical_faces (f1 ++ f2)
    = extract_cylindrical_faces f1 ++ extract_cylindrical_faces f2
  ∧ extract_fitted_circles_from_edges fit_circle_3d (e1 ++ e2)
    = extract_fitted_circles_from_edges fit_circle_3d e1
      ++ extract_fitted_circles_from_edges fit_circle_3d e2
  ∧ (length (extract_analytic_circular_edges e1) ≤ length e1)%nat
  ∧ (length (extract_cylindrical_faces f1) ≤ length f1)%nat
  ∧ (length (extract_fitted_circles_from_edges fit_circle_3d e1) ≤ length e1)%nat
  ∧ (∀ e msg, GetType e = Raise msg ∨ (GetType e = Ok GeomAbs_Circle ∧ Circle e = Raise msg) →
       extract_analytic_circular_edges (e1 ++ e :: e2)
       = extract_analytic_circular_edges (e1 ++ e2))
  ∧ (∀ f msg, SurfaceType f = Raise msg
              ∨ (SurfaceType f = Ok GeomAbs_Cylinder ∧ Cylinder f = Raise msg) →
       extract_cylindrical_faces (f1 ++ f :: f2) = extract_cylindrical_faces (f1 ++ f2))
  ∧ (∀ e msg, GetType e = Raise msg
              ∨ fit_circle_3d (Utils.sample_edge_points (sampled e) 120) 4 = Raise msg →
       extract_fitted_circles_from_edges fit_circle_3d (e1 ++ e :: e2)
       = extract_fitted_circles_from_edges fit_circle_3d (e1 ++ e2)).
Proof.
  unfold extract_analytic_circular_edges, extract_cylindrical_faces,
    extract_fitted_circles_from_edges.
  split; [apply fold_step_concat, analytic_step_app|].
  split; [apply fold_step_concat, cylinder_step_app|].
  split; [apply fold_step_concat, fitted_step_app|].
  split.
  { apply fold_step_length; [apply analytic_step_app|].
    intros e. unfold analytic_step.
    destruct (GetType e) as [[]|]; simpl; try lia.
    destruct (Circle e); simpl; try lia.
    destruct (_ && _); simpl; try lia. destruct (Py.leb _ _); simpl; lia. }
  split.
  { apply fold_step_length; [apply cylinder_step_app|].
    intros f. unfold cylinder_step.
    destruct (SurfaceType f) as [[]|]; simpl; try lia.
    destruct (Cylinder f); simpl; try lia.
    destruct (_ && _); simpl; try lia. destruct (Py.leb _ _); simpl; lia. }
  split.
  { apply fold_step_length; [apply fitted_step_app|].
    intros e. unfold fitted_step.
    destruct (GetType e) as [[]|]; simpl; try lia.
    destruct (_ <? _)%nat; simpl; try lia.
    destruct (fit_circle_3d _ _) as [[fit|]|]; simpl; try lia.
    destruct (negb _); simpl; try lia. destruct (Py.ltb _ _); simpl; lia. }
  split; [|split].
  - intros e msg He.
    rewrite !(fold_step_concat _ e1), (fold_step_concat _ [e] e2)
      by apply analytic_step_app.
    simpl. unfold analytic_step at 2.
    destruct He as [-> | [-> ->]]; done.
  - intros f msg Hf.
    rewrite !(fold_step_concat _ f1), (fold_step_concat _ [f] f2)
      by apply cylinder_step_app.
    simpl. unfold cylinder_step at 2.
    destruct Hf as [-> | [-> ->]]; done.
  - intros e msg He.
    rewrite !(fold_step_concat _ e1), (fold_step_concat _ [e] e2)
      by apply fitted_step_app.
    simpl. unfold fitted_step at 2.
    destruct He as [-> | He]; [done|].
    destruct (GetType e) as [[]|]; try done.
    destruct (_ <? _)%nat; try done. by rewrite He.
Qed.

(** The aggregator's radius pre-filter keeps every candidate the three
    extractors produce. *)
Theorem prefilter_keeps_extracted (edges : list EdgeElement) (faces : list FaceElement) :
  let all_circles := extract_analytic_circular_edges edges
                     ++ extract_cylindrical_faces faces
                     ++ extract_fitted_circles_from_edges fit_circle_3d edges in
  Extraction.filtered all_circles = all_circles.
Proof.
  intros all_circles. unfold Extraction.filtered.
  assert (H : Forall (fun c => Extraction.in_window c = true) all_circles).
  { destruct (extractors_output edges faces) as (Ha & Hc & Hf).
    unfold all_circles. rewrite !Forall_app. repeat split.
    - eapply Forall_impl; [exact Ha|]. intros c (_ & Hlo & Hhi & _).
      by apply in_window_spec.
    - eapply Forall_impl; [exact Hc|]. intros c (_ & Hlo & Hhi & _).
      by apply in_window_spec.
    - eapply Forall_impl; [exact Hf|]. intros c (_ & Hlo & Hhi & _).
      by apply in_window_spec. }
  clear -H. induction H as [|c l Hc _ IH]; simpl; [done|]. by rewrite Hc, IH.
Qed.

(** No edge feeds both edge extractors: an edge whose curve is a circle is
    skipped by the fitted extractor, every other edge by the analytic one. *)
Theorem edge_feeds_one_extractor (edges : list EdgeElement) :
  (length (extract_analytic_circular_edges edges)
   + length (extract_fitted_circles_from_edges fit_circle_3d edges) ≤ length edges)%nat
  ∧ ∀ e, extract_analytic_circular_edges [e] = []
         ∨ extract_fitted_circles_from_edges fit_circle_3d [e] = [].
Proof.
  assert (H1 : ∀ e, extract_analytic_circular_edges [e] = []
         ∨ extract_fitted_circles_from_edges fit_circle_3d [e] = []).
  { intros e. unfold extract_analytic_circular_edges, extract_fitted_circles_from_edges.
    simpl. unfold analytic_step, fitted_step.
    destruct (GetType e) as [[]|]; auto. }
  split; [|exact H1].
  induction edges as [|e edges IH]; simpl; [lia|].
  change (e :: edges) with ([e] ++ edges).
  unfold extract_analytic_circular_edges, extract_fitted_circles_from_edges in *.
  rewrite (fold_step_concat _ [e] edges) by apply analytic_step_app.
  rewrite (fold_step_concat _ [e] edges) by apply fitted_step_app.
  rewrite !length_app.
  pose proof (fold_step_length analytic_step [e] analytic_step_app) as Ha.
  pose proof (fold_step_length (fitted_step fit_circle_3d) [e] fitted_step_app) as Hf.
  destruct (H1 e) as [E|E]; rewrite E; simpl.
  - assert ((length (fold_left (fitted_step fit_circle_3d) [e] []) ≤ 1)%nat).
    { apply Hf. intros a. unfold fitted_step.
      destruct (GetType a) as [[]|]; simpl; try lia.
      destruct (_ <? _)%nat; simpl; try lia.
      destruct (fit_circle_3d _ _) as [[fit|]|]; simpl; try lia.
      destruct (negb _); simpl; try lia. destruct (Py.ltb _ _); simpl; lia. }
    simpl in *. lia.
  - assert ((length (fold_left analytic_step [e] []) ≤ 1)%nat).
    { apply Ha. intros a. unfold analytic_step.
      destruct (GetType a) as [[]|]; simpl; try lia.
      destruct (Circle a); simpl; try lia.
      destruct (_ && _); simpl; try lia. destruct (Py.leb _ _); simpl; lia. }
    simpl in *. lia.
Qed.

End ExtractorFacts.

(** ** More on the aggregator *)

Section MoreAggregator.
Import Extraction Config.
Local Open Scope Q_scope.

Variable np_sqrt : Q → Q.

(** The score never falls below the support term's minimum of 15, and a
    group with two or more members, or with an analytic-edge or
    cylindrical-face member, scores at least [MIN_SCORE_THRESHOLD]. *)
Theorem score_floor (group : list Circle.t) (representative : option Circle.t)
    (avg_radius alignment : Q) :
  15 <= calculate_hole_score group representative avg_radius alignment
  ∧ ((2 ≤ length group)%nat
     ∨ (∃ g, g ∈ group ∧ (Circle.source g = "analytic_edge"
                          ∨ Circle.source g = "cylindrical_face")) →
     MIN_SCORE_THRESHOLD <= calculate_hole_score group representative avg_radius alignment).
Proof.
  unfold calculate_hole_score.
  set (rt := Py.max 0 (25 - Qabs (avg_radius - (55 # 10)) * (15 # 10))).
  assert (Hrt : 0 <= rt) by apply py_max_ge_l.
  set (s1 := if Py.leb MIN_VERTICAL_ALIGNMENT alignment then _ else _).
  assert (Hs1 : 0 <= s1).
  { unfold s1. destruct (Py.leb MIN_VERTICAL_ALIGNMENT alignment) eqn:Ha; [|lra].
    apply py_leb_true in Ha.
    assert (E : (alignment - MIN_VERTICAL_ALIGNMENT) / (1 - MIN_VERTICAL_ALIGNMENT) * 15
                == (alignment - (15 # 100)) * (300 # 17))
      by (unfold MIN_VERTICAL_ALIGNMENT; field).
    rewrite E. unfold MIN_VERTICAL_ALIGNMENT in Ha. lra. }
  clearbody s1. clear Hrt. clearbody rt.
  set (n := length group).
  set (s2 := if (4 <=? n)%nat then _ else _).
  assert (Hs2 : 15 <= s2 ∧ ((2 ≤ n)%nat → 24 <= s2)).
  { unfold s2. destruct (4 <=? n)%nat eqn:H4; [split; [lra|intros; lra]|].
    destruct (n =? 3)%nat eqn:H3; [split; [lra|intros; lra]|].
    destruct (n =? 2)%nat eqn:H2; [split; [lra|intros; lra]|].
    apply Nat.leb_gt in H4. apply Nat.eqb_neq in H3, H2.
    split; [lra|]. intros. lia. }
  clearbody s2.
  set (srcs := list_to_set (List.map Circle.source group) : gset string).
  set (s3 := if bool_decide ("cylindrical_face" ∈ srcs) then _ else _).
  assert (Hs3 : s2 <= s3 ∧ ("cylindrical_face" ∈ srcs → s2 + 15 <= s3)).
  { unfold s3. destruct (bool_decide _) eqn:Hb.
    - split; [lra|intros; lra].
    - apply bool_decide_eq_false in Hb. split; [lra|done]. }
  clearbody s3.
  set (s4 := if bool_decide ("analytic_edge" ∈ srcs) then _ else _).
  assert (Hs4 : s3 <= s4 ∧ ("analytic_edge" ∈ srcs → s3 + 10 <= s4)).
  { unfold s4. destruct (bool_decide _) eqn:Hb.
    - split; [lra|intros; lra].
    - apply bool_decide_eq_false in Hb. split; [lra|done]. }
  clearbody s4.
  set (s5 := if bool_decide ("fitted_edge" ∈ srcs) then _ else _).
  assert (Hs5 : s4 <= s5).
  { unfold s5. destruct (bool_decide _); [|lra]. destruct (2 <=? n)%nat; lra. }
  clearbody s5.
  assert (Hclamp : ∀ b, b <= 100 → b <= s5 → b <= Py.max 0 (Py.min 100 s5)).
  { intros b Hb Hbs. unfold Py.max, Py.min.
    destruct (Qlt_le_dec s5 100); destruct (Qlt_le_dec 0 _); lra. }
  destruct Hs2 as [Hs2 Hs2'], Hs3 as [Hs3 Hs3'], Hs4 as [Hs4 Hs4'].
  split; [apply Hclamp; lra|].
  intros [Hn | (g & Hg & Hsrc)]; apply Hclamp; unfold MIN_SCORE_THRESHOLD; try lra.
  - specialize (Hs2' Hn). lra.
  - assert (Hin : Circle.source g ∈ srcs).
    { unfold srcs. apply elem_of_list_to_set, list_elem_of_In, in_map.
      by apply list_elem_of_In. }
    destruct Hsrc as [E|E]; rewrite E in Hin.
    + specialize (Hs4' Hin). lra.
    + specialize (Hs3' Hin). lra.
Qed.

End MoreAggregator.

Section Partition.
Import Extraction Config.
Local Open Scope Q_scope.

(** *** The labels *)

Lemma expand_length (eps : Q) (pts : list Vec3) (lbl : nat) (labels : list (option nat)) :
  length labels = length pts → length (Lib.expand eps pts lbl labels) = length pts.
Proof.
  intros H. unfold Lib.expand. rewrite length_map, length_combine. lia.
Qed.

Lemma flood_length (rounds : nat) (eps : Q) (pts : list Vec3) (lbl : nat)
    (labels : list (option nat)) :
  length labels = length pts → length (Lib.flood rounds eps pts lbl labels) = length pts.
Proof.
  revert labels. induction rounds as [|r IH]; intros labels H; simpl; [done|].
  apply IH. by apply expand_length.
Qed.

Lemma scan_length (todo : list nat) (eps : Q) (pts : list Vec3) (lbl : nat)
    (labels : list (option nat)) :
  length labels = length pts → length (Lib.scan todo eps pts lbl labels) = length pts.
Proof.
  revert lbl labels. induction todo as [|i todo IH]; intros lbl labels H; simpl; [done|].
  destruct (labels !! i) as [[l|]|]; try by apply IH.
  apply IH, flood_length. by rewrite length_insert.
Qed.

Lemma DBSCAN_labels_length (eps : Q) (features : list Vec3) :
  length (Lib.DBSCAN_labels eps features) = length features.
Proof.
  unfold Lib.DBSCAN_labels. rewrite length_map. apply scan_length.
  by rewrite length_replicate.
Qed.

Lemma labels_of_length (fl : list Circle.t) : length (labels_of fl) = length fl.
Proof. unfold labels_of. by rewrite DBSCAN_labels_length, length_map. Qed.

Lemma elem_of_sorted_set (labels : list nat) (l : nat) :
  l ∈ Lib.sorted_set labels ↔ l ∈ labels.
Proof. unfold Lib.sorted_set. by rewrite elem_of_sort_by, elem_of_remove_dups. Qed.

Lemma sorted_set_NoDup (labels : list nat) : NoDup (Lib.sorted_set labels).
Proof.
  unfold Lib.sorted_set. rewrite sort_by_perm. apply NoDup_remove_dups.
Qed.

(** *** Splitting a list of labelled items by label *)

Lemma filter_split {A} (f : A → bool) (l : list A) :
  List.filter f l ++ List.filter (fun x => negb (f x)) l ≡ₚ l.
Proof.
  induction l as [|x l IH]; simpl; [done|].
  destruct (f x); simpl.
  - by rewrite IH.
  - rewrite <- Permutation_middle. by rewrite IH.
Qed.

Lemma filter_filter_other {A} (ps : list (nat * A)) (k k' : nat) :
  k' ≠ k →
  List.filter (fun p => Nat.eqb (fst p) k')
              (List.filter (fun p => negb (Nat.eqb (fst p) k)) ps)
  = List.filter (fun p => Nat.eqb (fst p) k') ps.
Proof.
  intros Hne. induction ps as [|p ps IH]; simpl; [done|].
  destruct (Nat.eqb (fst p) k) eqn:Hk; simpl.
  - apply Nat.eqb_eq in Hk.
    assert (Nat.eqb (fst p) k' = false) as -> by (apply Nat.eqb_neq; lia). done.
  - destruct (Nat.eqb (fst p) k'); by rewrite IH.
Qed.

Lemma split_by_label {A} (keys : list nat) (ps : list (nat * A)) :
  NoDup keys → (∀ p, p ∈ ps → fst p ∈ keys) →
  concat (List.map (fun k => List.filter (fun p => Nat.eqb (fst p) k) ps) keys) ≡ₚ ps.
Proof.
  intros Hnd. revert ps. induction Hnd as [|k keys Hk Hnd IH]; intros ps Hcov; simpl.
  - destruct ps as [|p ps]; [done|].
    exfalso. eapply not_elem_of_nil, (Hcov p). left.
  - transitivity (List.filter (fun p => Nat.eqb (fst p) k) ps
                  ++ List.filter (fun p => negb (Nat.eqb (fst p) k)) ps);
      [|apply filter_split].
    apply Permutation_app_head.
    assert (E : List.map (fun k' => List.filter (fun p => Nat.eqb (fst p) k') ps) keys
              = List.map (fun k' => List.filter (fun p => Nat.eqb (fst p) k')
                            (List.filter (fun p => negb (Nat.eqb (fst p) k)) ps)) keys).
    { apply map_ext_in. intros k' Hin.
      symmetry. apply filter_filter_other. intros ->.
      apply Hk. by apply list_elem_of_In. }
    rewrite E. apply IH.
    intros p Hp. apply elem_of_filter_bool in Hp as [Hp Hne].
    apply negb_true_iff, Nat.eqb_neq in Hne.
    specialize (Hcov p Hp). apply elem_of_cons in Hcov as [E'|Hin]; [done|done].
Qed.

Lemma map_snd_combine {A B} (l : list A) (k : list B) :
  length l = length k → List.map snd (combine l k) = k.
Proof.
  revert k. induction l as [|a l IH]; intros [|b k]; simpl; try done.
  intros [= H]. by rewrite IH.
Qed.

Lemma concat_map_map {A B} (f : A → B) (ls : list (list A)) :
  concat (List.map (List.map f) ls) = List.map f (concat ls).
Proof.
  induction ls as [|l ls IH]; simpl; [done|]. by rewrite IH, map_app.
Qed.

(** The clusters split the candidates that pass the radius filter: each of
    them is in exactly one group. *)
Lemma groups_concat (cs : list Circle.t) : concat (groups cs) ≡ₚ filtered cs.
Proof.
  unfold groups, group_of.
  set (fl := filtered cs). set (labels := labels_of fl).
  rewrite <- (map_map (fun k => List.filter (fun lc => Nat.eqb (fst lc) k) (combine labels fl))
                      (List.map snd)).
  rewrite concat_map_map.
  rewrite split_by_label.
  - rewrite map_snd_combine; [done|]. apply labels_of_length.
  - apply sorted_set_NoDup.
  - intros [l c] Hin. apply elem_of_sorted_set. simpl.
    apply list_elem_of_In in Hin. apply in_combine_l in Hin. by apply list_elem_of_In.
Qed.

Lemma elem_of_combine_lookup {A B} (l : list A) (k : list B) (i : nat) (a : A) (b : B) :
  l !! i = Some a → k !! i = Some b → (a, b) ∈ combine l k.
Proof.
  revert k i. induction l as [|x l IH]; intros [|y k] [|i]; simpl; try done.
  - intros [= ->] [= ->]. left.
  - intros Ha Hb. right. by eapply IH.
Qed.

Lemma groups_nonempty (cs g : list Circle.t) : g ∈ groups cs → g ≠ [].
Proof.
  unfold groups. intros Hin.
  apply list_elem_of_In, in_map_iff in Hin as (lbl & <- & Hl).
  apply list_elem_of_In in Hl. apply (proj1 (elem_of_sorted_set _ _)) in Hl.
  apply list_elem_of_lookup in Hl as [i Hi].
  pose proof (lookup_lt_Some _ _ _ Hi) as Hlt. rewrite labels_of_length in Hlt.
  apply lookup_lt_is_Some in Hlt as [c Hc].
  pose proof (elem_of_combine_lookup _ _ _ _ _ Hi Hc) as Hin.
  unfold group_of. intros Hnil.
  assert (Hc' : c ∈ List.map snd
            (List.filter (fun lc => Nat.eqb (fst lc) lbl)
               (combine (labels_of (filtered cs)) (filtered cs)))).
  { apply list_elem_of_In, in_map_iff. exists (lbl, c). split; [done|].
    apply filter_In. split; [by apply list_elem_of_In|]. simpl. apply Nat.eqb_refl. }
  rewrite Hnil in Hc'. by apply not_elem_of_nil in Hc'.
Qed.

(** *** The fields of a hole *)

Variable np_sqrt : Q → Q.

Lemma median_bounds (l : list Q) (lo hi : Q) :
  l ≠ [] → (∀ x, x ∈ l → lo <= x ∧ x <= hi) →
  lo <= Lib.median l ∧ Lib.median l <= hi.
Proof.
  intros Hne Hall. unfold Lib.median, Lib.sort_asc.
  set (s := Lib.sort_by Py.ltb l).
  assert (Hlen : length s = length l) by apply sort_by_length.
  assert (Hpos : (0 < length s)%nat).
  { rewrite Hlen. destruct l; [done|simpl; lia]. }
  assert (Hnth : ∀ i, (i < length s)%nat → lo <= nth i s 0 ∧ nth i s 0 <= hi).
  { intros i Hi. apply Hall. apply (elem_of_sort_by Py.ltb).
    apply list_elem_of_In. by apply nth_In. }
  assert (Hhalf : (length s / 2 < length s)%nat) by (apply Nat.div_lt; lia).
  destruct (Nat.even (length s)).
  - destruct (Hnth (length s / 2 - 1)%nat) as [H1 H2]; [lia|].
    destruct (Hnth (length s / 2)%nat) as [H3 H4]; [lia|].
    set (a := nth (length s / 2 - 1) s 0) in *.
    set (b := nth (length s / 2) s 0) in *.
    assert (E : (a + b) / 2 == (1 # 2) * (a + b)) by field.
    rewrite E. lra.
  - by apply Hnth.
Qed.

Lemma fold_max_ge (l : list Q) (a : Q) : a <= fold_left Py.max l a.
Proof.
  revert a. induction l as [|x l IH]; intros a; simpl; [lra|].
  apply Qle_trans with (Py.max a x); [apply py_max_ge_l|apply IH].
Qed.

Lemma fold_min_le (l : list Q) (a : Q) : fold_left Py.min l a <= a.
Proof.
  revert a. induction l as [|x l IH]; intros a; simpl; [lra|].
  apply Qle_trans with (Py.min a x); [apply IH|apply py_min_le_l].
Qed.

Lemma min_le_max_list (l : list Q) : Lib.min_list l <= Lib.max_list l.
Proof.
  destruct l as [|a l]; simpl; [lra|].
  apply Qle_trans with a; [apply fold_min_le|apply fold_max_ge].
Qed.

(** The members a hole is computed from: the group, reordered when it has
    no analytic member. *)
Lemma hole_of_group_members (g : list Circle.t) (n : nat) (h : Hole) :
  hole_of_group np_sqrt g n = Some h →
  ∃ g', g' ≡ₚ g
    ∧ center h = Lib.median3 (List.map Circle.center g')
    ∧ radius h = Lib.median (List.map Circle.radius g')
    ∧ num_circles h = length g'
    ∧ z_depth h = Lib.max_list (List.map (fun c => vz (Circle.center c)) g')
                  - Lib.min_list (List.map (fun c => vz (Circle.center c)) g')
    ∧ sources h = list_to_set (List.map Circle.source g').
Proof.
  unfold hole_of_group.
  destruct (List.filter is_analytic g) as [|a l].
  - destruct (Py.ltb _ _); [done|]. intros [= <-].
    exists (Lib.sort_desc (fun c => vz (Circle.center c)) g).
    split; [first [apply sort_by_perm | symmetry; apply sort_by_perm]|].
    repeat split.
  - destruct (Py.ltb _ _); [done|]. intros [= <-].
    exists g. split; [reflexivity|]. repeat split.
Qed.

(** Every returned hole has a radius inside the window, at least one
    supporting circle and never more than there are candidates, a
    non-negative depth, and at least one source. *)
Theorem hole_fields (cs : list Circle.t) (h : Hole) :
  h ∈ combine_and_group np_sqrt cs →
  (RADIUS_MIN <= radius h ∧ radius h <= RADIUS_MAX)
  ∧ (1 ≤ num_circles h ≤ length cs)%nat
  ∧ 0 <= z_depth h
  ∧ sources h ≠ ∅.
Proof.
  intros Hin. rewrite combine_and_group_unfold in Hin.
  apply elem_of_renumber in Hin as (h0 & Hin & ->).
  apply elem_of_ranked in Hin as [Hd _].
  apply discovered_origin in Hd as (g & n & Hg & Hh).
  apply hole_of_group_members in Hh as (g' & Hperm & _ & Hr & Hn & Hz & Hs).
  pose proof (groups_nonempty cs g Hg) as Hne.
  assert (Hne' : g' ≠ []).
  { intros ->. by apply Permutation_nil in Hperm. }
  assert (Hmem : ∀ x, x ∈ g' → x ∈ cs ∧ in_window x = true).
  { intros x Hx. rewrite Hperm in Hx. by apply (groups_members cs g). }
  destruct h0 as [i0 c0 r0 n0 z0 a0 s0 src0]. simpl in *. subst.
  split; [|split; [|split]].
  - apply median_bounds.
    + destruct g'; [done|discriminate].
    + intros x Hx. apply list_elem_of_In, in_map_iff in Hx as (c & <- & Hc).
      apply list_elem_of_In, Hmem in Hc as [_ Hw]. by apply in_window_spec.
  - split.
    + destruct g'; [done|simpl; lia].
    + rewrite Hperm.
      transitivity (length (concat (groups cs))).
      * apply list_elem_of_In, in_split in Hg as (l1 & l2 & ->).
        rewrite concat_app, length_app. simpl. rewrite length_app. lia.
      * rewrite groups_concat. unfold filtered.
        apply sublist_length, filter_sublist.
  - pose proof (min_le_max_list (List.map (fun c => vz (Circle.center c)) g')). lra.
  - destruct g' as [|c g']; [done|]. simpl.
    intros Hs. apply (not_elem_of_empty (C:=gset string) (Circle.source c)).
    rewrite <- Hs. apply elem_of_union_l, elem_of_singleton. reflexivity.
Qed.

(** The clusters split the candidates that pass the radius filter, none
    is empty, and there are no more holes than clusters and no more clusters
    than candidates. *)
Theorem clusters_partition (cs : list Circle.t) :
  concat (groups cs) ≡ₚ filtered cs
  ∧ Forall (fun g => g ≠ []) (groups cs)
  ∧ (length (combine_and_group np_sqrt cs) ≤ length (groups cs))%nat
  ∧ (length (groups cs) ≤ length (filtered cs))%nat
  ∧ (length (filtered cs) ≤ length cs)%nat.
Proof.
  split; [apply groups_concat|]. split; [|split; [|split]].
  - apply Forall_forall. intros g. apply groups_nonempty.
  - rewrite combine_and_group_unfold, renumber_length.
    pose proof (sublist_length _ _ (ranked_sublist np_sqrt cs)) as H1.
    unfold Lib.sort_desc in H1. rewrite sort_by_length in H1.
    etrans; [exact H1|]. unfold discovered.
    generalize (groups cs). intros gs.
    assert (H : ∀ acc, (length (fold_left (fun holes group =>
               match hole_of_group np_sqrt group (length holes) with
               | Some h => holes ++ [h]
               | None => holes
               end) gs acc) ≤ length acc + length gs)%nat).
    { induction gs as [|g gs IH]; intros acc; simpl; [lia|].
      etrans; [apply IH|]. destruct (hole_of_group _ _ _); rewrite ?length_app; simpl; lia. }
    apply (H []).
  - rewrite <- groups_concat.
    assert (H : Forall (fun g => g ≠ []) (groups cs)).
    { apply Forall_forall. intros g. apply groups_nonempty. }
    induction H as [|g gs Hg _ IH]; simpl; [lia|].
    rewrite length_app. destruct g; [done|]. simpl. lia.
  - unfold filtered. apply sublist_length, filter_sublist.
Qed.

End Partition.

(** ** Labels of the export *)

Section ExportLabels.
Import ExportJson.

Lemma enumerate_imap {A B} (f : nat → A → B) (l : list A) (start : nat) :
  List.map (fun ih => f (fst ih) (snd ih)) (Py.enumerate start l)
  = imap (fun i => f (start + i)%nat) l.
Proof.
  revert start f. induction l as [|a l IH]; intros start f; simpl; [done|].
  rewrite Nat.add_0_r. f_equal. rewrite IH. apply imap_ext. intros i y _. simpl.
  f_equal. lia.
Qed.

(** No two exported entries carry the same label, and there are never more
    entries than stored holes or, when the stored ids are distinct, than
    selected ids. *)
Theorem export_labels (holes : list Hole) (selected_ids : gset Z) (uid : string) :
  let doc := fst (generate_export_json holes selected_ids uid) in
  NoDup (HoleID <$> doc)
  ∧ (length doc ≤ length holes)%nat
  ∧ (NoDup (id <$> holes) → (length doc ≤ size selected_ids)%nat).
Proof.
  intros doc. subst doc. unfold generate_export_json. cbn [fst].
  rewrite enumerate_imap. split; [|split].
  - rewrite fmap_imap. apply NoDup_alt. intros i j s Hi Hj.
    rewrite list_lookup_imap in Hi, Hj.
    destruct (selected holes selected_ids !! i) as [hi|]; [|done].
    destruct (selected holes selected_ids !! j) as [hj|]; [|done].
    cbn [fmap option_fmap option_map] in Hi, Hj.
    injection Hi as Hi. injection Hj as Hj. rewrite <- Hj in Hi.
    unfold entry_of in Hi. cbn [HoleID] in Hi.
    apply (inj (String.append "BS-")) in Hi.
    apply (inj pretty) in Hi. lia.
  - rewrite length_imap. apply sublist_length, selected_sublist.
  - intros Hnd. rewrite length_imap.
    assert (Hsub : id <$> selected holes selected_ids `sublist_of` id <$> holes).
    { apply fmap_sublist, selected_sublist. }
    pose proof (sublist_NoDup _ _ Hnd Hsub) as Hnd'.
    rewrite <- (length_fmap id).
    rewrite <- (size_list_to_set (C := gset Z)) by done.
    apply subseteq_size. intros k Hk. apply elem_of_list_to_set in Hk.
    apply list_elem_of_fmap in Hk as (h & -> & Hh).
    by apply elem_of_selected in Hh as [_ ?].
Qed.

End ExportLabels.

(** ** Jobs do not disturb one another *)

(** A request changes nothing about any other job; polling and exporting
    change no store at all, and toggling only the selection. *)
Theorem requests_isolated (st : Stores) (req : Handlers.Request) :
  let st' := fst (Handlers.do_GET st req) in
  same_elsewhere (request_uid req) st st'
  ∧ (∀ uid, req = Handlers.ReqProgress uid ∨ req = Handlers.ReqExport uid → st' = st)
  ∧ (∀ uid i, req = Handlers.ReqToggle uid i →
       PROGRESS st' = PROGRESS st ∧ MESH_FILES st' = MESH_FILES st
       ∧ HOLE_DATA st' = HOLE_DATA st).
Proof.
  intros st'. subst st'. split; [|split].
  - intros k Hk. destruct req as [uid|uid i|uid|uid]; simpl in Hk |- *.
    + unfold Handlers.progress. destruct (Handlers.falsy uid); [done|].
      by destruct (PROGRESS st !! uid).
    + unfold Handlers.toggle.
      destruct (SELECTED_HOLES st !! uid) eqn:Hs;
        destruct (bool_decide (Handlers.hole_id_of i = 0%Z)); cbn;
        rewrite ?lookup_insert_ne by done; done.
    + unfold Handlers.export. destruct uid as [u|]; [|done].
      destruct (HOLE_DATA st !! Some u); [|done].
      destruct (SELECTED_HOLES st !! Some u); [|done].
      by destruct (Handlers.falsy (Some u)).
    + unfold Handlers.delete. destruct (Handlers.falsy uid); [done|]. cbn.
      rewrite !lookup_delete_ne by done. done.
  - intros uid [-> | ->]; simpl.
    + unfold Handlers.progress. destruct (Handlers.falsy uid); [done|].
      by destruct (PROGRESS st !! uid).
    + unfold Handlers.export. destruct uid as [u|]; [|done].
      destruct (HOLE_DATA st !! Some u); [|done].
      destruct (SELECTED_HOLES st !! Some u); [|done].
      by destruct (Handlers.falsy (Some u)).
  - intros uid i ->. simpl. unfold Handlers.toggle.
    destruct (SELECTED_HOLES st !! uid);
      destruct (bool_decide (Handlers.hole_id_of i = 0%Z)); done.
Qed.

Section JobFrame.
Import Pipeline.

Variable Shape : Type.
Variable load_step_shape : string → result Shape.
Variable extract_analytic_circular_edges : Shape → result (list Circle.t).
Variable extract_cylindrical_faces : Shape → result (list Circle.t).
Variable extract_fitted_circles_from_edges : Shape → result (list Circle.t).
Variable combine_and_group : list Circle.t → result (list Hole).
Variable extract_mesh_from_shape :
  Shape → Q → result (list Vec3 * list (nat * nat * nat)).
Variable dump_mesh : string → list Vec3 * list (nat * nat * nat) → result unit.
Variable dump_holes : string → list Hole → result unit.
Variable WEB_ROOT : string.

Let job := process_step_file_async Shape load_step_shape
  extract_analytic_circular_edges extract_cylindrical_faces
  extract_fitted_circles_from_edges combine_and_group
  extract_mesh_from_shape dump_mesh dump_holes WEB_ROOT.

Lemma same_elsewhere_refl uid st : same_elsewhere uid st st.
Proof. by intros k _. Qed.

Lemma same_elsewhere_trans uid st1 st2 st3 :
  same_elsewhere uid st1 st2 → same_elsewhere uid st2 st3 → same_elsewhere uid st1 st3.
Proof.
  intros H1 H2 k Hk. destruct (H1 k Hk) as (? & ? & ? & ?).
  destruct (H2 k Hk) as (? & ? & ? & ?). repeat split; congruence.
Qed.

Lemma frames_call {A} uid (r : result A) : frames uid (call r).
Proof. intros st. apply same_elsewhere_refl. Qed.

Lemma frames_bind {A B} uid (m : M A) (k : A → M B) :
  frames uid m → (∀ a, frames uid (k a)) → frames uid (mbind k m).
Proof.
  intros Hm Hk st. unfold mbind, M_bind, bind. specialize (Hm st).
  destruct (m st) as [[a|e] st1]; [|exact Hm].
  eapply same_elsewhere_trans; [exact Hm|apply Hk].
Qed.

Lemma frames_try_except {A} uid (body : M A) (handler : string → M A) :
  frames uid body → (∀ e, frames uid (handler e)) → frames uid (try_except body handler).
Proof.
  intros Hm Hh st. unfold try_except. specialize (Hm st).
  destruct (body st) as [[a|e] st1]; [exact Hm|].
  eapply same_elsewhere_trans; [exact Hm|apply Hh].
Qed.

Lemma frames_set_PROGRESS uid p : frames uid (set_PROGRESS uid p).
Proof. intros st k Hk. cbn. by rewrite lookup_insert_ne. Qed.

Lemma frames_set_MESH_FILES uid p : frames uid (set_MESH_FILES uid p).
Proof. intros st k Hk. cbn. by rewrite lookup_insert_ne. Qed.

Lemma frames_set_HOLE_DATA uid p : frames uid (set_HOLE_DATA uid p).
Proof. intros st k Hk. cbn. by rewrite lookup_insert_ne. Qed.

Lemma frames_set_SELECTED_HOLES uid p : frames uid (set_SELECTED_HOLES uid p).
Proof. intros st k Hk. cbn. by rewrite lookup_insert_ne. Qed.

Ltac frame :=
  repeat first
    [ apply frames_set_PROGRESS | apply frames_set_MESH_FILES
    | apply frames_set_HOLE_DATA | apply frames_set_SELECTED_HOLES
    | apply frames_call
    | apply frames_bind; [|intros ?] ].

(** A job writes nothing but its own entries: whatever its callees return
    or raise, every other job's progress, mesh, holes and selection are as
    they were. *)
Theorem job_isolated (uid step_path : string) (quality : Q) (st : Stores) :
  same_elsewhere (Some uid) st (snd (job uid step_path quality st)).
Proof.
  apply frames_try_except.
  - unfold job_body. frame.
    match goal with |- frames _ (let '(_, _) := ?a in _) => destruct a as [vs fs] end.
    destruct vs as [|v vs]; [frame|]. destruct fs as [|f fs]; frame.
  - intros e. unfold on_error. frame.
Qed.

(** Whatever happens in it, a job leaves all four of its entries set. *)
Lemma job_outcome (uid step_path : string) (quality : Q) (st : Stores) :
  let st' := snd (job uid step_path quality st) in
  ∃ s mesh holes,
    PROGRESS st' !! Some uid = Some (mkProgress 100 s)
    ∧ MESH_FILES st' !! Some uid = Some mesh
    ∧ HOLE_DATA st' !! Some uid = Some holes
    ∧ SELECTED_HOLES st' !! Some uid = Some ∅.
Proof.
  intros st'. subst st'. unfold job, process_step_file_async, try_except.
  destruct (job_body _ _ _ _ _ _ _ _ _ _ uid step_path quality st) as [[[]|e] st1] eqn:Hb.
  - revert Hb. unfold job_body, mbind, M_bind, bind, call, set_PROGRESS, set_MESH_FILES,
      set_HOLE_DATA, set_SELECTED_HOLES. cbn -[pretty String.append].
    destruct (load_step_shape step_path) as [shape|]; cbn -[pretty String.append];
      [|discriminate].
    destruct (extract_analytic_circular_edges shape) as [a|]; cbn -[pretty String.append];
      [|discriminate].
    destruct (extract_cylindrical_faces shape) as [c|]; cbn -[pretty String.append];
      [|discriminate].
    destruct (extract_fitted_circles_from_edges shape) as [f|]; cbn -[pretty String.append];
      [|discriminate].
    destruct (combine_and_group (a ++ c ++ f)) as [holes|]; cbn -[pretty String.append];
      [|discriminate].
    destruct (extract_mesh_from_shape shape quality) as [[vertices faces]|];
      cbn -[pretty String.append]; [|discriminate].
    destruct vertices as [|v vertices]; [|destruct faces as [|t faces]];
      cbn -[pretty String.append].
    + intros [= <-]. cbn. rewrite !lookup_insert_eq. eauto 10.
    + intros [= <-]. cbn. rewrite !lookup_insert_eq. eauto 10.
    + destruct (dump_mesh _ _) as [[]|]; cbn -[pretty String.append]; [|discriminate].
      destruct (dump_holes _ _) as [[]|]; cbn -[pretty String.append]; [|discriminate].
      intros [= <-]. cbn -[pretty String.append]. rewrite !lookup_insert_eq. eauto 10.
  - unfold on_error, mbind, M_bind, bind, set_PROGRESS, set_MESH_FILES,
      set_HOLE_DATA, set_SELECTED_HOLES. cbn -[String.append].
    rewrite !lookup_insert_eq. eauto 10.
Qed.

(** Right after a job, successful or not, its progress can be polled and
    reads 100 percent, and an export succeeds and holds no record, since
    nothing is selected yet; a first toggle selects exactly its hole. *)
Theorem job_then_requests (uid step_path : string) (quality : Q) (st : Stores) :
  uid ≠ EmptyString →
  let st' := snd (job uid step_path quality st) in
  (∃ s, snd (Handlers.do_GET st' (Handlers.ReqProgress (Some uid)))
        = Handlers.mkResponse 200 (Handlers.BodyProgress (mkProgress 100 s)))
  ∧ snd (Handlers.do_GET st' (Handlers.ReqExport (Some uid)))
    = Handlers.mkResponse 200 (Handlers.BodyExport 0 ("holes_export_" +:+ uid +:+ ".json"))
  ∧ (∀ i, i ≠ 0%Z →
       snd (Handlers.do_GET st' (Handlers.ReqToggle (Some uid) (Some i)))
       = Handlers.mkResponse 200 (Handlers.BodySelected {[i]})).
Proof.
  intros Hu st'.
  destruct (job_outcome uid step_path quality st) as (s & mesh & holes & Hp & Hm & Hh & Hs).
  fold st' in Hp, Hm, Hh, Hs. clearbody st'.
  assert (Hf : Handlers.falsy (Some uid) = false).
  { unfold Handlers.falsy. by rewrite bool_decide_eq_false_2. }
  split; [|split].
  - exists s. unfold Handlers.do_GET, Handlers.progress. by rewrite Hf, Hp.
  - unfold Handlers.do_GET, Handlers.export. rewrite Hh, Hs, Hf.
    unfold ExportJson.generate_export_json.
    assert (E : ExportJson.selected holes ∅ = []).
    { clear Hh. unfold ExportJson.selected.
      induction holes as [|h hs IH]; [done|]. cbn [List.filter].
      rewrite bool_decide_eq_false_2 by apply not_elem_of_empty. exact IH. }
    rewrite E. reflexivity.
  - intros i Hi. unfold Handlers.do_GET, Handlers.toggle. rewrite Hs.
    unfold Handlers.hole_id_of. cbn [default from_option Datatypes.id].
    rewrite Hs. cbn [default from_option Datatypes.id].
    rewrite bool_decide_eq_false_2 by done.
    rewrite bool_decide_eq_false_2 by apply not_elem_of_empty.
    cbn. f_equal. f_equal. apply (left_id_L ∅ (∪)).
Qed.

End JobFrame.

(** ** Runs of the job on a shape *)

Section AppRuns.

Variable np_sqrt : Q → Q.
Variable fit_circle_3d : list Vec3 → nat → result (option Extractors.Fit).
Variable reader : Step.Reader.
Variable dump_mesh : string → list Vec3 * list (nat * nat * nat) → result unit.
Variable dump_holes : string → list Hole → result unit.
Variable WEB_ROOT : string.

Let job := App.process_step_file_async np_sqrt fit_circle_3d reader dump_mesh dump_holes
             WEB_ROOT.
Let detected := App.detected np_sqrt fit_circle_3d.

(** A file the reader cannot read (any status but 1) ends the job in the
    error state with the message of [load_step_shape], whatever the reader
    would have transferred. *)
Theorem unreadable_step_file (uid step_path : string) (quality : Q) (st : Stores)
    (status : Z) (shape : result Step.Shape) :
  reader step_path = Ok (status, shape) → status ≠ 1%Z →
  let r := job uid step_path quality st in
  fst r = Ok tt
  ∧ PROGRESS (snd r) !! Some uid
    = Some (mkProgress 100 "Error: Failed to read STEP file")
  ∧ HOLE_DATA (snd r) !! Some uid = Some []
  ∧ MESH_FILES (snd r) !! Some uid = Some None
  ∧ SELECTED_HOLES (snd r) !! Some uid = Some ∅.
Proof.
  intros Hr Hs r.
  assert (Hl : Step.load_step_shape reader step_path = Raise "Failed to read STEP file").
  { unfold Step.load_step_shape. rewrite Hr.
    destruct (status =? 1)%Z eqn:E; [|done]. apply Z.eqb_eq in E. done. }
  destruct (job_boundary Step.Shape (Step.load_step_shape reader)
    (fun shape =>
       Step.on_elements Extractors.extract_analytic_circular_edges (Step.edges shape))
    (fun shape =>
       Step.on_elements Extractors.extract_cylindrical_faces (Step.faces shape))
    (fun shape =>
       Step.on_elements (Extractors.extract_fitted_circles_from_edges fit_circle_3d)
                        (Step.edges shape))
    (fun all_circles => Ok (Extraction.combine_and_group np_sqrt all_circles))
    (fun shape quality => Ok (Mesh.extract_mesh_from_shape (Step.triangulation shape quality)))
    dump_mesh dump_holes WEB_ROOT uid step_path quality st) as (H1 & _ & H3).
  split; [exact H1|]. apply H3. by apply Pipeline.raises_load.
Qed.

(** When the file loads, both traversals run and the files can be written,
    the job stores the aggregate of what the three extractors found on the
    shape's edges and faces, with nothing selected, whatever happened on
    single elements or in the mesher; the status counts these holes when the
    mesh is not empty. *)
Theorem job_stores_aggregate (uid step_path : string) (quality : Q) (st : Stores)
    (shape : Step.Shape) (es : list Extractors.EdgeElement)
    (fs : list Extractors.FaceElement) :
  Step.load_step_shape reader step_path = Ok shape →
  Step.edges shape = Ok es → Step.faces shape = Ok fs →
  let mesh := Mesh.extract_mesh_from_shape (Step.triangulation shape quality) in
  let mesh_path := Pipeline.join WEB_ROOT ("mesh_" +:+ uid +:+ ".json") in
  let hole_path := Pipeline.join WEB_ROOT ("holes_" +:+ uid +:+ ".json") in
  (fst mesh ≠ [] → snd mesh ≠ [] →
   dump_mesh mesh_path mesh = Ok tt ∧ dump_holes hole_path (detected es fs) = Ok tt) →
  let r := job uid step_path quality st in
  HOLE_DATA (snd r) !! Some uid = Some (detected es fs)
  ∧ SELECTED_HOLES (snd r) !! Some uid = Some ∅
  ∧ (fst mesh = [] ∨ snd mesh = [] →
       PROGRESS (snd r) !! Some uid = Some (mkProgress 100 "No mesh produced")
       ∧ MESH_FILES (snd r) !! Some uid = Some None)
  ∧ (fst mesh ≠ [] → snd mesh ≠ [] →
       PROGRESS (snd r) !! Some uid
       = Some (mkProgress 100 ("Done - " +:+ pretty (length (detected es fs))
                               +:+ " holes detected"))
       ∧ MESH_FILES (snd r) !! Some uid = Some (Some mesh_path)).
Proof.
  intros Hl He Hf mesh mesh_path hole_path Hd r.
  destruct (decide (fst mesh = [] ∨ snd mesh = [])) as [Hempty|Hfull].
  - destruct (mesh_failure_absorbed np_sqrt fit_circle_3d reader dump_mesh dump_holes
                WEB_ROOT uid step_path quality st shape es fs Hl He Hf Hempty)
      as (_ & Hp & Hh & Hm & Hs).
    split; [exact Hh|]. split; [exact Hs|]. split; [done|].
    intros H1 H2. destruct Hempty; done.
  - assert (Hv : fst mesh ≠ []) by (intros E; apply Hfull; by left).
    assert (Hfc : snd mesh ≠ []) by (intros E; apply Hfull; by right).
    destruct (Hd Hv Hfc) as [Hdm Hdh]. subst r.
    unfold job, App.process_step_file_async, Pipeline.process_step_file_async,
      Pipeline.try_except, Pipeline.job_body, mbind, Pipeline.M_bind, Pipeline.bind,
      Pipeline.call, Pipeline.set_PROGRESS, Pipeline.set_MESH_FILES,
      Pipeline.set_HOLE_DATA, Pipeline.set_SELECTED_HOLES.
    rewrite Hl, He, Hf. cbn -[pretty String.append Mesh.extract_mesh_from_shape
      Extraction.combine_and_group Extractors.extract_analytic_circular_edges
      Extractors.extract_cylindrical_faces Extractors.extract_fitted_circles_from_edges].
    fold mesh. fold (Pipeline.join WEB_ROOT). fold mesh_path hole_path.
    fold (App.candidates fit_circle_3d es fs).
    fold (App.detected np_sqrt fit_circle_3d es fs). fold detected.
    revert Hdm Hdh Hv Hfc. generalize mesh. intros [vs faces] Hdm Hdh Hv Hfc.
    cbn [fst snd] in Hv, Hfc.
    destruct vs as [|v vs]; [done|]. destruct faces as [|f faces]; [done|].
    cbn -[pretty String.append]. rewrite Hdm. cbn -[pretty String.append].
    rewrite Hdh. cbn -[pretty String.append].
    rewrite !lookup_insert_eq. split; [done|]. split; [done|]. split; [|done].
    intros [E|E]; discriminate E.
Qed.

End AppRuns.

(** [Binary64] computes what the machine computes: products, sums and
    differences of sample floats (among them 0.7, 0.1, 0.3, the smallest
    subnormal number, the largest significand and [2^53]), and the literal
    [0.7]. *)
Example binary64_agrees_with_machine :
  let value := fun f => default 0%Q (Binary64.Q_of_float f) in
  let samples :=
    [0x1.6666666666666p-1; 6; 2.25; 2.75; 10; 20; 0x1.999999999999ap-4;
     0x1.3333333333333p-2; 0x0.0000000000001p-1022; 0x1.fffffffffffffp+0;
     0x1.e240c9fbe76c9p+16; -0x1.a666666666666p+1; 9007199254740992]%float in
  forallb (fun a =>
    forallb (fun b =>
      Binary64.agrees (a * b) (Binary64.mul (value a) (value b))
      && Binary64.agrees (a + b) (Binary64.add (value a) (value b))
      && Binary64.agrees (a - b) (Binary64.sub (value a) (value b))) samples) samples
  = true
  ∧ Binary64.agrees 0x1.6666666666666p-1 (Binary64.literal (7 # 10)) = true.
Proof. vm_compute. split; reflexivity. Qed.

(** ** Instances *)

Lemma extractors_elementwise_witness :
  let unsampled := Utils.mkEdge (Raise "no curve") (Raise "no mesh") (Raise "no location")
                                (Raise "no polygon") in
  let circle := Extractors.mkGeometry (mkVec3 10 20 5) (mkVec3 0 0 1) 6 in
  let good := Extractors.mkEdgeElement (Ok Extractors.GeomAbs_Circle) (Ok circle) unsampled in
  let bad := Extractors.mkEdgeElement (Raise "broken edge") (Ok circle) unsampled in
  Extractors.extract_analytic_circular_edges ([good] ++ bad :: [good])
  = Extractors.extract_analytic_circular_edges ([good] ++ [good]).
Proof.
  intros unsampled circle good bad.
  destruct (extractors_elementwise (fun _ _ => Ok None) [good] [good] [] [])
    as (_ & _ & _ & _ & _ & _ & H & _).
  apply (H bad "broken edge"). left. reflexivity.
Defined.

Lemma score_floor_witness :
  let c := Circle.mk "cylindrical_face" (mkVec3 0 0 0) 19 (Some (mkVec3 0 0 1)) None in
  (Config.MIN_SCORE_THRESHOLD
   <= Extraction.calculate_hole_score [c] (Some c) 19 (15 # 100))%Q.
Proof.
  intros c. destruct (score_floor [c] (Some c) 19 (15 # 100)) as [_ H].
  apply H. right. exists c. split; [apply list_elem_of_singleton; reflexivity|].
  right. reflexivity.
Defined.

Lemma hole_fields_witness :
  let a := Circle.mk "analytic_edge" (mkVec3 0 0 0) 6 (Some (mkVec3 0 0 1)) None in
  let c := Circle.mk "cylindrical_face" (mkVec3 1 1 (-3)) 7 (Some (mkVec3 0 0 1)) None in
  let holes := Extraction.combine_and_group sqrt_floor [a; c] in
  holes ≠ []
  ∧ Forall (fun h => (Config.RADIUS_MIN <= radius h ∧ radius h <= Config.RADIUS_MAX)%Q
                     ∧ (1 ≤ num_circles h ≤ 2)%nat
                     ∧ (0 <= z_depth h)%Q
                     ∧ sources h ≠ ∅) holes.
Proof.
  intros a c holes. split; [vm_compute; discriminate|].
  apply Forall_forall. intros h Hh.
  apply (hole_fields sqrt_floor [a; c] h Hh).
Defined.

Lemma export_labels_witness :
  let h1 := mkHole 1 (mkVec3 0 0 0) 5 1 0 1 50 {["analytic_edge"]} in
  let h2 := mkHole 2 (mkVec3 9 9 0) 6 1 0 1 60 {["analytic_edge"]} in
  (length (fst (ExportJson.generate_export_json [h1; h2] {[2%Z; 7%Z]} "job"))
   ≤ size ({[2%Z; 7%Z]} : gset Z))%nat.
Proof.
  intros h1 h2.
  destruct (export_labels [h1; h2] {[2%Z; 7%Z]} "job") as (_ & _ & H).
  apply H. vm_compute. repeat constructor; set_solver.
Defined.

Lemma requests_isolated_witness :
  let st := mkStores {[Some "a" := mkProgress 100 "Done - 0 holes detected";
                       Some "b" := mkProgress 40 "Found 2 holes, triangulating mesh"]}
                     {[Some "a" := None]} {[Some "a" := []]}
                     {[Some "a" := ∅; Some "b" := {[3%Z]}]} in
  let st' := fst (Handlers.do_GET st (Handlers.ReqDelete (Some "a"))) in
  PROGRESS st' !! Some "b" = PROGRESS st !! Some "b"
  ∧ MESH_FILES st' !! Some "b" = MESH_FILES st !! Some "b"
  ∧ HOLE_DATA st' !! Some "b" = HOLE_DATA st !! Some "b"
  ∧ SELECTED_HOLES st' !! Some "b" = SELECTED_HOLES st !! Some "b".
Proof.
  intros st st'.
  destruct (requests_isolated st (Handlers.ReqDelete (Some "a"))) as [H _].
  apply (H (Some "b")). discriminate.
Defined.

Lemma job_isolated_witness :
  let st := mkStores {[Some "b" := mkProgress 40 "Found 2 holes, triangulating mesh"]}
                     ∅ ∅ {[Some "b" := {[3%Z]}]} in
  let st' := snd (Pipeline.process_step_file_async unit
                    (fun _ => Raise "Failed to read STEP file")
                    (fun _ => Ok []) (fun _ => Ok []) (fun _ => Ok [])
                    (fun _ => Ok []) (fun _ _ => Ok ([], [])) (fun _ _ => Ok tt)
                    (fun _ _ => Ok tt) "output" "a" "part.step" (3 # 2) st) in
  PROGRESS st' !! Some "b" = PROGRESS st !! Some "b"
  ∧ MESH_FILES st' !! Some "b" = MESH_FILES st !! Some "b"
  ∧ HOLE_DATA st' !! Some "b" = HOLE_DATA st !! Some "b"
  ∧ SELECTED_HOLES st' !! Some "b" = SELECTED_HOLES st !! Some "b".
Proof.
  intros st st'.
  apply (job_isolated unit (fun _ => Raise "Failed to read STEP file")
           (fun _ => Ok []) (fun _ => Ok []) (fun _ => Ok [])
           (fun _ => Ok []) (fun _ _ => Ok ([], [])) (fun _ _ => Ok tt)
           (fun _ _ => Ok tt) "output" "a" "part.step" (3 # 2) st (Some "b")).
  discriminate.
Defined.

Lemma job_then_requests_witness :
  let st' := snd (Pipeline.process_step_file_async unit
                    (fun _ => Raise "Failed to read STEP file")
                    (fun _ => Ok []) (fun _ => Ok []) (fun _ => Ok [])
                    (fun _ => Ok []) (fun _ _ => Ok ([], [])) (fun _ _ => Ok tt)
                    (fun _ _ => Ok tt) "output" "a" "part.step" (3 # 2) empty_stores) in
  snd (Handlers.do_GET st' (Handlers.ReqExport (Some "a")))
  = Handlers.mkResponse 200 (Handlers.BodyExport 0 "holes_export_a.json").
Proof.
  intros st'.
  destruct (job_then_requests unit (fun _ => Raise "Failed to read STEP file")
              (fun _ => Ok []) (fun _ => Ok []) (fun _ => Ok [])
              (fun _ => Ok []) (fun _ _ => Ok ([], [])) (fun _ _ => Ok tt)
              (fun _ _ => Ok tt) "output" "a" "part.step" (3 # 2) empty_stores)
    as (_ & H & _); [discriminate|exact H].
Defined.

Lemma unreadable_step_file_witness :
  let reader : Step.Reader :=
    fun _ => Ok (0%Z, Raise "no shape was transferred") in
  let r := App.process_step_file_async sqrt_floor (fun _ _ => Ok None) reader
             (fun _ _ => Ok tt) (fun _ _ => Ok tt) "output" "job" "missing.step" (3 # 2)
             empty_stores in
  fst r = Ok tt
  ∧ PROGRESS (snd r) !! Some "job"
    = Some (mkProgress 100 "Error: Failed to read STEP file")
  ∧ HOLE_DATA (snd r) !! Some "job" = Some []
  ∧ MESH_FILES (snd r) !! Some "job" = Some None
  ∧ SELECTED_HOLES (snd r) !! Some "job" = Some ∅.
Proof.
  intros reader r.
  apply (unreadable_step_file sqrt_floor (fun _ _ => Ok None) reader
           (fun _ _ => Ok tt) (fun _ _ => Ok tt) "output" "job" "missing.step" (3 # 2)
           empty_stores 0%Z (Raise "no shape was transferred")).
  - reflexivity.
  - discriminate.
Defined.

Lemma job_stores_aggregate_witness :
  let unsampled := Utils.mkEdge (Raise "no curve") (Raise "no mesh") (Raise "no location")
                                (Raise "no polygon") in
  let circle := Extractors.mkGeometry (mkVec3 10 20 5) (mkVec3 0 0 1) 6 in
  let edge := Extractors.mkEdgeElement (Ok Extractors.GeomAbs_Circle) (Ok circle) unsampled in
  let broken := Extractors.mkEdgeElement (Raise "broken edge") (Ok circle) unsampled in
  let tri := Mesh.mkTriangulation [mkVec3 0 0 0; mkVec3 1 0 0; mkVec3 0 1 0]
                                  [(1, 2, 3)%Z] in
  let shape := Step.mkShape (Ok [edge; broken]) (Ok []) (fun _ => Ok [Some tri]) in
  let r := App.process_step_file_async sqrt_floor (fun _ _ => Ok None)
             (fun _ => Ok (1%Z, Ok shape)) (fun _ _ => Ok tt) (fun _ _ => Ok tt)
             "output" "job" "part.step" (3 # 2) empty_stores in
  HOLE_DATA (snd r) !! Some "job"
    = Some (App.detected sqrt_floor (fun _ _ => Ok None) [edge; broken] [])
  ∧ SELECTED_HOLES (snd r) !! Some "job" = Some ∅.
Proof.
  intros unsampled circle edge broken tri shape r.
  destruct (job_stores_aggregate sqrt_floor (fun _ _ => Ok None)
              (fun _ => Ok (1%Z, Ok shape)) (fun _ _ => Ok tt) (fun _ _ => Ok tt)
              "output" "job" "part.step" (3 # 2) empty_stores shape [edge; broken] [])
    as (H1 & H2 & _); try reflexivity.
  - intros _ _. split; reflexivity.
  - split; [exact H1|exact H2].
Defined.
